(** * LEDserver: the frame/metadata cache of the server and the client's
      pixel-buffer helpers

    A shallow embedding of [src/server/server.ts] (the Express handlers, the
    start-up routine and the payload checks) and of the client utilities
    ([get2Darray], [genFrameID], [fetchMetadataFromServer]).

    JavaScript values are embedded as follows.
    - A number is a rational [Q]; a [Uint8Array] is a [list Z] of bytes.
    - [undefined] is [None]: a missing property, an array read past the end.
    - An exception is the [Throw] case of [Completion]; [try]/[catch] is
      [try_catch].
    - The module-level variables [animationCache] and [metadataCache] and the
      database form the [World] that the stateful routines thread.
    - Requests are served one at a time: the interleaving of asynchronous
      handlers is not part of the model.  What the environment decides
      during a call, the random draws and the store operations that fail,
      is given to the call as [Random] and [Faults]. *)

From stdpp Require Import gmap strings list fin_maps.
From Stdlib Require Import QArith Qround ZArith Lia DecimalString.
From Stdlib Require HexadecimalString.

Local Open Scope string_scope.
Local Open Scope list_scope.
Local Open Scope nat_scope.

(** ** Exceptions *)

(** What a [throw] carries: [new Error(message)] as thrown by the source;
    a [TypeError] raised by the engine (a property read on [null] or
    [undefined]); the [SyntaxError] of [response.json()] on a body that is
    not JSON; the refusal of the [Frame] constructor; the rejection of a
    store operation. *)
Inductive Error : Type :=
  | Err (message : string)
  | TypeError
  | SyntaxError
  | InvalidLength
  | DbError.

Inductive Completion (A : Type) : Type :=
  | Normal (a : A)
  | Throw (e : Error).
Arguments Normal {A} a.
Arguments Throw {A} e.

#[global] Instance Completion_ret : MRet Completion := fun _ a => Normal a.
#[global] Instance Completion_bind : MBind Completion := fun _ _ k c =>
  match c with
  | Normal a => k a
  | Throw e => Throw e
  end.

Definition try_catch {A} (body : Completion A) (handler : Error -> Completion A)
  : Completion A :=
  match body with
  | Normal a => Normal a
  | Throw e => handler e
  end.

(** [assertTrue] (server.ts 282-286, and the client's copy): throws
    [new Error(message || 'Assertion failed')]. *)
Definition assertTrue (condition : bool) (message : string) : Completion unit :=
  if condition then Normal tt
  else Throw (Err (if String.eqb message "" then "Assertion failed" else message)).

(** ** The client's grid conversion *)

Definition IMAGE_PIXEL_LENGTH : nat := 16.
Definition FRAME_PIXEL_COUNT : nat := IMAGE_PIXEL_LENGTH ^ 2.

(** A grid cell [[arr[index], arr[index + 1], arr[index + 2]]]; an array read
    is [arr !! i], [None] past the end. *)
Definition Pixel (A : Type) : Type := (option A * option A * option A)%type.

Definition pixelAt {A} (arr : list A) (index : nat) : Pixel A :=
  (arr !! index, arr !! (index + 1), arr !! (index + 2)).

(** [get2Darray] (client utilities 84-94). The two [for] loops run over
    [0 .. IMAGE_PIXEL_LENGTH - 1]. *)
Definition get2Darray {A} (arr : list A) : Completion (list (list (Pixel A))) :=
  _ ← assertTrue (length arr =? FRAME_PIXEL_COUNT * 3) "Array length needs to be 256*3";
  Normal
    (map (fun i =>
            map (fun j => pixelAt arr (3 * (i * IMAGE_PIXEL_LENGTH + j)))
                (seq 0 IMAGE_PIXEL_LENGTH))
         (seq 0 IMAGE_PIXEL_LENGTH)).

(** Row-major flattening of a grid, channel by channel. *)
Definition flattenPixel {A} (p : Pixel A) : list (option A) :=
  let '(r, g, b) := p in [r; g; b].

Definition flattenGrid {A} (grid : list (list (Pixel A))) : list (option A) :=
  concat (map (fun row => concat (map flattenPixel row)) grid).

(** ** The incoming payload *)

(** A value found under a key of a frame object.  Only [typeof value] and,
    for a number, its magnitude are inspected by the source. *)
Inductive jsval : Type :=
  | JNum (q : Q)
  | JStr (s : string)
  | JBool (b : bool)
  | JNull
  | JObject.

(** A frame as the client sends it, [{ [key: string]: number }]: the own
    properties of the object in the order [Object.keys] lists them. *)
Abbreviation FrameObject := (list (string * jsval)).

Definition keys (frameObject : FrameObject) : list string := frameObject.*1.

(** [frameObject[key]] *)
Fixpoint getProperty {V} (props : list (string * V)) (key : string) : option V :=
  match props with
  | [] => None
  | (k, v) :: rest => if String.eqb k key then Some v else getProperty rest key
  end.

(** [interface AnimationState] (server.ts 185-190); a field that the JSON
    object does not define reads as [undefined]. *)
Record AnimationState : Type := mkAnimationState {
  as_animationID : option string;
  as_frameDuration : option Q;
  as_repeatCount : option Q;
  as_frames : option (list FrameObject)
}.

(** The body of a POST: an array whose entries are animation objects or
    [null]. *)
Abbreviation Payload := (list (option AnimationState)).

(** Reading through a reference [x]: a [TypeError] when [x] is [null] or
    [undefined]. *)
Definition deref {A} (x : option A) : Completion A :=
  match x with
  | Some a => Normal a
  | None => Throw TypeError
  end.

(** The property read [x.p]. *)
Definition property {A B} (x : option A) (p : A -> B) : Completion B :=
  a ← deref x; Normal (p a).

(** [v != undefined] *)
Definition isDefined {A} (v : option A) : bool :=
  match v with
  | Some _ => true
  | None => false
  end.

(** [v === 256] *)
Definition strictEquals256 (v : option jsval) : bool :=
  match v with
  | Some (JNum q) => Qeq_bool q 256
  | _ => false
  end.

(** [Array.prototype.forEach]: the callback's return value is dropped, an
    exception it throws propagates. *)
Fixpoint forEach {A B} (callback : A -> Completion B) (l : list A) : Completion unit :=
  match l with
  | [] => Normal tt
  | x :: rest => _ ← callback x; forEach callback rest
  end.

(** [for (let i = 0; i < n; i++) body] *)
Definition forUpTo (n : nat) (body : nat -> Completion unit) : Completion unit :=
  forEach body (seq 0 n).

Definition numberToString (n : nat) : string :=
  NilZero.string_of_uint (Nat.to_uint n).

(** The body of the [try] block of [verifyAnimationJson] (server.ts 265-274). *)
Definition verifyAnimationChecks (animation : option AnimationState) : Completion unit :=
  _ ← assertTrue (isDefined animation) "given var is null";
  animationID ← property animation as_animationID;
  _ ← assertTrue (isDefined animationID) "name is undefined";
  frameDuration ← property animation as_frameDuration;
  _ ← assertTrue (isDefined frameDuration) "frame duration is undefined";
  repeatCount ← property animation as_repeatCount;
  _ ← assertTrue (isDefined repeatCount) "repeat count is undefined";
  frames ← property animation as_frames;
  _ ← assertTrue (isDefined frames) "frame list is undefined";
  frameList ← deref frames;
  let frameListLength := length frameList in
  _ ← assertTrue (0 <? frameListLength) "frame list has no entries";
  forUpTo frameListLength (fun i =>
    frame ← deref (frameList !! i);
    assertTrue (strictEquals256 (getProperty frame "length"))
      (numberToString i +:+ "th entry length in color array frame list != 256")).

(** The arrow function handed to [input.forEach] (server.ts 263-278): it
    returns [err] from its [catch], and [undefined] otherwise. *)
Definition verifyAnimationCallback (animation : option AnimationState)
  : Completion (option Error) :=
  try_catch (_ ← verifyAnimationChecks animation; Normal None)
            (fun err => Normal (Some err)).

(** What [verifyAnimationJson] hands back to its caller, who tests
    [passed !== true]. *)
Inductive Verdict : Type :=
  | VTrue
  | VError (e : Error).

(** [verifyAnimationJson] (server.ts 262-280) *)
Definition verifyAnimationJson (input : Payload) : Completion Verdict :=
  _ ← forEach verifyAnimationCallback input;
  Normal VTrue.

(** [ToUint8], applied by [new Uint8Array(frameArray)]: truncate, then
    reduce modulo 256. *)
Definition toUint8 (q : Q) : Z := (Z.quot (Qnum q) (Z.pos (Qden q))) mod 256.

(** [typeof value !== 'number' || value < 0 || value > 255] *)
Definition invalidChannel (value : option jsval) : bool :=
  match value with
  | Some (JNum q) => negb (Qle_bool 0 q) || negb (Qle_bool q 255)
  | _ => true
  end.

Definition channelNumber (value : option jsval) : Q :=
  match value with
  | Some (JNum q) => q
  | _ => 0%Q
  end.

(** [objectToArray] (server.ts 169-183) *)
Definition objectToArray (frameObject : FrameObject) : Completion (list Z) :=
  let arrayLength := length (keys frameObject) in
  _ ← assertTrue (arrayLength =? 256 * 3) "Invalid frame length. Expected 256*3.";
  frameArray ← mapM (fun key =>
      let value := getProperty frameObject key in
      if invalidChannel value
      then Throw (Err ("Invalid value at key " +:+ key
                       +:+ ". Expected a number between 0 and 255."))
      else Normal (channelNumber value))
    (keys frameObject);
  Normal (toUint8 <$> frameArray).

(** ** Identifiers *)

(** Modelled from the spec: the constant [FRAME_ID_LENGTH] of
    [./constants], which is not under src/; the spec gives 6 as the
    configured length. *)
Definition FRAME_ID_LENGTH : nat := 6.

Definition characters : string := "0123456789abcdef".

(** [characters[i]], appended to a string: [undefined] past the end. *)
Definition characterAt (i : nat) : string :=
  match String.get i characters with
  | Some c => String c ""
  | None => "undefined"
  end.

(** The source of randomness: [rnd k] is what
    [Math.floor(Math.random() * characters.length)] yields at the [k]-th
    draw of a request, reduced into [0 .. 15]. *)
Definition Random : Type := nat -> nat.

Fixpoint genFrameIDLoop (rnd : Random) (k n : nat) (result : string) : string :=
  match n with
  | 0 => result
  | S n' =>
      genFrameIDLoop rnd (S k) n'
        (result +:+ characterAt (rnd k mod String.length characters))
  end.

(** [genFrameID] (client utilities 218-226, the copy of the server's
    [./utils], which is not under src/).  [k] counts the draws made so far. *)
Definition genFrameID (rnd : Random) (k : nat) (length : nat) : Completion string :=
  if length <? 1 then Throw (Err "Length must be at least 1")
  else Normal (genFrameIDLoop rnd k length "").

(** ** Entities *)

(** [class Metadata] ([./Metadata], not under src/): the five constructor
    arguments in the order server.ts 229 passes them. *)
Record Metadata : Type := mkMetadata {
  md_animationID : option string;
  md_frameDuration : option Q;
  md_repeatCount : option Q;
  totalFrames : nat;
  frameOrder : list string
}.

Record Frame : Type := mkFrame {
  frameID : option string;
  fr_animationID : option string;
  data : list Z
}.

(** Modelled from the spec: the constructor of [class Frame] ([./Frame], not
    under src/): [data.length === 768] always; violated construction must
    fail. *)
Definition newFrame (frameID animationID : option string) (data : list Z)
  : Completion Frame :=
  if length data =? FRAME_PIXEL_COUNT * 3
  then Normal (mkFrame frameID animationID data)
  else Throw InvalidLength.

(** ** The persisted store *)

(** Modelled from the spec: the persisted store collaborator
    ([./db/metadataOperations], [./db/animationOperations] and
    [./db/connectToMongo] are not under src/), an opaque key-value store
    exposing [fetchMetadataArray() -> list<Metadata>],
    [replaceMetadataArray(list<Metadata>) -> void] (the metadata collection is
    replaced wholesale), [fetchFrame(frameID) -> bytes|null] and
    [insertFrame(animationID, frameID, bytes) -> void] (an upsert keyed by
    frameID). *)
Record Store : Type := mkStore {
  metadataArray : list Metadata;
  frameDocs : gmap (option string) (option string * list Z)
}.

(** The operations of the store; any of them may fail (reject) during a
    request, as [Faults] says. *)
Inductive DbOp : Type :=
  | OpConnect
  | OpFetchMetadataArray
  | OpReplaceMetadataArray
  | OpFetchFrame (frameID : option string)
  | OpInsertFrame (frameID : option string).

Definition Faults : Type := DbOp -> bool.

Definition noFaults : Faults := fun _ => false.

(** ** The process-wide state *)

(** [animationCache] is a [Set<Frame>] of object references: every
    [add(new Frame(...))] adds a new member and iteration follows insertion
    order, hence a list. *)
Record World : Type := mkWorld {
  animationCache : list Frame;
  metadataCache : list Metadata;
  db : Store
}.

(** Stateful code that may throw; the state survives an exception. *)
Definition M (A : Type) : Type := World -> Completion A * World.

#[global] Instance M_ret : MRet M := fun _ a w => (Normal a, w).
#[global] Instance M_bind : MBind M := fun _ _ k m w =>
  match m w with
  | (Normal a, w') => k a w'
  | (Throw e, w') => (Throw e, w')
  end.

Definition lift {A} (c : Completion A) : M A := fun w => (c, w).

Definition tryCatch {A} (body : M A) (handler : Error -> M A) : M A := fun w =>
  match body w with
  | (Normal a, w') => (Normal a, w')
  | (Throw e, w') => handler e w'
  end.

(** Runs [body] to completion and hands its outcome back as a value: the
    settled state of a promise. *)
Definition settle {A} (body : M A) : M (Completion A) := fun w =>
  let '(c, w') := body w in (Normal c, w').

Fixpoint forEachM {A} (body : A -> M unit) (l : list A) : M unit :=
  match l with
  | [] => mret tt
  | x :: rest => _ ← body x; forEachM body rest
  end.

Definition getAnimationCache : M (list Frame) := fun w => (Normal (animationCache w), w).
Definition getMetadataCache : M (list Metadata) := fun w => (Normal (metadataCache w), w).

Definition setAnimationCache (frames : list Frame) : M unit := fun w =>
  (Normal tt, mkWorld frames (metadataCache w) (db w)).
Definition setMetadataCache (metadata : list Metadata) : M unit := fun w =>
  (Normal tt, mkWorld (animationCache w) metadata (db w)).

(** [animationCache.add(frame)] *)
Definition addToAnimationCache (frame : Frame) : M unit := fun w =>
  (Normal tt, mkWorld (animationCache w ++ [frame]) (metadataCache w) (db w)).

(** A call of the store: it rejects when [faults] says so and runs on the
    store otherwise. *)
Definition dbOperation {A} (faults : Faults) (op : DbOp) (run : Store -> A * Store)
  : M A := fun w =>
  if faults op then (Throw DbError, w)
  else let '(a, store) := run (db w) in
       (Normal a, mkWorld (animationCache w) (metadataCache w) store).

Definition connectToMongo (faults : Faults) : M unit :=
  dbOperation faults OpConnect (fun store => (tt, store)).

Definition fetchMetadataArray (faults : Faults) : M (list Metadata) :=
  dbOperation faults OpFetchMetadataArray (fun store => (metadataArray store, store)).

Definition replaceMetadataArray (faults : Faults) (metadata : list Metadata) : M unit :=
  dbOperation faults OpReplaceMetadataArray
    (fun store => (tt, mkStore metadata (frameDocs store))).

Definition fetchFrame (faults : Faults) (frameID : option string) : M (option (list Z)) :=
  dbOperation faults (OpFetchFrame frameID)
    (fun store => (snd <$> frameDocs store !! frameID, store)).

Definition insertFrame (faults : Faults) (animationID frameID : option string)
    (frameData : list Z) : M unit :=
  dbOperation faults (OpInsertFrame frameID)
    (fun store =>
       (tt, mkStore (metadataArray store)
                    (<[frameID := (animationID, frameData)]> (frameDocs store)))).

(** ** Start-up *)

(** [./test/testData] is not under src/: [testMetadata] and the table
    [testAnimationData] are taken as given, the table as the function that
    yields the bytes of [testAnimationData[animationID][j]]. *)
Record TestData : Type := mkTestData {
  testMetadata : list Metadata;
  testAnimationData : option string -> nat -> list Z
}.

(** ['...' + s] for a string or [undefined] *)
Definition showString (s : option string) : string := default "undefined" s.

(** [for (let j = 0; j < currentMetadata.totalFrames; j++)] over every entry
    of [metadataCache] in turn (server.ts 47-56 and 62-72). *)
Definition forEachFrameSlot (body : Metadata -> nat -> M unit) : M unit :=
  cache ← getMetadataCache;
  forEachM (fun currentMetadata =>
              forEachM (body currentMetadata) (seq 0 (totalFrames currentMetadata)))
           cache.

(** The body of the seeding loop (server.ts 51-54). *)
Definition seedFrameSlot (faults : Faults) (test : TestData)
    (currentMetadata : Metadata) (j : nat) : M unit :=
  let frameData := testAnimationData test (md_animationID currentMetadata) j in
  let frameID := frameOrder currentMetadata !! j in
  insertFrame faults (md_animationID currentMetadata) frameID frameData.

(** The body of the loop that fills [animationCache] (server.ts 66-70). *)
Definition loadFrameSlot (faults : Faults) (currentMetadata : Metadata) (j : nat)
  : M unit :=
  let currentFrameID := frameOrder currentMetadata !! j in
  frameData ← fetchFrame faults currentFrameID;
  _ ← lift (assertTrue (isDefined frameData)
              ("Could not find animation for name: "
               +:+ showString (md_animationID currentMetadata)
               +:+ " and frame number: " +:+ numberToString j));
  (* past the assertion [frameData] is not [null] *)
  bytes ← lift (deref frameData);
  frame ← lift (newFrame currentFrameID (md_animationID currentMetadata) bytes);
  addToAnimationCache frame.

(** The first half of [connectToDbAndInitCache] (server.ts 30-59): connect,
    read the stored metadata into [metadataCache], seeding the store first
    when it holds none. *)
Definition initMetadataCache (faults : Faults) (test : TestData) : M unit :=
  _ ← connectToMongo faults;
  metadata ← fetchMetadataArray faults;
  if length metadata =? 0 then
    _ ← replaceMetadataArray faults (testMetadata test);
    inserted ← fetchMetadataArray faults;
    _ ← setMetadataCache inserted;
    forEachFrameSlot (seedFrameSlot faults test)
  else setMetadataCache metadata.

(** [connectToDbAndInitCache] (server.ts 29-75) *)
Definition connectToDbAndInitCache (faults : Faults) (test : TestData) : M unit :=
  _ ← initMetadataCache faults test;
  forEachFrameSlot (loadFrameSlot faults).

(** [pushAnimationCacheToMongo] (server.ts 78-89): a failed insert is logged
    and the sweep goes on. *)
Definition pushAnimationCacheToMongo (faults : Faults) : M unit :=
  cache ← getAnimationCache;
  forEachM (fun frame =>
              tryCatch (insertFrame faults (fr_animationID frame) (frameID frame) (data frame))
                       (fun _ => mret tt))
           cache.

(** ** Responses *)

(** A JSON document as far as the metadata exchange needs it: the array
    that [res.json(metadataCache)] serialises, an object with named
    properties, a string. *)
#[warnings="-register-all"] Inductive JsonDoc : Type :=
  | JsonMetadataArray (items : list Metadata)
  | JsonObject (props : list (string * JsonDoc))
  | JsonString (s : string).

Inductive Body : Type :=
  | Text (s : string)
  | Json (doc : JsonDoc)
  | Octets (bytes : list Z).

Record Response : Type := mkResponse {
  status : nat;
  body : Body
}.

(** [res.sendStatus(code)]: the body is the reason phrase. *)
Definition sendStatus (code : nat) : Response :=
  mkResponse code
    (Text (match code with
           | 200 => "OK"
           | 500 => "Internal Server Error"
           | 501 => "Not Implemented"
           | _ => numberToString code
           end)).

(** [res.json(doc)] *)
Definition sendJson (doc : JsonDoc) : Response := mkResponse 200 (Json doc).

(** ** Routes *)

(** [app.get('/metadata')] (server.ts 133-142).  An exception leaves the
    handler; the framework, not this code, answers it. *)
Definition getMetadata : M Response :=
  cache ← getMetadataCache;
  _ ← lift (forEach (fun metadata =>
              forEach (fun frameID =>
                         assertTrue (String.length frameID =? FRAME_ID_LENGTH)
                           ("Frame ID " +:+ frameID +:+ " is not the correct length"))
                      (frameOrder metadata))
            cache);
  mret (sendJson (JsonMetadataArray cache)).

(** [app.get('/frameData/:frameId')] (server.ts 145-167) *)
Definition getFrameData (faults : Faults) (frameId : string) : M Response :=
  if String.eqb frameId "" then mret (mkResponse 400 (Text "Frame ID is required."))
  else
    tryCatch
      (frame ← fetchFrame faults (Some frameId);
       match frame with
       | None => mret (mkResponse 404 (Text "Frame not found."))
       | Some bytes => mret (mkResponse 200 (Octets bytes))
       end)
      (fun _ => mret (mkResponse 500 (Text "Internal Server Error"))).

(** The inner loop of the POST handler (server.ts 221-228) over the frames of
    one animation; [k] counts the random draws made so far. *)
Fixpoint buildFrames (rnd : Random) (animationID : option string)
    (frames : list FrameObject) (k : nat)
  : Completion (list string * list Frame * nat) :=
  match frames with
  | [] => Normal ([], [], k)
  | frameObject :: rest =>
      frameArray ← objectToArray frameObject;
      frameID ← genFrameID rnd k FRAME_ID_LENGTH;
      frame ← newFrame (Some frameID) animationID frameArray;
      r ← buildFrames rnd animationID rest (k + FRAME_ID_LENGTH);
      let '(frameOrder, newAnimationData, k') := r in
      Normal (frameID :: frameOrder, frame :: newAnimationData, k')
  end.

(** The outer loop (server.ts 217-231): the new metadata array and the new
    frame set. *)
Fixpoint buildCaches (rnd : Random) (newAnimationState : Payload) (k : nat)
  : Completion (list Metadata * list Frame) :=
  match newAnimationState with
  | [] => Normal ([], [])
  | currentAnimation :: rest =>
      animationID ← property currentAnimation as_animationID;
      frames ← property currentAnimation as_frames;
      frameList ← deref frames;
      r ← buildFrames rnd animationID frameList k;
      let '(frameOrder, frameSet, k') := r in
      frameDuration ← property currentAnimation as_frameDuration;
      repeatCount ← property currentAnimation as_repeatCount;
      let current :=
        mkMetadata animationID frameDuration repeatCount (length frameList) frameOrder in
      r' ← buildCaches rnd rest k';
      let '(newMetadata, newAnimationData) := r' in
      Normal (current :: newMetadata, frameSet ++ newAnimationData)
  end.

(** The property reads of the four [console.log] lines on the first
    animation (server.ts 209-212). *)
Definition logFirstAnimation (newAnimationState : Payload) : Completion unit :=
  first ← deref (newAnimationState !! 0);
  _ ← property first as_animationID;
  _ ← property first as_frameDuration;
  _ ← property first as_repeatCount;
  frames ← property first as_frames;
  _ ← deref frames;
  Normal tt.

(** [app.post('/data')] (server.ts 195-247).  [Promise.all] starts both the
    metadata replacement and the frame sweep; the sweep never rejects, so the
    [catch] runs exactly when the replacement is rejected. *)
Definition postData (rnd : Random) (faults : Faults) (newAnimationState : Payload)
  : M Response :=
  passed ← lift (verifyAnimationJson newAnimationState);
  match passed with
  | VError _ => mret (sendStatus 500)
  | VTrue =>
      _ ← lift (logFirstAnimation newAnimationState);
      r ← lift (buildCaches rnd newAnimationState 0);
      let '(newMetadata, newAnimationData) := r in
      _ ← setMetadataCache newMetadata;
      _ ← setAnimationCache newAnimationData;
      current ← getMetadataCache;
      replaced ← settle (replaceMetadataArray faults current);
      _ ← pushAnimationCacheToMongo faults;
      match replaced with
      | Normal _ => mret (sendStatus 200)
      | Throw _ => mret (sendStatus 501)
      end
  end.

(** ** The client's metadata read *)

(** [fetchMetadataFromServer] (client utilities 142-152) applied to the
    response it received; the result is [data.metadata], [undefined] when
    [data] has no such property. *)
Definition fetchMetadataFromServer (response : Response) : Completion (option JsonDoc) :=
  if negb ((200 <=? status response) && (status response <=? 299))
  then Throw (Err ("HTTP error! status: " +:+ numberToString (status response)))
  else
    match body response with
    | Json (JsonObject props) => Normal (getProperty props "metadata")
    | Json _ => Normal None
    | _ => Throw SyntaxError
    end.

(** ** What the POST handler accepts and builds *)

(** The frames on which [objectToArray] returns: exactly [256 * 3] keys, the
    value under each a number between 0 and 255. *)
Definition frameAccepted (frameObject : FrameObject) : bool :=
  (length (keys frameObject) =? 256 * 3)
  && forallb (fun key => negb (invalidChannel (getProperty frameObject key)))
             (keys frameObject).

(** The bytes [objectToArray] returns for such a frame. *)
Definition frameBytes (frameObject : FrameObject) : list Z :=
  (fun key => toUint8 (channelNumber (getProperty frameObject key)))
    <$> keys frameObject.

(** The entries the two loops of the handler get through: an object (not
    [null]) whose [frames] is a list of accepted frames. *)
Definition animationAccepted (animation : option AnimationState) : bool :=
  match animation with
  | Some a =>
      match as_frames a with
      | Some frames => forallb frameAccepted frames
      | None => false
      end
  | None => false
  end.

(** The [n] identifiers that successive calls of [genFrameID(FRAME_ID_LENGTH)]
    return, the first of them starting at draw [k]. *)
Fixpoint generatedIDs (rnd : Random) (k n : nat) : list string :=
  match n with
  | 0 => []
  | S n' =>
      genFrameIDLoop rnd k FRAME_ID_LENGTH ""
      :: generatedIDs rnd (k + FRAME_ID_LENGTH) n'
  end.

(** The frames built for one animation from the identifiers [ids]. *)
Definition framesOf (animationID : option string) (ids : list string)
    (frames : list FrameObject) : list Frame :=
  zip_with (fun fid f => mkFrame (Some fid) animationID (frameBytes f)) ids frames.

(** What it means for [metadata] and [frames] to be the caches built from
    [payload] with identifiers drawn from draw [k] on: one metadata entry
    per animation, in order, carrying its three fields, the number of its
    frames and as many identifiers; under each identifier a frame of that
    animation with the bytes of the client's frame at the same position;
    the identifiers, read across the whole metadata array, are the
    generator's outputs in the order drawn, and so are those of the frames. *)
Definition BuiltFrom (rnd : Random) (k : nat) (payload : Payload)
    (metadata : list Metadata) (frames : list Frame) : Prop :=
  length metadata = length payload
  /\ (forall i a, payload !! i = Some (Some a) ->
      exists m clientFrames,
        metadata !! i = Some m
        /\ as_frames a = Some clientFrames
        /\ md_animationID m = as_animationID a
        /\ md_frameDuration m = as_frameDuration a
        /\ md_repeatCount m = as_repeatCount a
        /\ totalFrames m = length clientFrames
        /\ length (frameOrder m) = totalFrames m
        /\ (forall j fid, frameOrder m !! j = Some fid ->
            exists f bytes,
              clientFrames !! j = Some f
              /\ objectToArray f = Normal bytes
              /\ mkFrame (Some fid) (as_animationID a) bytes ∈ frames))
  /\ concat (frameOrder <$> metadata) = generatedIDs rnd k (length frames)
  /\ frameID <$> frames = Some <$> generatedIDs rnd k (length frames).

(** ** What start-up loads *)

(** The pairs (metadata entry, frame number) that the loops of
    [connectToDbAndInitCache] visit, in order: for each entry the numbers
    below its [totalFrames]. *)
Definition frameSlots (metadata : list Metadata) : list (Metadata * nat) :=
  m ← metadata; (fun j => (m, j)) <$> seq 0 (totalFrames m).

(** [currentMetadata.frameOrder[j]] *)
Definition slotFrameID (slot : Metadata * nat) : option string :=
  frameOrder slot.1 !! slot.2.

(** [frame] is the frame of [slot] as the store holds it. *)
Definition storedFrame (store : Store) (slot : Metadata * nat) (frame : Frame) : Prop :=
  frameID frame = slotFrameID slot
  /\ fr_animationID frame = md_animationID slot.1
  /\ snd <$> frameDocs store !! slotFrameID slot = Some (data frame).

(** ** The validation rules in the words of the specification *)

(** "each element must be an integer in [0,255]" *)
Definition specChannelValid (v : jsval) : bool :=
  match v with
  | JNum q => Qle_bool 0 q && Qle_bool q 255 && (Z.pos (Qden (Qred q)) =? 1)%Z
  | _ => false
  end.

(** "Every frame entry ... must have exactly 256 elements" *)
Definition specFrameValid (frameObject : FrameObject) : bool :=
  (length frameObject =? 256) && forallb (fun kv => specChannelValid kv.2) frameObject.

(** "Each animation entry must be non-null and define animationID,
    frameDuration, repeatCount, frames"; "frames must be non-empty". *)
Definition specAnimationValid (animation : option AnimationState) : bool :=
  match animation with
  | Some a =>
      isDefined (as_animationID a) && isDefined (as_frameDuration a)
      && isDefined (as_repeatCount a)
      && match as_frames a with
         | Some frames => (0 <? length frames) && forallb specFrameValid frames
         | None => false
         end
  | None => false
  end.

Definition specPayloadValid (payload : Payload) : bool :=
  forallb specAnimationValid payload.

(** ** Sample data *)

(** A frame object [{"0": v, "1": v, ..., "n-1": v}]. *)
Definition uniformFrame (n : nat) (v : Q) : FrameObject :=
  (fun i => (numberToString i, JNum v)) <$> seq 0 n.

Definition sampleAnimation (name : string) (frames : list FrameObject)
  : option AnimationState :=
  Some (mkAnimationState (Some name) (Some 100%Q) (Some 1%Q) (Some frames)).

Definition emptyWorld : World := mkWorld [] [] (mkStore [] ∅).

(** The generator whose [k]-th draw is [k] (reduced modulo 16), and the one
    that always draws 0. *)
Definition countingRandom (start : nat) : Random := fun k => start + k.
Definition constantRandom : Random := fun _ => 0.

(** A store whose metadata lists two frames of animation "a" and which
    holds the first of them only. *)
Definition storeMissingSecondFrame : Store :=
  mkStore [mkMetadata (Some "a") (Some 100%Q) (Some 1%Q) 2 ["aaaaaa"; "bbbbbb"]]
          {[ Some "aaaaaa" := (Some "a", replicate 768 5%Z) ]}.

(** The same store with [totalFrames] 1: the second frame is listed in
    [frameOrder] beyond [totalFrames]. *)
Definition storeShortTotalFrames : Store :=
  mkStore [mkMetadata (Some "a") (Some 100%Q) (Some 1%Q) 1 ["aaaaaa"; "bbbbbb"]]
          {[ Some "aaaaaa" := (Some "a", replicate 768 5%Z) ]}.

Definition noTestData : TestData := mkTestData [] (fun _ _ => []).

(** ** Further client utilities *)

(** JavaScript arrays whose entries are values of [V], [undef] being the
    value [undefined]: an entry read past the end is [undef], an entry
    written past the end extends the array with [undef]. *)
Section Arrays.
Context {V : Type} (undef : V).

(** [arr[i]] *)
Definition arrayGet (arr : list V) (i : nat) : V := default undef (arr !! i).

(** [arr[i] = v] *)
Definition arraySet (arr : list V) (i : nat) (v : V) : list V :=
  if i <? length arr then <[i := v]> arr
  else arr ++ replicate (i - length arr) undef ++ [v].

(** [Reorder] (client utilities 14-20), for indices counted from the start
    of the array.  [result.splice(startIndex, 1)] takes one entry out, none
    past the end, and [[removed]] of what it returns is that entry or
    [undefined]; [result.splice(endIndex, 0, removed)] puts it back in at
    [endIndex], at the end when [endIndex] is beyond it. *)
Definition Reorder (items : list V) (startIndex endIndex : nat) : list V :=
  let result := items in
  let removed := arrayGet result startIndex in
  let result := delete startIndex result in
  take endIndex result ++ removed :: drop endIndex result.

End Arrays.

Section Matrices.
Context {V : Type} (undef : V).

(** A matrix is an array of rows, and every row an array of its own that
    the matrix refers to: [matrix] lists the references of its rows and the
    heap says which array a reference stands for.  Two entries of [matrix]
    may hold one and the same reference. *)
Definition Heap : Type := nat -> list V.

(** Code that reads and writes the arrays of the heap and may throw; the
    heap survives an exception. *)
Definition HeapM (A : Type) : Type := Heap -> Completion A * Heap.

Definition bindH {A B} (m : HeapM A) (k : A -> HeapM B) : HeapM B := fun heap =>
  match m heap with
  | (Normal a, heap') => k a heap'
  | (Throw e, heap') => (Throw e, heap')
  end.

(** The heap in which [ref] stands for [arr]. *)
Definition heapSet (heap : Heap) (ref : nat) (arr : list V) : Heap :=
  fun r => if r =? ref then arr else heap r.

(** The rows of [matrix] as the heap has them. *)
Definition rowsOf (heap : Heap) (matrix : list nat) : list (list V) :=
  heap <$> matrix.

(** The entry at [row], [col] of a matrix given by its rows. *)
Definition cell (rows : list (list V)) (row col : nat) : V :=
  arrayGet undef (default [] (rows !! row)) col.

(** [matrix[row][col]]: a [TypeError] when [matrix[row]] is [undefined]. *)
Definition readCell (matrix : list nat) (row col : nat) : HeapM V := fun heap =>
  match matrix !! row with
  | Some ref => (Normal (arrayGet undef (heap ref) col), heap)
  | None => (Throw TypeError, heap)
  end.

(** [matrix[row][col] = v]: the write goes into the array that
    [matrix[row]] refers to, and shows in every row that is this array. *)
Definition writeCell (matrix : list nat) (row col : nat) (v : V) : HeapM unit :=
  fun heap =>
    match matrix !! row with
    | Some ref => (Normal tt, heapSet heap ref (arraySet undef (heap ref) col v))
    | None => (Throw TypeError, heap)
    end.

Fixpoint forEachH {A} (body : A -> HeapM unit) (l : list A) : HeapM unit :=
  match l with
  | [] => fun heap => (Normal tt, heap)
  | x :: rest => bindH (body x) (fun _ => forEachH body rest)
  end.

(** The body of the inner loop of [reverseEveryOtherCol] (client utilities
    102-104). *)
Definition swapInCol (matrix : list nat) (col row : nat) : HeapM unit :=
  bindH (readCell matrix row col) (fun temp =>
  bindH (readCell matrix (length matrix - row - 1) col) (fun other =>
  bindH (writeCell matrix row col other) (fun _ =>
  writeCell matrix (length matrix - row - 1) col temp))).

(** [reverseEveryOtherCol] (client utilities 98-109); it works in place and
    returns [matrix] itself.  [matrix[0].length] on an empty matrix is a
    [TypeError].  The array of row 0 is only ever written at a column below
    its length, so the bound of the outer loop stays what it was at the
    start; [row < matrix.length / 2] holds for the rows below
    [(length + 1) / 2]. *)
Definition reverseEveryOtherCol (matrix : list nat) : HeapM (list nat) := fun heap =>
  match matrix !! 0 with
  | None => (Throw TypeError, heap)
  | Some row0 =>
      bindH (forEachH (fun col =>
                         if col mod 2 =? 1
                         then forEachH (swapInCol matrix col)
                                       (seq 0 ((length matrix + 1) / 2))
                         else fun heap => (Normal tt, heap))
                      (seq 0 (length (heap row0))))
            (fun _ heap => (Normal matrix, heap))
            heap
  end.

(** Rows that make a matrix of [n] rows of [w] entries each. *)
Definition Rect (n w : nat) (rows : list (list V)) : Prop :=
  length rows = n /\ Forall (fun r => length r = w) rows.

End Matrices.


(** Whether every character of [s] is one of [characters]. *)
Definition isHexString (s : string) : bool :=
  forallb (fun c => existsb (Ascii.eqb c) (String.list_ascii_of_string characters))
          (String.list_ascii_of_string s).

(** The entries of a [Uint8Array]: integers from 0 to 255. *)
Definition isByte (z : Z) : Prop := (0 <= z < 256)%Z.

(** [parseFrameData] (client utilities 176-183): one pixel for every
    [i = 0, 3, 6, ...] below the length. *)
Definition parseFrameData {A} (frameData : list A) : list (Pixel A) :=
  (fun k => pixelAt frameData (3 * k)) <$> seq 0 ((length frameData + 2) / 3).

(** [x.toString(16)] for an integer [x]. *)
Definition toString16 (x : Z) : string :=
  HexadecimalString.NilZero.string_of_int (Z.to_hex_int x).

(** [s.padStart(2, '0')] *)
Definition padStart2 (s : string) : string :=
  match String.length s with
  | 0 => "00"
  | 1 => "0" +:+ s
  | _ => s
  end.

(** [rgbToHex] (client utilities 204-206) *)
Definition rgbToHex (r g b : Z) : string :=
  "#" +:+ padStart2 (toString16 r) +:+ padStart2 (toString16 g)
      +:+ padStart2 (toString16 b).

(** [convertUint8ArrayToHexColorArray] (client utilities 185-202); a
    channel read past the end would be [undefined], whose [toString] is a
    [TypeError]. *)
Definition convertUint8ArrayToHexColorArray (uint8Array : list Z)
  : Completion (list string) :=
  if negb (length uint8Array mod 3 =? 0)
  then Throw (Err "The length of the Uint8Array should be a multiple of 3.")
  else
    mapM (fun k =>
            r ← deref (uint8Array !! (3 * k));
            g ← deref (uint8Array !! (3 * k + 1));
            b ← deref (uint8Array !! (3 * k + 2));
            Normal (rgbToHex r g b))
         (seq 0 ((length uint8Array + 2) / 3)).

(** An entry of the array handed to [new Uint8Array(...)]: [undefined]
    becomes 0. *)
Definition entryToUint8 (v : option Z) : Z :=
  match v with
  | Some z => (z mod 256)%Z
  | None => 0%Z
  end.

(** [getRGBArray] (client utilities 272-284) on [imageData.data].
    [data.length / 4] is a real division, equal to 256 exactly when the
    length is 1024. *)
Definition getRGBArray (data : list Z) : Completion (list Z) :=
  _ ← assertTrue (length data =? 4 * FRAME_PIXEL_COUNT)
        "Unexpected data size in uploadImage";
  let result :=
    k ← seq 0 ((length data + 3) / 4);
    [data !! (4 * k); data !! (4 * k + 1); data !! (4 * k + 2)] in
  _ ← assertTrue (length result =? FRAME_PIXEL_COUNT * 3)
        "Unexpected array size in uploadImage";
  Normal (entryToUint8 <$> result).

(** [fetchFrameDataFromServer] (client utilities 158-173) applied to the
    response it received.  The [Content-Type] is
    [application/octet-stream] exactly for the body the frame handler sends
    (server.ts 160); the framework labels text and JSON otherwise. *)
Definition fetchFrameDataFromServer (response : Response) : Completion (list Z) :=
  if negb ((200 <=? status response) && (status response <=? 299))
  then Throw (Err ("HTTP error! status: " +:+ numberToString (status response)))
  else match body response with
       | Octets bytes => Normal bytes
       | _ => Throw (Err "Unexpected content type")
       end.

(** ** What the loops leave behind *)

(** The frame documents after [pushAnimationCacheToMongo] has gone over
    [frames]: every frame whose insert is not rejected is stored under its
    frameID, a later frame replacing an earlier one of the same frameID. *)
Definition sweptDocs (faults : Faults) (frames : list Frame)
    (docs : gmap (option string) (option string * list Z))
  : gmap (option string) (option string * list Z) :=
  foldl (fun docs frame =>
           if faults (OpInsertFrame (frameID frame)) then docs
           else <[frameID frame := (fr_animationID frame, data frame)]> docs)
        docs frames.

(** The frame that start-up builds for [slot] from the bytes the store
    holds under the frameID of the slot. *)
Definition loadedFrame (store : Store) (slot : Metadata * nat) : Frame :=
  mkFrame (slotFrameID slot) (md_animationID slot.1)
          (default [] (snd <$> frameDocs store !! slotFrameID slot)).

(** The frame that the seeding loop stores for [slot]: the test bytes of
    the slot under its frameID. *)
Definition seedFrame (test : TestData) (slot : Metadata * nat) : Frame :=
  mkFrame (slotFrameID slot) (md_animationID slot.1)
          (testAnimationData test (md_animationID slot.1) slot.2).

(** Whether the loading loop of start-up gets through [slot]: the fetch is
    not rejected, the store holds a frame under the frameID of the slot and
    the [Frame] constructor accepts its bytes. *)
Definition slotLoads (faults : Faults) (store : Store) (slot : Metadata * nat) : bool :=
  negb (faults (OpFetchFrame (slotFrameID slot)))
  && match frameDocs store !! slotFrameID slot with
     | Some (_, bytes) => length bytes =? FRAME_PIXEL_COUNT * 3
     | None => false
     end.

(** What the loading loop throws at a slot it does not get through. *)
Definition slotError (faults : Faults) (store : Store) (slot : Metadata * nat) : Error :=
  if faults (OpFetchFrame (slotFrameID slot)) then DbError
  else match frameDocs store !! slotFrameID slot with
       | None =>
           Err ("Could not find animation for name: "
                +:+ showString (md_animationID slot.1)
                +:+ " and frame number: " +:+ numberToString slot.2)
       | Some _ => InvalidLength
       end.

(** The number of frames of a payload, which is the number of calls of
    [genFrameID] that the loops of the POST handler make on it. *)
Definition frameCount (payload : Payload) : nat :=
  sum_list ((fun animation =>
               match animation with
               | Some a => length (default [] (as_frames a))
               | None => 0
               end) <$> payload).

(** A heap of three arrays of two entries, every reference from 2 on
    standing for the third. *)
Definition sampleHeap : nat -> list nat := fun ref =>
  match ref with
  | 0 => [1; 2]
  | 1 => [3; 4]
  | _ => [5; 6]
  end.

(** * Properties *)

Section Grid.
Context {A : Type}.
Implicit Types arr : list A.

Lemma pixels_from arr n : forall s,
  3 * (s + n) <= length arr ->
  concat (map (fun k => flattenPixel (pixelAt arr (3 * k))) (seq s n))
  = map Some (take (3 * n) (drop (3 * s) arr)).
Proof.
  induction n as [|n IH]; intros s Hlen.
  - reflexivity.
  - cbn [seq map concat].
    rewrite (IH (S s)) by lia.
    destruct (lookup_lt_is_Some_2 arr (3 * s) ltac:(lia)) as [a Ha].
    destruct (lookup_lt_is_Some_2 arr (3 * s + 1) ltac:(lia)) as [b Hb].
    destruct (lookup_lt_is_Some_2 arr (3 * s + 2) ltac:(lia)) as [c Hc].
    unfold pixelAt, flattenPixel. rewrite Ha, Hb, Hc.
    rewrite (drop_S arr a (3 * s) Ha).
    replace (S (3 * s)) with (3 * s + 1) by lia.
    rewrite (drop_S arr b (3 * s + 1) Hb).
    replace (S (3 * s + 1)) with (3 * s + 2) by lia.
    rewrite (drop_S arr c (3 * s + 2) Hc).
    replace (S (3 * s + 2)) with (3 * S s) by lia.
    replace (3 * S n) with (S (S (S (3 * n)))) by lia.
    reflexivity.
Qed.

Lemma grid_rows arr :
  flattenGrid
    (map (fun i =>
            map (fun j => pixelAt arr (3 * (i * IMAGE_PIXEL_LENGTH + j)))
                (seq 0 IMAGE_PIXEL_LENGTH))
         (seq 0 IMAGE_PIXEL_LENGTH))
  = concat (map (fun k => flattenPixel (pixelAt arr (3 * k)))
                (seq 0 FRAME_PIXEL_COUNT)).
Proof. vm_compute. reflexivity. Qed.

Lemma get2Darray_cell arr row col :
  row < IMAGE_PIXEL_LENGTH -> col < IMAGE_PIXEL_LENGTH ->
  (map (fun i =>
          map (fun j => pixelAt arr (3 * (i * IMAGE_PIXEL_LENGTH + j)))
              (seq 0 IMAGE_PIXEL_LENGTH))
       (seq 0 IMAGE_PIXEL_LENGTH)) !! row
  = Some (map (fun j => pixelAt arr (3 * (row * IMAGE_PIXEL_LENGTH + j)))
              (seq 0 IMAGE_PIXEL_LENGTH))
  /\ (map (fun j => pixelAt arr (3 * (row * IMAGE_PIXEL_LENGTH + j)))
          (seq 0 IMAGE_PIXEL_LENGTH)) !! col
     = Some (pixelAt arr (3 * (row * IMAGE_PIXEL_LENGTH + col))).
Proof.
  intros Hrow Hcol. split.
  - change (map ?f ?l) with (f <$> l).
    rewrite list_lookup_fmap, lookup_seq_lt by exact Hrow. reflexivity.
  - change (map ?f ?l) with (f <$> l).
    rewrite list_lookup_fmap, lookup_seq_lt by exact Hcol. reflexivity.
Qed.

(** C9: on a buffer of exactly 768 entries [get2Darray] returns a 16 x 16
    grid whose cell [row][col] is the triplet found at flat index
    [3 * (row * 16 + col)], every channel of it defined, and flattening that
    grid row by row gives the buffer back; on any other length it throws. *)
Theorem get2Darray_grid_roundtrip (arr : list A) :
  (length arr = 768 ->
   exists grid,
     get2Darray arr = Normal grid
     /\ length grid = 16
     /\ (forall row col, row < 16 -> col < 16 ->
         exists cells r g b,
           grid !! row = Some cells /\ length cells = 16
           /\ cells !! col = Some (Some r, Some g, Some b)
           /\ arr !! (3 * (row * 16 + col)) = Some r
           /\ arr !! (3 * (row * 16 + col) + 1) = Some g
           /\ arr !! (3 * (row * 16 + col) + 2) = Some b)
     /\ flattenGrid grid = Some <$> arr)
  /\ (length arr <> 768 ->
      get2Darray arr = Throw (Err "Array length needs to be 256*3")).
Proof.
  split.
  - intros Hlen. unfold get2Darray.
    replace (length arr =? FRAME_PIXEL_COUNT * 3) with true
      by (symmetry; apply Nat.eqb_eq; rewrite Hlen; reflexivity).
    cbn [assertTrue mbind Completion_bind].
    eexists. split; [reflexivity|]. split; [reflexivity|]. split.
    + intros row col Hrow Hcol.
      destruct (get2Darray_cell arr row col Hrow Hcol) as [Hr Hc].
      assert (Hi : 3 * (row * 16 + col) + 2 < length arr) by lia.
      destruct (lookup_lt_is_Some_2 arr (3 * (row * 16 + col)) ltac:(lia)) as [r Har].
      destruct (lookup_lt_is_Some_2 arr (3 * (row * 16 + col) + 1) ltac:(lia)) as [g Hag].
      destruct (lookup_lt_is_Some_2 arr (3 * (row * 16 + col) + 2) Hi) as [b Hab].
      eexists _, r, g, b. split; [exact Hr|]. split; [reflexivity|].
      split; [|auto].
      refine (eq_trans Hc _).
      unfold pixelAt, IMAGE_PIXEL_LENGTH. rewrite Har, Hag, Hab.
      reflexivity.
    + rewrite grid_rows, pixels_from by (rewrite Hlen; reflexivity).
      change (3 * 0) with 0. rewrite drop_0.
      rewrite take_ge by (rewrite Hlen; reflexivity).
      reflexivity.
  - intros Hlen. unfold get2Darray.
    replace (length arr =? FRAME_PIXEL_COUNT * 3) with false
      by (symmetry; apply Nat.eqb_neq; exact Hlen).
    reflexivity.
Qed.

End Grid.

Lemma get2Darray_grid_roundtrip_witness :
  (exists grid,
     get2Darray (replicate 768 0%Z) = Normal grid
     /\ length grid = 16
     /\ (forall row col, row < 16 -> col < 16 ->
         exists cells r g b,
           grid !! row = Some cells /\ length cells = 16
           /\ cells !! col = Some (Some r, Some g, Some b)
           /\ replicate 768 0%Z !! (3 * (row * 16 + col)) = Some r
           /\ replicate 768 0%Z !! (3 * (row * 16 + col) + 1) = Some g
           /\ replicate 768 0%Z !! (3 * (row * 16 + col) + 2) = Some b)
     /\ flattenGrid grid = Some <$> replicate 768 0%Z)
  /\ get2Darray [1%Z; 2%Z; 3%Z] = Throw (Err "Array length needs to be 256*3").
Proof.
  split.
  - apply (proj1 (get2Darray_grid_roundtrip (replicate 768 0%Z))). reflexivity.
  - apply (proj2 (get2Darray_grid_roundtrip [1%Z; 2%Z; 3%Z])). simpl. lia.
Defined.

(** ** The payload check *)

Lemma verifyAnimationCallback_returns animation :
  exists r, verifyAnimationCallback animation = Normal r.
Proof.
  unfold verifyAnimationCallback.
  destruct (verifyAnimationChecks animation) as [[]|e]; cbn; eauto.
Qed.

Lemma forEach_returns {A B} (callback : A -> Completion B) (l : list A) :
  (forall x, exists r, callback x = Normal r) -> forEach callback l = Normal tt.
Proof.
  intros Hcb. induction l as [|x l IH]; cbn; [reflexivity|].
  destruct (Hcb x) as [r ->]. exact IH.
Qed.

Lemma verifyAnimationJson_Normal input : verifyAnimationJson input = Normal VTrue.
Proof.
  unfold verifyAnimationJson.
  rewrite (forEach_returns _ _ verifyAnimationCallback_returns).
  reflexivity.
Qed.

(** C10: whatever the entries of the input array are, [verifyAnimationJson]
    returns [true]; the error caught for an entry is returned from the
    [forEach] callback only and never reaches the caller. *)
Theorem verifyAnimationJson_returns_true (input : Payload) :
  verifyAnimationJson input = Normal VTrue.
Proof.
  unfold verifyAnimationJson.
  induction input as [|animation input IH]; [reflexivity|].
  cbn [forEach].
  destruct (verifyAnimationCallback_returns animation) as [r ->].
  exact IH.
Qed.

(** The checks themselves work: each kind of malformed entry is caught. *)
Example verifyAnimationCallback_catches :
  verifyAnimationCallback None = Normal (Some (Err "given var is null"))
  /\ verifyAnimationCallback (Some (mkAnimationState None None None None))
     = Normal (Some (Err "name is undefined"))
  /\ verifyAnimationCallback (sampleAnimation "a" [uniformFrame 255 7])
     = Normal (Some (Err "0th entry length in color array frame list != 256"))
  /\ verifyAnimationCallback (sampleAnimation "a" [[("length", JNum 256)]])
     = Normal None.
Proof. vm_compute. repeat split; reflexivity. Qed.

Example objectToArray_samples :
  objectToArray (uniformFrame 768 7) = Normal (replicate 768 7%Z)
  /\ objectToArray (uniformFrame 768 (509 # 2)) = Normal (replicate 768 254%Z)
  /\ objectToArray (uniformFrame 255 7)
     = Throw (Err "Invalid frame length. Expected 256*3.")
  /\ objectToArray (uniformFrame 768 256)
     = Throw (Err "Invalid value at key 0. Expected a number between 0 and 255.")
  /\ objectToArray ((fun i => (numberToString i, JStr "7")) <$> seq 0 768)
     = Throw (Err "Invalid value at key 0. Expected a number between 0 and 255.").
Proof. vm_compute. repeat split; reflexivity. Qed.

Example genFrameID_samples :
  genFrameID (countingRandom 10) 0 6 = Normal "abcdef"
  /\ genFrameID (countingRandom 0) 6 6 = Normal "6789ab"
  /\ genFrameID constantRandom 0 0 = Throw (Err "Length must be at least 1").
Proof. vm_compute. repeat split; reflexivity. Qed.

(** ** Reads *)

Lemma world_eta w : mkWorld (animationCache w) (metadataCache w) (db w) = w.
Proof. destruct w; reflexivity. Qed.

Lemma store_eta store : mkStore (metadataArray store) (frameDocs store) = store.
Proof. destruct store; reflexivity. Qed.

(** Unfolds the plumbing of [M] down to the [match] on each step. *)
Ltac run_M :=
  unfold getMetadataCache, getAnimationCache, setMetadataCache,
    setAnimationCache, addToAnimationCache, lift, settle, tryCatch;
  unfold mbind, M_bind, mret, M_ret; cbn.

(** C5: whatever the caches hold, the metadata read either throws (a cached
    frameID of the wrong length) or answers with the bare metadata array; it
    never answers with an object carrying a [metadata] property, and the
    client's decoder, reading [.metadata] of the bare array, gets
    [undefined]. *)
Theorem getMetadata_sends_bare_array (w : World) :
  ((getMetadata w).1 = Normal (sendJson (JsonMetadataArray (metadataCache w)))
   \/ exists e, (getMetadata w).1 = Throw e)
  /\ (forall items,
        (getMetadata w).1
        <> Normal (sendJson (JsonObject [("metadata", JsonMetadataArray items)])))
  /\ fetchMetadataFromServer (sendJson (JsonMetadataArray (metadataCache w)))
     = Normal None.
Proof.
  assert (H : (getMetadata w).1 = Normal (sendJson (JsonMetadataArray (metadataCache w)))
              \/ exists e, (getMetadata w).1 = Throw e).
  { unfold getMetadata. run_M.
    match goal with |- context [forEach ?f ?l] => destruct (forEach f l) end;
      cbn; eauto. }
  split; [exact H|]. split; [|reflexivity].
  intros items Heq. destruct H as [H|[e H]]; rewrite H in Heq; discriminate.
Qed.

(** C4 (as amended): a frame read is answered from the persisted store and
    never from [animationCache]: 400 for an empty identifier, 500 when the
    store fails, 200 with the stored bytes when the store holds the
    frameID, 404 otherwise; the caches play no part and nothing changes. *)
Theorem getFrameData_reads_store (faults : Faults) (frameId : string) (w : World) :
  getFrameData faults frameId w
  = (Normal
       (if String.eqb frameId "" then mkResponse 400 (Text "Frame ID is required.")
        else if faults (OpFetchFrame (Some frameId))
             then mkResponse 500 (Text "Internal Server Error")
             else match frameDocs (db w) !! Some frameId with
                  | Some (_, bytes) => mkResponse 200 (Octets bytes)
                  | None => mkResponse 404 (Text "Frame not found.")
                  end),
     w)
  /\ (forall frames metadata,
        (getFrameData faults frameId (mkWorld frames metadata (db w))).1
        = (getFrameData faults frameId w).1).
Proof.
  assert (H : forall w', getFrameData faults frameId w'
    = (Normal
       (if String.eqb frameId "" then mkResponse 400 (Text "Frame ID is required.")
        else if faults (OpFetchFrame (Some frameId))
             then mkResponse 500 (Text "Internal Server Error")
             else match frameDocs (db w') !! Some frameId with
                  | Some (_, bytes) => mkResponse 200 (Octets bytes)
                  | None => mkResponse 404 (Text "Frame not found.")
                  end),
     w')).
  { intros w'. unfold getFrameData.
    destruct (String.eqb frameId ""); [reflexivity|].
    unfold fetchFrame, dbOperation. run_M.
    destruct (faults (OpFetchFrame (Some frameId))); [reflexivity|].
    cbn. rewrite world_eta.
    destruct (frameDocs (db w') !! Some frameId) as [[a bytes]|]; reflexivity. }
  split; [apply H|].
  intros frames metadata. rewrite !H. reflexivity.
Qed.

(** C4 (counterexample): after two successive accepted replacements the
    frame ["012345"] of the first one is no longer in [animationCache], yet
    reading it is answered 200 with its bytes, because the store still holds
    it. *)
Lemma getFrameData_serves_frame_absent_from_cache :
  let w1 := (postData (countingRandom 0) noFaults
               [sampleAnimation "a" [uniformFrame 768 7]] emptyWorld).2 in
  let w2 := (postData (countingRandom 6) noFaults
               [sampleAnimation "b" [uniformFrame 768 9]] w1).2 in
  frameID <$> animationCache w1 = [Some "012345"]
  /\ frameID <$> animationCache w2 = [Some "6789ab"]
  /\ (getFrameData noFaults "012345" w2).1
     = Normal (mkResponse 200 (Octets (replicate 768 7%Z))).
Proof. vm_compute. repeat split; reflexivity. Qed.

(** ** Building the new caches *)

Lemma mapM_Normal {A B} (f : A -> Completion B) (g : A -> B) (l : list A) :
  Forall (fun x => f x = Normal (g x)) l -> mapM f l = Normal (g <$> l).
Proof.
  induction 1 as [|x l Hx _ IH]; [reflexivity|].
  cbn. rewrite Hx. cbn. rewrite IH. reflexivity.
Qed.

Lemma mapM_Throw {A B} (f : A -> Completion B) (l : list A) :
  Exists (fun x => exists e, f x = Throw e) l -> exists e, mapM f l = Throw e.
Proof.
  induction 1 as [x l [e Hx]|x l _ [e IH]]; cbn.
  - rewrite Hx. eauto.
  - destruct (f x); cbn; [rewrite IH|]; eauto.
Qed.

Lemma length_frameBytes frameObject :
  length (frameBytes frameObject) = length (keys frameObject).
Proof. unfold frameBytes. apply length_fmap. Qed.

Lemma objectToArray_accepted frameObject :
  frameAccepted frameObject = true ->
  objectToArray frameObject = Normal (frameBytes frameObject).
Proof.
  unfold frameAccepted, objectToArray. intros [Hlen Hall]%andb_prop.
  rewrite Hlen. cbn [assertTrue mbind Completion_bind].
  rewrite (mapM_Normal _ (fun key => channelNumber (getProperty frameObject key))).
  - cbn. unfold frameBytes. rewrite <- list_fmap_compose. reflexivity.
  - rewrite forallb_forall in Hall. apply Forall_forall. intros key Hkey.
    specialize (Hall key (proj1 (list_elem_of_In _ _) Hkey)).
    destruct (invalidChannel (getProperty frameObject key)); [discriminate|reflexivity].
Qed.

Lemma objectToArray_rejected frameObject :
  frameAccepted frameObject = false ->
  exists e, objectToArray frameObject = Throw e.
Proof.
  unfold frameAccepted, objectToArray. intros H.
  destruct (length (keys frameObject) =? 256 * 3); cbn in *; [|eauto].
  match goal with |- context [mapM ?f ?l] => destruct (mapM_Throw f l) as [e He] end.
  - apply Exists_exists.
    assert (Hex : existsb (fun key => invalidChannel (getProperty frameObject key))
                          (keys frameObject) = true).
    { clear -H. induction (keys frameObject) as [|key l IH]; [discriminate|].
      cbn in *. destruct (invalidChannel (getProperty frameObject key)); cbn in *; auto. }
    apply existsb_exists in Hex as (key & Hin & Hkey).
    exists key. split; [apply list_elem_of_In; exact Hin|].
    rewrite Hkey. eauto.
  - rewrite He. eauto.
Qed.

Lemma buildFrames_accepted rnd animationID frames : forall k,
  forallb frameAccepted frames = true ->
  buildFrames rnd animationID frames k
  = Normal (generatedIDs rnd k (length frames),
            framesOf animationID (generatedIDs rnd k (length frames)) frames,
            k + FRAME_ID_LENGTH * length frames).
Proof.
  induction frames as [|f frames IH]; intros k Hall.
  - cbn. f_equal. f_equal. unfold FRAME_ID_LENGTH. lia.
  - cbn in Hall. apply andb_prop in Hall as [Hf Hall].
    cbn [buildFrames]. rewrite (objectToArray_accepted f Hf).
    cbn [mbind Completion_bind]. unfold genFrameID.
    change (FRAME_ID_LENGTH <? 1) with false. cbn [mbind Completion_bind].
    unfold newFrame. rewrite length_frameBytes.
    apply andb_prop in Hf as [Hlen _]. apply Nat.eqb_eq in Hlen. rewrite Hlen.
    change (256 * 3 =? FRAME_PIXEL_COUNT * 3) with true.
    cbn [mbind Completion_bind]. rewrite (IH _ Hall).
    cbn [mbind Completion_bind length generatedIDs framesOf zip_with].
    f_equal. f_equal. unfold FRAME_ID_LENGTH. lia.
Qed.

Lemma buildFrames_rejected rnd animationID frames : forall k,
  forallb frameAccepted frames = false ->
  exists e, buildFrames rnd animationID frames k = Throw e.
Proof.
  induction frames as [|f frames IH]; intros k Hall; [discriminate|].
  cbn in Hall. cbn [buildFrames].
  destruct (frameAccepted f) eqn:Hf.
  - destruct (IH (k + FRAME_ID_LENGTH) Hall) as [e He].
    rewrite (objectToArray_accepted f Hf).
    cbn [mbind Completion_bind]. unfold genFrameID.
    change (FRAME_ID_LENGTH <? 1) with false. cbn [mbind Completion_bind].
    destruct (newFrame _ _ _); cbn [mbind Completion_bind]; [|eauto].
    rewrite He. eauto.
  - destruct (objectToArray_rejected f Hf) as [e ->]. eauto.
Qed.

Lemma buildCaches_cons rnd a frames rest k :
  as_frames a = Some frames ->
  forallb frameAccepted frames = true ->
  buildCaches rnd (Some a :: rest) k
  = (r ← buildCaches rnd rest (k + FRAME_ID_LENGTH * length frames);
     Normal (mkMetadata (as_animationID a) (as_frameDuration a) (as_repeatCount a)
               (length frames) (generatedIDs rnd k (length frames)) :: r.1,
             framesOf (as_animationID a) (generatedIDs rnd k (length frames)) frames
             ++ r.2)).
Proof.
  intros Hfs Hall. cbn [buildCaches]. unfold property, deref.
  cbn [mbind Completion_bind]. rewrite Hfs. cbn [mbind Completion_bind].
  rewrite (buildFrames_accepted _ _ _ _ Hall). cbn [mbind Completion_bind].
  destruct (buildCaches rnd rest _) as [[md fr]|e]; reflexivity.
Qed.

Lemma buildCaches_rejected rnd payload : forall k,
  forallb animationAccepted payload = false ->
  exists e, buildCaches rnd payload k = Throw e.
Proof.
  induction payload as [|entry rest IH]; intros k Hall; [discriminate|].
  cbn in Hall. destruct (animationAccepted entry) eqn:Hentry.
  - destruct entry as [a|]; [|discriminate]. cbn in Hentry.
    destruct (as_frames a) as [frames|] eqn:Hfs; [|discriminate].
    rewrite (buildCaches_cons _ _ _ _ _ Hfs Hentry).
    destruct (IH (k + FRAME_ID_LENGTH * length frames) Hall) as [e ->]. eauto.
  - destruct entry as [a|]; [|cbn; eauto].
    cbn in Hentry. cbn [buildCaches]. unfold property, deref.
    cbn [mbind Completion_bind].
    destruct (as_frames a) as [frames|]; cbn [mbind Completion_bind]; [|eauto].
    destruct (buildFrames_rejected rnd (as_animationID a) frames k Hentry) as [e ->].
    eauto.
Qed.

Lemma length_generatedIDs rnd n : forall k, length (generatedIDs rnd k n) = n.
Proof. induction n as [|n IH]; intros k; cbn; [reflexivity|]. rewrite IH. reflexivity. Qed.

Lemma generatedIDs_app rnd n m : forall k,
  generatedIDs rnd k (n + m)
  = generatedIDs rnd k n ++ generatedIDs rnd (k + FRAME_ID_LENGTH * n) m.
Proof.
  induction n as [|n IH]; intros k; cbn [generatedIDs Nat.add app].
  - f_equal. unfold FRAME_ID_LENGTH. lia.
  - rewrite IH. do 3 f_equal. unfold FRAME_ID_LENGTH. lia.
Qed.

Lemma length_framesOf animationID ids frames :
  length ids = length frames ->
  length (framesOf animationID ids frames) = length frames.
Proof. intros H. unfold framesOf. rewrite length_zip_with. lia. Qed.

Lemma frameID_framesOf animationID frames : forall ids,
  length ids = length frames ->
  frameID <$> framesOf animationID ids frames = Some <$> ids.
Proof.
  induction frames as [|f frames IH]; intros [|fid ids] Hlen; try discriminate.
  - reflexivity.
  - cbn. f_equal. apply IH. cbn in Hlen. lia.
Qed.

Lemma forallb_lookup {A} (p : A -> bool) (l : list A) i x :
  forallb p l = true -> l !! i = Some x -> p x = true.
Proof.
  intros Hall Hx. rewrite forallb_forall in Hall. apply Hall.
  apply list_elem_of_In. apply list_elem_of_lookup. eauto.
Qed.

Lemma buildCaches_accepted rnd payload : forall k,
  forallb animationAccepted payload = true ->
  exists metadata frames,
    buildCaches rnd payload k = Normal (metadata, frames)
    /\ BuiltFrom rnd k payload metadata frames.
Proof.
  induction payload as [|entry rest IH]; intros k Hall.
  - exists [], []. split; [reflexivity|].
    split; [reflexivity|]. split; [|split; reflexivity].
    intros i a Hi. destruct i; discriminate Hi.
  - cbn in Hall. apply andb_prop in Hall as [Hentry Hall].
    destruct entry as [a|]; [|discriminate]. cbn in Hentry.
    destruct (as_frames a) as [clientFrames|] eqn:Hfs; [|discriminate].
    destruct (IH (k + FRAME_ID_LENGTH * length clientFrames) Hall)
      as (md & fr & Hbuild & Hlen & Hentries & Hids & Hfids).
    set (ids := generatedIDs rnd k (length clientFrames)).
    assert (Hlids : length ids = length clientFrames) by apply length_generatedIDs.
    eexists _, _. split.
    { rewrite (buildCaches_cons _ _ _ _ _ Hfs Hentry), Hbuild. reflexivity. }
    cbn [fst snd]. fold ids.
    assert (Htotal : length (framesOf (as_animationID a) ids clientFrames ++ fr)
                     = length clientFrames + length fr).
    { rewrite length_app, length_framesOf by exact Hlids. reflexivity. }
    split; [cbn; congruence|]. split; [|split].
    + intros [|i] a' Hi.
      * cbn in Hi. injection Hi as <-.
        eexists _, clientFrames. split; [reflexivity|]. split; [exact Hfs|].
        cbn. repeat split; [exact Hlids|].
        intros j fid Hj.
        destruct (lookup_lt_is_Some_2 clientFrames j) as [f Hf].
        { rewrite <- Hlids. eapply lookup_lt_Some; exact Hj. }
        exists f, (frameBytes f). split; [exact Hf|]. split.
        { apply objectToArray_accepted. eapply forallb_lookup; eauto. }
        apply elem_of_app. left. apply list_elem_of_lookup. exists j.
        unfold framesOf. rewrite lookup_zip_with, Hj. cbn. rewrite Hf. reflexivity.
      * cbn in Hi. destruct (Hentries i a' Hi)
          as (m & cf & Hm & Hcf & H1 & H2 & H3 & H4 & H5 & Hframes).
        exists m, cf. split; [exact Hm|]. repeat (split; [assumption|]).
        intros j fid Hj. destruct (Hframes j fid Hj) as (f & bytes & Hf & Hb & Hin).
        exists f, bytes. repeat (split; [assumption|]).
        apply elem_of_app. right. exact Hin.
    + cbn. rewrite Hids, Htotal. fold ids. unfold ids.
      symmetry. apply generatedIDs_app.
    + rewrite fmap_app, frameID_framesOf, Hfids, Htotal by exact Hlids.
      unfold ids. rewrite generatedIDs_app, fmap_app. reflexivity.
Qed.

(** ** The POST handler *)

Lemma tryCatch_insertFrame faults frame w :
  tryCatch (insertFrame faults (fr_animationID frame) (frameID frame) (data frame))
           (fun _ => mret tt) w
  = (Normal tt,
     if faults (OpInsertFrame (frameID frame)) then w
     else mkWorld (animationCache w) (metadataCache w)
            (mkStore (metadataArray (db w))
               (<[frameID frame := (fr_animationID frame, data frame)]>
                  (frameDocs (db w))))).
Proof.
  unfold tryCatch, insertFrame, dbOperation.
  destruct (faults (OpInsertFrame (frameID frame))); reflexivity.
Qed.

(** The frame sweep never throws and touches nothing but the frame
    documents of the store. *)
Lemma forEachM_insert_frames faults (frames : list Frame) : forall w,
  exists docs,
    forEachM (fun frame =>
                tryCatch (insertFrame faults (fr_animationID frame) (frameID frame)
                            (data frame))
                         (fun _ => mret tt))
             frames w
    = (Normal tt,
       mkWorld (animationCache w) (metadataCache w)
               (mkStore (metadataArray (db w)) docs)).
Proof.
  induction frames as [|frame frames IH]; intros w.
  - exists (frameDocs (db w)). cbn. unfold mret, M_ret.
    rewrite store_eta, world_eta. reflexivity.
  - cbn [forEachM]. unfold mbind at 1, M_bind at 1.
    rewrite tryCatch_insertFrame.
    destruct (faults (OpInsertFrame (frameID frame))); [apply IH|].
    match goal with |- context [forEachM _ frames ?w'] =>
      destruct (IH w') as [docs ->] end.
    exists docs. reflexivity.
Qed.

Lemma pushAnimationCacheToMongo_run faults w :
  exists docs,
    pushAnimationCacheToMongo faults w
    = (Normal tt,
       mkWorld (animationCache w) (metadataCache w)
               (mkStore (metadataArray (db w)) docs)).
Proof.
  unfold pushAnimationCacheToMongo. unfold getAnimationCache, mbind, M_bind.
  apply forEachM_insert_frames.
Qed.

(** The handler, step by step: an exception of the first-animation log or
    of the two loops leaves it with the world untouched; otherwise both
    caches are the newly built ones, the metadata of the store is replaced
    unless that operation fails, and the status is 200 or 501 accordingly. *)
Lemma postData_run rnd faults payload w :
  postData rnd faults payload w
  = match logFirstAnimation payload with
    | Throw e => (Throw e, w)
    | Normal _ =>
        match buildCaches rnd payload 0 with
        | Throw e => (Throw e, w)
        | Normal (metadata, frames) =>
            (Normal (sendStatus (if faults OpReplaceMetadataArray then 501 else 200)),
             (pushAnimationCacheToMongo faults
                (mkWorld frames metadata
                   (if faults OpReplaceMetadataArray then db w
                    else mkStore metadata (frameDocs (db w))))).2)
        end
    end.
Proof.
  unfold postData. rewrite verifyAnimationJson_Normal.
  unfold lift, mbind at 1, M_bind at 1. cbn [fst snd].
  unfold mbind at 1, M_bind at 1.
  destruct (logFirstAnimation payload) as [[]|e]; [|reflexivity].
  unfold mbind at 1, M_bind at 1.
  destruct (buildCaches rnd payload 0) as [[metadata frames]|e]; [|reflexivity].
  unfold setMetadataCache, setAnimationCache, getMetadataCache, settle,
    replaceMetadataArray, dbOperation.
  unfold mbind at 1 2 3 4, M_bind. cbn.
  destruct (faults OpReplaceMetadataArray); cbn.
  - unfold mbind, M_bind.
    destruct (pushAnimationCacheToMongo_run faults (mkWorld frames metadata (db w)))
      as [docs ->]. reflexivity.
  - unfold mbind, M_bind.
    destruct (pushAnimationCacheToMongo_run faults
                (mkWorld frames metadata (mkStore metadata (frameDocs (db w)))))
      as [docs ->]. reflexivity.
Qed.

Lemma logFirstAnimation_accepted payload :
  0 < length payload -> forallb animationAccepted payload = true ->
  logFirstAnimation payload = Normal tt.
Proof.
  destruct payload as [|[a|] rest]; cbn; intros Hlen Hall; try lia; try discriminate.
  unfold logFirstAnimation. cbn.
  destruct (as_frames a); [reflexivity|discriminate].
Qed.

Lemma postData_accepted rnd faults payload w :
  0 < length payload -> forallb animationAccepted payload = true ->
  exists metadata frames docs,
    buildCaches rnd payload 0 = Normal (metadata, frames)
    /\ BuiltFrom rnd 0 payload metadata frames
    /\ postData rnd faults payload w
       = (Normal (sendStatus (if faults OpReplaceMetadataArray then 501 else 200)),
          mkWorld frames metadata
            (mkStore (if faults OpReplaceMetadataArray then metadataArray (db w)
                      else metadata)
                     docs)).
Proof.
  intros Hlen Hall.
  destruct (buildCaches_accepted rnd payload 0 Hall) as (md & fr & Hbuild & Hbuilt).
  rewrite postData_run, (logFirstAnimation_accepted _ Hlen Hall), Hbuild.
  match goal with |- context [pushAnimationCacheToMongo faults ?w'] =>
    destruct (pushAnimationCacheToMongo_run faults w') as [docs ->] end.
  exists md, fr, docs. split; [reflexivity|]. split; [exact Hbuilt|].
  destruct (faults OpReplaceMetadataArray); reflexivity.
Qed.

Lemma postData_rejected rnd faults payload w :
  forallb animationAccepted payload = false ->
  exists e, postData rnd faults payload w = (Throw e, w).
Proof.
  intros Hall. rewrite postData_run.
  destruct (logFirstAnimation payload) as [[]|e]; [|eauto].
  destruct (buildCaches_rejected rnd payload 0 Hall) as [e ->]. eauto.
Qed.

(** C1: the validation step finds the failure and does not report it.  On
    an animation whose frame list is empty the check of the entry throws
    "frame list has no entries" and the callback handed to [forEach] catches
    it and returns it; [verifyAnimationJson] answers [true] all the same,
    and the POST handler answers 200 and installs the entry in
    [metadataCache] and in the store.  An animation without [frameDuration]
    and [repeatCount] fares likewise: its metadata and its frame are cached.
    On a [null] entry the check reports nothing either, and the handler ends
    in the [TypeError] of a property read instead of answering 500. *)
Theorem postData_accepts_what_the_check_rejects :
  let emptyFrames := [sampleAnimation "a" []] in
  let missingFields :=
    [Some (mkAnimationState (Some "b") None None (Some [uniformFrame 768 7]))] in
  (verifyAnimationCallback (sampleAnimation "a" [])
   = Normal (Some (Err "frame list has no entries"))
   /\ verifyAnimationJson emptyFrames = Normal VTrue
   /\ postData (countingRandom 0) noFaults emptyFrames emptyWorld
      = (Normal (sendStatus 200),
         mkWorld [] [mkMetadata (Some "a") (Some 100%Q) (Some 1%Q) 0 []]
           (mkStore [mkMetadata (Some "a") (Some 100%Q) (Some 1%Q) 0 []] ∅)))
  /\ (verifyAnimationCallback
        (Some (mkAnimationState (Some "b") None None (Some [uniformFrame 768 7])))
      = Normal (Some (Err "frame duration is undefined"))
      /\ verifyAnimationJson missingFields = Normal VTrue
      /\ (postData (countingRandom 0) noFaults missingFields emptyWorld).1
         = Normal (sendStatus 200)
      /\ metadataCache (postData (countingRandom 0) noFaults missingFields emptyWorld).2
         = [mkMetadata (Some "b") None None 1 ["012345"]]
      /\ animationCache (postData (countingRandom 0) noFaults missingFields emptyWorld).2
         = [mkFrame (Some "012345") (Some "b") (replicate 768 7%Z)])
  /\ (verifyAnimationCallback None = Normal (Some (Err "given var is null"))
      /\ verifyAnimationJson [None] = Normal VTrue
      /\ postData (countingRandom 0) noFaults [None] emptyWorld
         = (Throw TypeError, emptyWorld)).
Proof. vm_compute. repeat split; reflexivity. Qed.

(** C2 (counterexample): a frame of 768 entries is not a valid frame in the
    words of the specification (it has not exactly 256 elements), yet a
    payload containing it is answered 200 and replaces both caches; so is
    one whose 768 entries are the non-integer 1/2. *)
Lemma postData_mutates_on_768_entry_frame :
  let payload := [sampleAnimation "a" [uniformFrame 768 7]] in
  let r := postData (countingRandom 0) noFaults payload emptyWorld in
  let halves := postData (countingRandom 0) noFaults
                  [sampleAnimation "c" [uniformFrame 768 (1 # 2)]] emptyWorld in
  specFrameValid (uniformFrame 768 7) = false
  /\ r.1 = Normal (sendStatus 200)
  /\ metadataCache r.2 = [mkMetadata (Some "a") (Some 100%Q) (Some 1%Q) 1 ["012345"]]
  /\ animationCache r.2 = [mkFrame (Some "012345") (Some "a") (replicate 768 7%Z)]
  /\ metadataCache r.2 <> metadataCache emptyWorld
  /\ animationCache r.2 <> animationCache emptyWorld
  /\ specFrameValid (uniformFrame 768 (1 # 2)) = false
  /\ halves.1 = Normal (sendStatus 200)
  /\ animationCache halves.2 = [mkFrame (Some "012345") (Some "c") (replicate 768 0%Z)].
Proof. vm_compute. repeat split; try reflexivity; discriminate. Qed.

(** C2 (as amended): when some frame of the payload is one that
    [objectToArray] refuses (it has not exactly 768 keys, or the value under
    a key is not a number between 0 and 255), the handler ends in an
    exception and the world (both caches and the store) is what it was
    before the call. *)
Theorem postData_refused_frame_mutates_nothing
    (rnd : Random) (faults : Faults) (payload : Payload) (w : World)
    (i j : nat) (a : AnimationState) (frames : list FrameObject) (f : FrameObject) :
  payload !! i = Some (Some a) ->
  as_frames a = Some frames ->
  frames !! j = Some f ->
  frameAccepted f = false ->
  (exists e, objectToArray f = Throw e)
  /\ exists e, postData rnd faults payload w = (Throw e, w).
Proof.
  intros Hi Hfs Hj Hf. split; [apply objectToArray_rejected; exact Hf|].
  apply postData_rejected.
  destruct (forallb animationAccepted payload) eqn:Hall; [|reflexivity].
  pose proof (forallb_lookup _ _ _ _ Hall Hi) as Ha. cbn in Ha. rewrite Hfs in Ha.
  pose proof (forallb_lookup _ _ _ _ Ha Hj) as Hf'. congruence.
Qed.

Lemma postData_refused_frame_mutates_nothing_witness :
  let payload :=
    [sampleAnimation "a" [uniformFrame 768 7];
     sampleAnimation "b" [uniformFrame 768 7; uniformFrame 255 7]] in
  let w := (postData (countingRandom 0) noFaults
              [sampleAnimation "c" [uniformFrame 768 1]] emptyWorld).2 in
  (exists e, objectToArray (uniformFrame 255 7) = Throw e)
  /\ exists e, postData (countingRandom 0) noFaults payload w = (Throw e, w).
Proof.
  apply (postData_refused_frame_mutates_nothing (countingRandom 0) noFaults
           [sampleAnimation "a" [uniformFrame 768 7];
            sampleAnimation "b" [uniformFrame 768 7; uniformFrame 255 7]]
           (postData (countingRandom 0) noFaults
              [sampleAnimation "c" [uniformFrame 768 1]] emptyWorld).2
           1 1
           (mkAnimationState (Some "b") (Some 100%Q) (Some 1%Q)
              (Some [uniformFrame 768 7; uniformFrame 255 7]))
           [uniformFrame 768 7; uniformFrame 255 7] (uniformFrame 255 7)).
  - reflexivity.
  - reflexivity.
  - reflexivity.
  - vm_compute. reflexivity.
Defined.

(** C3 (counterexample): a payload that is valid in the words of the
    specification (two animations of three frames and one frame, every frame
    of exactly 256 entries, each the integer 7) is not installed: the
    handler throws in [objectToArray] and the metadata cache stays empty.
    Nor is the empty payload, on which the handler throws while logging the
    first animation: the entry cached before stays. *)
Lemma postData_refuses_256_entry_frames :
  (let payload :=
     [sampleAnimation "a" [uniformFrame 256 7; uniformFrame 256 7; uniformFrame 256 7];
      sampleAnimation "b" [uniformFrame 256 7]] in
   specPayloadValid payload = true
   /\ postData (countingRandom 0) noFaults payload emptyWorld
      = (Throw (Err "Invalid frame length. Expected 256*3."), emptyWorld)
   /\ length (metadataCache (postData (countingRandom 0) noFaults payload emptyWorld).2)
      <> length payload)
  /\ (let w := (postData (countingRandom 0) noFaults
                  [sampleAnimation "c" [uniformFrame 768 1]] emptyWorld).2 in
      specPayloadValid [] = true
      /\ postData (countingRandom 0) noFaults [] w = (Throw TypeError, w)
      /\ length (metadataCache w) = 1).
Proof. vm_compute. repeat split; try reflexivity; discriminate. Qed.

(** C3 (as amended): for every non-empty payload whose entries are animation
    objects with a list of frames that [objectToArray] accepts (exactly 768
    keys, each value a number between 0 and 255), after the call
    [metadataCache] holds one entry per incoming animation, in order, with
    the animation's fields; [totalFrames] is the length of its frame list
    and so is the length of [frameOrder]; every identifier of [frameOrder]
    is under [animationCache] a frame of that animation holding the bytes
    of the client's frame at the same position; and the identifiers, in
    metadata order and in cache order alike, are exactly the outputs of
    [genFrameID] in the order they were drawn. *)
Theorem postData_installs_built_caches
    (rnd : Random) (faults : Faults) (payload : Payload) (w : World) :
  0 < length payload ->
  forallb animationAccepted payload = true ->
  let w' := (postData rnd faults payload w).2 in
  length (metadataCache w') = length payload
  /\ (forall i a, payload !! i = Some (Some a) ->
      exists m clientFrames,
        metadataCache w' !! i = Some m
        /\ as_frames a = Some clientFrames
        /\ md_animationID m = as_animationID a
        /\ md_frameDuration m = as_frameDuration a
        /\ md_repeatCount m = as_repeatCount a
        /\ totalFrames m = length clientFrames
        /\ length (frameOrder m) = totalFrames m
        /\ (forall j fid, frameOrder m !! j = Some fid ->
            exists f bytes,
              clientFrames !! j = Some f
              /\ objectToArray f = Normal bytes
              /\ mkFrame (Some fid) (as_animationID a) bytes ∈ animationCache w'))
  /\ concat (frameOrder <$> metadataCache w')
     = generatedIDs rnd 0 (length (animationCache w'))
  /\ frameID <$> animationCache w'
     = Some <$> generatedIDs rnd 0 (length (animationCache w')).
Proof.
  intros Hlen Hall.
  destruct (postData_accepted rnd faults payload w Hlen Hall)
    as (md & fr & docs & _ & Hbuilt & ->).
  exact Hbuilt.
Qed.

Lemma postData_installs_built_caches_witness :
  let payload :=
    [sampleAnimation "a" [uniformFrame 768 7; uniformFrame 768 8; uniformFrame 768 9];
     sampleAnimation "b" [uniformFrame 768 1]] in
  let w' := (postData (countingRandom 0) noFaults payload emptyWorld).2 in
  BuiltFrom (countingRandom 0) 0 payload (metadataCache w') (animationCache w').
Proof.
  apply (postData_installs_built_caches (countingRandom 0) noFaults
           [sampleAnimation "a" [uniformFrame 768 7; uniformFrame 768 8; uniformFrame 768 9];
            sampleAnimation "b" [uniformFrame 768 1]] emptyWorld).
  - simpl. lia.
  - vm_compute. reflexivity.
Defined.

(** C7: once the two loops have built the new caches they are installed
    before anything is persisted and never rolled back.  Whatever fails in
    the store, both caches hold exactly what was built, the same as after a
    call whose persistence succeeds.  When the replacement of the stored
    metadata fails the handler answers 501 and the stored metadata is still
    the old one, so memory and store differ; failed frame inserts are only
    logged and the answer is 200. *)
Theorem postData_keeps_caches_when_persistence_fails
    (rnd : Random) (faults : Faults) (payload : Payload) (w : World) :
  0 < length payload ->
  forallb animationAccepted payload = true ->
  let r := postData rnd faults payload w in
  buildCaches rnd payload 0 = Normal (metadataCache r.2, animationCache r.2)
  /\ metadataCache r.2 = metadataCache (postData rnd noFaults payload w).2
  /\ animationCache r.2 = animationCache (postData rnd noFaults payload w).2
  /\ (faults OpReplaceMetadataArray = true ->
      r.1 = Normal (sendStatus 501) /\ metadataArray (db r.2) = metadataArray (db w))
  /\ (faults OpReplaceMetadataArray = false -> r.1 = Normal (sendStatus 200)).
Proof.
  intros Hlen Hall.
  destruct (postData_accepted rnd faults payload w Hlen Hall)
    as (md & fr & docs & Hbuild & _ & ->).
  destruct (postData_accepted rnd noFaults payload w Hlen Hall)
    as (md' & fr' & docs' & Hbuild' & _ & ->).
  cbn. rewrite Hbuild in Hbuild'. injection Hbuild' as <- <-.
  split; [exact Hbuild|]. split; [reflexivity|]. split; [reflexivity|].
  split; intros ->; auto.
Qed.

Lemma postData_keeps_caches_when_persistence_fails_witness :
  let faults : Faults := fun op =>
    match op with OpReplaceMetadataArray => true | _ => false end in
  let payload := [sampleAnimation "a" [uniformFrame 768 7]] in
  let w := (postData (countingRandom 6) noFaults
              [sampleAnimation "c" [uniformFrame 768 1]] emptyWorld).2 in
  let r := postData (countingRandom 0) faults payload w in
  buildCaches (countingRandom 0) payload 0
  = Normal (metadataCache r.2, animationCache r.2)
  /\ metadataCache r.2 = metadataCache (postData (countingRandom 0) noFaults payload w).2
  /\ animationCache r.2 = animationCache (postData (countingRandom 0) noFaults payload w).2
  /\ (faults OpReplaceMetadataArray = true ->
      r.1 = Normal (sendStatus 501) /\ metadataArray (db r.2) = metadataArray (db w))
  /\ (faults OpReplaceMetadataArray = false -> r.1 = Normal (sendStatus 200)).
Proof.
  apply (postData_keeps_caches_when_persistence_fails (countingRandom 0)
           (fun op => match op with OpReplaceMetadataArray => true | _ => false end)
           [sampleAnimation "a" [uniformFrame 768 7]]
           (postData (countingRandom 6) noFaults
              [sampleAnimation "c" [uniformFrame 768 1]] emptyWorld).2).
  - simpl. lia.
  - vm_compute. reflexivity.
Defined.

(** ** Start-up *)

Lemma forEachM_app {A} (body : A -> M unit) (l1 l2 : list A) : forall w,
  forEachM body (l1 ++ l2) w
  = match forEachM body l1 w with
    | (Normal _, w') => forEachM body l2 w'
    | (Throw e, w') => (Throw e, w')
    end.
Proof.
  induction l1 as [|x l1 IH]; intros w; [reflexivity|].
  cbn [app forEachM]. unfold mbind, M_bind.
  destruct (body x w) as [[[]|e] w']; [apply IH|reflexivity].
Qed.

Lemma forEachM_fmap {A B} (f : A -> B) (body : B -> M unit) (l : list A) : forall w,
  forEachM body (f <$> l) w = forEachM (fun x => body (f x)) l w.
Proof.
  induction l as [|x l IH]; intros w; [reflexivity|].
  cbn [fmap list_fmap forEachM]. unfold mbind, M_bind.
  destruct (body (f x) w) as [[[]|e] w']; [apply IH|reflexivity].
Qed.

Lemma forEachFrameSlot_run (body : Metadata -> nat -> M unit) w :
  forEachFrameSlot body w
  = forEachM (fun slot => body slot.1 slot.2) (frameSlots (metadataCache w)) w.
Proof.
  unfold forEachFrameSlot, getMetadataCache. unfold mbind at 1, M_bind at 1.
  generalize (metadataCache w) as metadata. intros metadata. revert w.
  induction metadata as [|m metadata IH]; intros w; [reflexivity|].
  change (frameSlots (m :: metadata))
    with (((fun j => (m, j)) <$> seq 0 (totalFrames m)) ++ frameSlots metadata).
  rewrite forEachM_app, forEachM_fmap. cbn [forEachM fst snd].
  unfold mbind at 1, M_bind at 1.
  destruct (forEachM (body m) (seq 0 (totalFrames m)) w) as [[[]|e] w'];
    [apply IH|reflexivity].
Qed.

Lemma loadFrameSlot_run faults m j w :
  loadFrameSlot faults m j w
  = if faults (OpFetchFrame (frameOrder m !! j)) then (Throw DbError, w)
    else match frameDocs (db w) !! (frameOrder m !! j) with
         | None =>
             (Throw (Err ("Could not find animation for name: "
                          +:+ showString (md_animationID m)
                          +:+ " and frame number: " +:+ numberToString j)), w)
         | Some (_, bytes) =>
             if length bytes =? FRAME_PIXEL_COUNT * 3
             then (Normal tt,
                   mkWorld (animationCache w
                            ++ [mkFrame (frameOrder m !! j) (md_animationID m) bytes])
                           (metadataCache w) (db w))
             else (Throw InvalidLength, w)
         end.
Proof.
  unfold loadFrameSlot, fetchFrame, dbOperation. unfold mbind at 1, M_bind at 1.
  destruct (faults (OpFetchFrame (frameOrder m !! j))); [reflexivity|].
  cbn [fst snd]. rewrite world_eta.
  destruct (frameDocs (db w) !! (frameOrder m !! j)) as [[a bytes]|].
  - unfold lift, mbind, M_bind, newFrame, addToAnimationCache.
    cbn [fmap option_fmap option_map snd fst isDefined assertTrue deref].
    destruct (length bytes =? FRAME_PIXEL_COUNT * 3); reflexivity.
  - reflexivity.
Qed.

(** The loop that fills [animationCache]: it appends to the cache the
    stored frames of the slots it gets through and changes nothing else; if
    it ends in an exception, those are the slots before the failing one. *)
Lemma load_loop faults (slots : list (Metadata * nat)) : forall w,
  let r := forEachM (fun slot => loadFrameSlot faults slot.1 slot.2) slots w in
  exists loaded,
    metadataCache r.2 = metadataCache w
    /\ db r.2 = db w
    /\ animationCache r.2 = animationCache w ++ loaded
    /\ ((r.1 = Normal tt /\ Forall2 (storedFrame (db w)) slots loaded)
        \/ (exists e pre slot post,
              r.1 = Throw e /\ slots = pre ++ slot :: post
              /\ Forall2 (storedFrame (db w)) pre loaded)).
Proof.
  induction slots as [|[m j] slots IH]; intros w; cbn zeta.
  - exists []. cbn. rewrite app_nil_r. repeat split. left. split; constructor.
  - cbn [forEachM fst snd]. unfold mbind, M_bind. rewrite loadFrameSlot_run.
    assert (Hfail : forall e,
      exists loaded,
        metadataCache (Throw (A:=unit) e, w).2 = metadataCache w
        /\ db (Throw (A:=unit) e, w).2 = db w
        /\ animationCache (Throw (A:=unit) e, w).2 = animationCache w ++ loaded
        /\ (((Throw (A:=unit) e, w).1 = Normal tt
             /\ Forall2 (storedFrame (db w)) ((m, j) :: slots) loaded)
            \/ (exists e' pre slot post,
                  (Throw (A:=unit) e, w).1 = Throw e'
                  /\ (m, j) :: slots = pre ++ slot :: post
                  /\ Forall2 (storedFrame (db w)) pre loaded))).
    { intros e. exists []. cbn. rewrite app_nil_r. repeat split.
      right. exists e, [], (m, j), slots. repeat split. constructor. }
    destruct (faults (OpFetchFrame (frameOrder m !! j))); [apply Hfail|].
    destruct (frameDocs (db w) !! (frameOrder m !! j)) as [[a bytes]|] eqn:Hdoc;
      [|apply Hfail].
    destruct (length bytes =? FRAME_PIXEL_COUNT * 3); [|apply Hfail].
    set (frame := mkFrame (frameOrder m !! j) (md_animationID m) bytes).
    set (w1 := mkWorld (animationCache w ++ [frame]) (metadataCache w) (db w)).
    destruct (IH w1) as (loaded & Hmd & Hdb & Hcache & Hcases).
    assert (Hstored : storedFrame (db w) (m, j) frame).
    { unfold storedFrame, slotFrameID. cbn. rewrite Hdoc. repeat split. }
    exists (frame :: loaded). split; [exact Hmd|]. split; [exact Hdb|]. split.
    { rewrite Hcache. cbn. rewrite <- app_assoc. reflexivity. }
    destruct Hcases as [[Hok Hall]|(e & pre & slot & post & Hthrow & Hslots & Hall)].
    + left. split; [exact Hok|]. constructor; assumption.
    + right. exists e, ((m, j) :: pre), slot, post.
      split; [exact Hthrow|]. split; [rewrite Hslots; reflexivity|].
      constructor; assumption.
Qed.

Lemma seedFrameSlot_run faults test m j w :
  seedFrameSlot faults test m j w
  = if faults (OpInsertFrame (frameOrder m !! j)) then (Throw DbError, w)
    else (Normal tt,
          mkWorld (animationCache w) (metadataCache w)
            (mkStore (metadataArray (db w))
               (<[frameOrder m !! j :=
                    (md_animationID m, testAnimationData test (md_animationID m) j)]>
                  (frameDocs (db w))))).
Proof.
  unfold seedFrameSlot, insertFrame, dbOperation.
  destruct (faults (OpInsertFrame (frameOrder m !! j))); reflexivity.
Qed.

Lemma seed_loop faults test (slots : list (Metadata * nat)) : forall w,
  let r := forEachM (fun slot => seedFrameSlot faults test slot.1 slot.2) slots w in
  animationCache r.2 = animationCache w /\ metadataCache r.2 = metadataCache w.
Proof.
  induction slots as [|[m j] slots IH]; intros w; cbn zeta; [split; reflexivity|].
  cbn [forEachM fst snd]. unfold mbind, M_bind. rewrite seedFrameSlot_run.
  destruct (faults (OpInsertFrame (frameOrder m !! j))); [split; reflexivity|].
  match goal with |- context [forEachM _ slots ?w'] =>
    destruct (IH w') as [Hc Hm] end.
  split; [rewrite Hc|rewrite Hm]; reflexivity.
Qed.

Lemma initMetadataCache_cache faults test w :
  animationCache (initMetadataCache faults test w).2 = animationCache w.
Proof.
  unfold initMetadataCache, connectToMongo, fetchMetadataArray,
    replaceMetadataArray, dbOperation, setMetadataCache.
  unfold mbind at 1 2, M_bind at 1 2.
  destruct (faults OpConnect); [reflexivity|].
  cbn [fst snd db animationCache metadataCache].
  destruct (faults OpFetchMetadataArray) eqn:Hfetch; [reflexivity|].
  cbn [fst snd db animationCache metadataCache].
  destruct (length (metadataArray (db w)) =? 0); [|reflexivity].
  unfold mbind at 1, M_bind at 1.
  destruct (faults OpReplaceMetadataArray); [reflexivity|].
  cbn [fst snd db animationCache metadataCache].
  unfold mbind at 1 2, M_bind at 1 2. rewrite ?Hfetch.
  cbn [fst snd db animationCache metadataCache].
  rewrite forEachFrameSlot_run.
  match goal with |- context [forEachM _ ?l ?w'] =>
    destruct (seed_loop faults test l w') as [Hc _] end.
  rewrite Hc. reflexivity.
Qed.

Lemma initMetadataCache_stored faults test w :
  0 < length (metadataArray (db w)) ->
  initMetadataCache faults test w
  = if faults OpConnect || faults OpFetchMetadataArray then (Throw DbError, w)
    else (Normal tt, mkWorld (animationCache w) (metadataArray (db w)) (db w)).
Proof.
  intros Hlen.
  unfold initMetadataCache, connectToMongo, fetchMetadataArray, dbOperation,
    setMetadataCache.
  unfold mbind at 1 2, M_bind at 1 2.
  destruct (faults OpConnect); [reflexivity|].
  cbn [fst snd orb db animationCache metadataCache].
  destruct (faults OpFetchMetadataArray); [rewrite world_eta; reflexivity|].
  cbn [fst snd db animationCache metadataCache].
  replace (length (metadataArray (db w)) =? 0) with false
    by (symmetry; apply Nat.eqb_neq; lia).
  reflexivity.
Qed.

Lemma elem_of_frameSlots (metadata : list Metadata) i m j :
  metadata !! i = Some m -> j < totalFrames m -> (m, j) ∈ frameSlots metadata.
Proof.
  intros Hm Hj. unfold frameSlots. apply list_elem_of_bind.
  exists m. split; [|apply list_elem_of_lookup; eauto].
  apply list_elem_of_fmap. exists j. split; [reflexivity|].
  apply elem_of_seq. lia.
Qed.

Lemma storedFrame_ids store (slots : list (Metadata * nat)) (loaded : list Frame) :
  Forall2 (storedFrame store) slots loaded ->
  frameID <$> loaded = slotFrameID <$> slots.
Proof.
  induction 1 as [|slot f slots loaded [Hid _] _ IH]; [reflexivity|].
  cbn. rewrite Hid, IH. reflexivity.
Qed.

(** Start-up as a whole: [animationCache] only grows, by the stored frames
    of the slots the loading loop got through; on success these are all the
    slots of [metadataCache]. *)
Lemma connectToDbAndInitCache_run faults test w :
  let r := connectToDbAndInitCache faults test w in
  exists loaded,
    animationCache r.2 = animationCache w ++ loaded
    /\ (r.1 = Normal tt ->
        Forall2 (storedFrame (db r.2)) (frameSlots (metadataCache r.2)) loaded).
Proof.
  cbn zeta. unfold connectToDbAndInitCache. unfold mbind, M_bind.
  pose proof (initMetadataCache_cache faults test w) as Hcache.
  destruct (initMetadataCache faults test w) as [[[]|e] w1]; cbn [fst snd] in *.
  - rewrite forEachFrameSlot_run.
    destruct (load_loop faults (frameSlots (metadataCache w1)) w1)
      as (loaded & Hmd & Hdb & Hc & Hcases).
    exists loaded. rewrite Hc, Hcache. split; [reflexivity|].
    intros Hok. rewrite Hmd, Hdb.
    destruct Hcases as [[_ Hall]|(e & pre & slot & post & Hthrow & _)];
      [exact Hall|congruence].
  - exists []. rewrite Hcache, app_nil_r. split; [reflexivity|discriminate].
Qed.

(** C6 (counterexample): the stored metadata lists the frames ["aaaaaa"]
    and ["bbbbbb"], the store holds the first only.  Start-up fails on the
    second, and the first is in [animationCache] all the same.  When
    [totalFrames] is 1 the second frame is never fetched and start-up
    succeeds. *)
Lemma connectToDbAndInitCache_leaves_partial_cache :
  (let w := mkWorld [] [] storeMissingSecondFrame in
   let r := connectToDbAndInitCache noFaults noTestData w in
   frameDocs (db w) !! Some "bbbbbb" = None
   /\ r.1 = Throw (Err "Could not find animation for name: a and frame number: 1")
   /\ animationCache r.2 = [mkFrame (Some "aaaaaa") (Some "a") (replicate 768 5%Z)]
   /\ animationCache r.2 <> [])
  /\ (let w := mkWorld [] [] storeShortTotalFrames in
      let r := connectToDbAndInitCache noFaults noTestData w in
      frameDocs (db w) !! Some "bbbbbb" = None
      /\ r.1 = Normal tt
      /\ animationCache r.2 = [mkFrame (Some "aaaaaa") (Some "a") (replicate 768 5%Z)]).
Proof. vm_compute. repeat split; try reflexivity; discriminate. Qed.

(** The loading loop stops at the first slot it does not get through: the
    frames of the slots before it have been added to [animationCache], as
    the store holds them, and nothing else has changed. *)
Lemma load_loop_first_failure faults (slots : list (Metadata * nat)) : forall w,
  let r := forEachM (fun slot => loadFrameSlot faults slot.1 slot.2) slots w in
  (forallb (slotLoads faults (db w)) slots = true
   /\ r = (Normal tt,
           mkWorld (animationCache w ++ (loadedFrame (db w) <$> slots))
                   (metadataCache w) (db w)))
  \/ exists pre slot post,
       slots = pre ++ slot :: post
       /\ forallb (slotLoads faults (db w)) pre = true
       /\ slotLoads faults (db w) slot = false
       /\ r = (Throw (slotError faults (db w) slot),
               mkWorld (animationCache w ++ (loadedFrame (db w) <$> pre))
                       (metadataCache w) (db w)).
Proof.
  induction slots as [|[m j] slots IH]; intros w; cbn zeta.
  - left. split; [reflexivity|]. cbn. unfold mret, M_ret.
    rewrite app_nil_r, world_eta. reflexivity.
  - cbn [forEachM fst snd]. unfold mbind, M_bind. rewrite loadFrameSlot_run.
    assert (Hfail : slotLoads faults (db w) (m, j) = false ->
      forall c : Completion unit * World,
        c = (Throw (slotError faults (db w) (m, j)), w) ->
        exists pre slot post,
          (m, j) :: slots = pre ++ slot :: post
          /\ forallb (slotLoads faults (db w)) pre = true
          /\ slotLoads faults (db w) slot = false
          /\ c = (Throw (slotError faults (db w) slot),
                  mkWorld (animationCache w ++ (loadedFrame (db w) <$> pre))
                          (metadataCache w) (db w))).
    { intros Hno c ->. exists [], (m, j), slots.
      split; [reflexivity|]. split; [reflexivity|]. split; [exact Hno|].
      cbn. rewrite app_nil_r, world_eta. reflexivity. }
    unfold slotLoads at 1 2 in Hfail. unfold slotError at 1 in Hfail.
    unfold slotFrameID in Hfail. cbn [fst snd] in Hfail.
    destruct (faults (OpFetchFrame (frameOrder m !! j))) eqn:Hfault;
      [right; apply Hfail; reflexivity|].
    destruct (frameDocs (db w) !! (frameOrder m !! j)) as [[a bytes]|] eqn:Hdoc;
      [|right; apply Hfail; reflexivity].
    destruct (length bytes =? FRAME_PIXEL_COUNT * 3) eqn:Hlen;
      [|right; apply Hfail; reflexivity].
    clear Hfail.
    assert (Hloads : slotLoads faults (db w) (m, j) = true).
    { unfold slotLoads, slotFrameID. cbn [fst snd]. rewrite Hfault, Hdoc, Hlen.
      reflexivity. }
    assert (Hframe : loadedFrame (db w) (m, j)
                     = mkFrame (frameOrder m !! j) (md_animationID m) bytes).
    { unfold loadedFrame, slotFrameID. cbn [fst snd]. rewrite Hdoc. reflexivity. }
    rewrite <- Hframe.
    set (w1 := mkWorld (animationCache w ++ [loadedFrame (db w) (m, j)])
                       (metadataCache w) (db w)).
    destruct (IH w1) as [[Hall ->]|(pre & slot & post & -> & Hpre & Hslot & ->)];
      cbn [w1 db animationCache metadataCache] in *.
    + left. split; [cbn [forallb]; rewrite Hloads, Hall; reflexivity|].
      cbn [fmap list_fmap]. rewrite <- app_assoc. reflexivity.
    + right. exists ((m, j) :: pre), slot, post.
      split; [reflexivity|].
      split; [cbn [forallb]; rewrite Hloads, Hpre; reflexivity|].
      split; [exact Hslot|].
      cbn [fmap list_fmap]. rewrite <- app_assoc. reflexivity.
Qed.

(** C6 (as amended): when some entry of the stored metadata names, at a
    position below its [totalFrames], a frameID under which the store holds
    no frame, start-up ends in an exception and leaves the store as it was.
    If connecting or reading the metadata fails, nothing has changed.
    Otherwise start-up has failed at the first slot that could not be
    loaded, with the assertion error of that slot when its frame is the
    missing one, and the frames fetched until then stay in
    [animationCache]: the cache has grown by exactly the stored frames of
    the slots before that one, in order. *)
Theorem connectToDbAndInitCache_missing_frame
    (faults : Faults) (test : TestData) (w : World)
    (i j : nat) (m : Metadata) (fid : string) :
  metadataArray (db w) !! i = Some m ->
  frameOrder m !! j = Some fid ->
  j < totalFrames m ->
  frameDocs (db w) !! Some fid = None ->
  let r := connectToDbAndInitCache faults test w in
  (exists e, r.1 = Throw e)
  /\ db r.2 = db w
  /\ (faults OpConnect || faults OpFetchMetadataArray = true -> r.2 = w)
  /\ (faults OpConnect || faults OpFetchMetadataArray = false ->
      exists pre slot post,
        frameSlots (metadataArray (db w)) = pre ++ slot :: post
        /\ forallb (slotLoads faults (db w)) pre = true
        /\ slotLoads faults (db w) slot = false
        /\ r.1 = Throw (slotError faults (db w) slot)
        /\ metadataCache r.2 = metadataArray (db w)
        /\ animationCache r.2 = animationCache w ++ (loadedFrame (db w) <$> pre)).
Proof.
  intros Hm Hfid Hj Hmissing. cbn zeta.
  pose proof (elem_of_frameSlots _ _ _ _ Hm Hj) as Hslot.
  assert (Hlen : 0 < length (metadataArray (db w))).
  { apply lookup_lt_Some in Hm. lia. }
  assert (Hno : slotLoads faults (db w) (m, j) = false).
  { unfold slotLoads, slotFrameID. cbn [fst snd]. rewrite Hfid, Hmissing.
    apply andb_false_r. }
  unfold connectToDbAndInitCache. unfold mbind, M_bind.
  rewrite (initMetadataCache_stored faults test w Hlen).
  destruct (faults OpConnect || faults OpFetchMetadataArray).
  - split; [eauto|]. split; [reflexivity|]. split; [reflexivity|discriminate].
  - rewrite forEachFrameSlot_run. cbn [metadataCache].
    destruct (load_loop_first_failure faults (frameSlots (metadataArray (db w)))
                (mkWorld (animationCache w) (metadataArray (db w)) (db w)))
      as [[Hall _]|(pre & slot & post & Hslots & Hpre & Hfails & Hr)];
      cbn [db animationCache metadataCache] in *.
    + exfalso. rewrite forallb_forall in Hall.
      rewrite (Hall (m, j)) in Hno; [discriminate|].
      apply list_elem_of_In. exact Hslot.
    + rewrite Hr. cbn [fst snd db animationCache metadataCache].
      split; [eauto|]. split; [reflexivity|]. split; [discriminate|].
      intros _. exists pre, slot, post. repeat split; assumption.
Qed.

Lemma connectToDbAndInitCache_missing_frame_witness :
  let w := mkWorld [] [] storeMissingSecondFrame in
  let r := connectToDbAndInitCache noFaults noTestData w in
  (exists e, r.1 = Throw e)
  /\ db r.2 = db w
  /\ (noFaults OpConnect || noFaults OpFetchMetadataArray = true -> r.2 = w)
  /\ (noFaults OpConnect || noFaults OpFetchMetadataArray = false ->
      exists pre slot post,
        frameSlots (metadataArray (db w)) = pre ++ slot :: post
        /\ forallb (slotLoads noFaults (db w)) pre = true
        /\ slotLoads noFaults (db w) slot = false
        /\ r.1 = Throw (slotError noFaults (db w) slot)
        /\ metadataCache r.2 = metadataArray (db w)
        /\ animationCache r.2 = animationCache w ++ (loadedFrame (db w) <$> pre)).
Proof.
  apply (connectToDbAndInitCache_missing_frame noFaults noTestData
           (mkWorld [] [] storeMissingSecondFrame) 0 1
           (mkMetadata (Some "a") (Some 100%Q) (Some 1%Q) 2 ["aaaaaa"; "bbbbbb"])
           "bbbbbb").
  - reflexivity.
  - reflexivity.
  - simpl. lia.
  - vm_compute. reflexivity.
Defined.

(** C8 (counterexample): with a generator that draws the same digit every
    time, an accepted payload of two frames leaves two frames under the
    one identifier ["000000"] in [animationCache]. *)
Lemma postData_caches_duplicate_frameID :
  let payload := [sampleAnimation "a" [uniformFrame 768 7; uniformFrame 768 9]] in
  let r := postData constantRandom noFaults payload emptyWorld in
  r.1 = Normal (sendStatus 200)
  /\ animationCache r.2
     = [mkFrame (Some "000000") (Some "a") (replicate 768 7%Z);
        mkFrame (Some "000000") (Some "a") (replicate 768 9%Z)]
  /\ ~ NoDup (frameID <$> animationCache r.2).
Proof.
  vm_compute. split; [reflexivity|]. split; [reflexivity|].
  intros Hnd. apply NoDup_cons in Hnd as [Hnotin _].
  apply Hnotin. constructor.
Qed.

Lemma buildCaches_frameCount rnd payload : forall k metadata frames,
  buildCaches rnd payload k = Normal (metadata, frames) ->
  length frames = frameCount payload.
Proof.
  induction payload as [|entry payload IH]; intros k metadata frames Hbuild.
  - cbn in Hbuild. injection Hbuild as <- <-. reflexivity.
  - destruct (forallb animationAccepted (entry :: payload)) eqn:Hall.
    2:{ destruct (buildCaches_rejected rnd _ k Hall) as [e He]. congruence. }
    cbn in Hall. apply andb_prop in Hall as [Hentry Hall].
    destruct entry as [a|]; [|discriminate]. cbn in Hentry.
    destruct (as_frames a) as [clientFrames|] eqn:Hfs; [|discriminate].
    rewrite (buildCaches_cons _ _ _ _ _ Hfs Hentry) in Hbuild.
    destruct (buildCaches rnd payload (k + FRAME_ID_LENGTH * length clientFrames))
      as [[md fr]|e] eqn:Hrest; [|discriminate].
    cbn [mbind Completion_bind fst snd] in Hbuild. injection Hbuild as <- <-.
    unfold frameCount. cbn [fmap list_fmap sum_list]. rewrite Hfs. cbn [default].
    rewrite length_app, length_framesOf by apply length_generatedIDs.
    rewrite (IH _ _ _ Hrest). reflexivity.
Qed.

(** C8 (as amended): the POST handler draws one identifier per frame of the
    payload and caches every frame under the identifier drawn for it,
    whatever the generator returns: for every sequence of generator outputs
    an accepted payload is answered, the cache holds as many frames as the
    payload has, and their frameIDs are the outputs of the successive calls
    of [genFrameID], in order; so they are pairwise distinct exactly when
    these outputs are.  After a start-up that succeeds from an empty cache
    the frameIDs of the cached frames are those that [metadataCache] names
    below [totalFrames], so they are pairwise distinct exactly when no
    frameID is named twice; and start-up does succeed on a consistent store
    whether or not a frameID is named twice. *)
Theorem cached_frameIDs_unique_iff_sources_unique :
  (forall (rnd : Random) (faults : Faults) (payload : Payload) (w : World),
     0 < length payload ->
     forallb animationAccepted payload = true ->
     let r := postData rnd faults payload w in
     (exists response, r.1 = Normal response)
     /\ length (animationCache r.2) = frameCount payload
     /\ frameID <$> animationCache r.2
        = Some <$> generatedIDs rnd 0 (frameCount payload)
     /\ (NoDup (frameID <$> animationCache r.2)
         <-> NoDup (generatedIDs rnd 0 (frameCount payload))))
  /\ (forall (faults : Faults) (test : TestData) (w : World),
       let r := connectToDbAndInitCache faults test w in
       r.1 = Normal tt ->
       animationCache w = [] ->
       frameID <$> animationCache r.2
       = slotFrameID <$> frameSlots (metadataCache r.2)
       /\ (NoDup (frameID <$> animationCache r.2)
           <-> NoDup (slotFrameID <$> frameSlots (metadataCache r.2))))
  /\ (forall (faults : Faults) (test : TestData) (w : World),
       0 < length (metadataArray (db w)) ->
       faults OpConnect = false ->
       faults OpFetchMetadataArray = false ->
       (forall fid, faults (OpFetchFrame fid) = false) ->
       forallb (slotLoads faults (db w)) (frameSlots (metadataArray (db w))) = true ->
       animationCache w = [] ->
       let r := connectToDbAndInitCache faults test w in
       r.1 = Normal tt
       /\ metadataCache r.2 = metadataArray (db w)
       /\ frameID <$> animationCache r.2
          = slotFrameID <$> frameSlots (metadataArray (db w))).
Proof.
  split; [|split].
  - intros rnd faults payload w Hlen Hall r.
    destruct (postData_accepted rnd faults payload w Hlen Hall)
      as (md & fr & docs & Hbuild & (_ & _ & _ & Hfids) & Hpost).
    pose proof (buildCaches_frameCount _ _ _ _ _ Hbuild) as Hcount.
    subst r. rewrite Hpost. cbn [fst snd animationCache].
    rewrite Hcount in Hfids.
    split; [eauto|]. split; [exact Hcount|]. split; [exact Hfids|].
    rewrite Hfids. apply NoDup_fmap. intros x y. congruence.
  - intros faults test w r Hok Hempty.
    destruct (connectToDbAndInitCache_run faults test w) as (loaded & Hcache & Hall).
    fold r in Hcache, Hall. specialize (Hall Hok).
    assert (Hids : frameID <$> animationCache r.2
                   = slotFrameID <$> frameSlots (metadataCache r.2)).
    { rewrite Hcache, Hempty. cbn. eapply storedFrame_ids. exact Hall. }
    split; [exact Hids|]. rewrite Hids. reflexivity.
  - intros faults test w Hlen Hconnect Hfetch Hfaults Hall Hempty. cbn zeta.
    unfold connectToDbAndInitCache. unfold mbind, M_bind.
    rewrite (initMetadataCache_stored faults test w Hlen), Hconnect, Hfetch.
    cbn [orb]. rewrite forEachFrameSlot_run. cbn [metadataCache].
    destruct (load_loop_first_failure faults (frameSlots (metadataArray (db w)))
                (mkWorld (animationCache w) (metadataArray (db w)) (db w)))
      as [[_ ->]|(pre & slot & post & Hslots & _ & Hfails & _)];
      cbn [db animationCache metadataCache] in *.
    + cbn [fst snd animationCache metadataCache]. rewrite Hempty.
      split; [reflexivity|]. split; [reflexivity|].
      cbn [app]. rewrite <- list_fmap_compose. reflexivity.
    + exfalso. rewrite Hslots, forallb_app in Hall. cbn [forallb] in Hall.
      rewrite Hfails, andb_false_r in Hall. discriminate.
Qed.

Lemma cached_frameIDs_unique_iff_sources_unique_witness :
  (let payload := [sampleAnimation "a" [uniformFrame 768 7; uniformFrame 768 9]] in
   let r := postData constantRandom noFaults payload emptyWorld in
   (exists response, r.1 = Normal response)
   /\ length (animationCache r.2) = frameCount payload
   /\ frameID <$> animationCache r.2
      = Some <$> generatedIDs constantRandom 0 (frameCount payload)
   /\ (NoDup (frameID <$> animationCache r.2)
       <-> NoDup (generatedIDs constantRandom 0 (frameCount payload))))
  /\ (let w := mkWorld [] []
                 (db (postData constantRandom noFaults
                        [sampleAnimation "a" [uniformFrame 768 7; uniformFrame 768 9]]
                        emptyWorld).2) in
      let r := connectToDbAndInitCache noFaults noTestData w in
      frameID <$> animationCache r.2
      = slotFrameID <$> frameSlots (metadataCache r.2)
      /\ (NoDup (frameID <$> animationCache r.2)
          <-> NoDup (slotFrameID <$> frameSlots (metadataCache r.2))))
  /\ (let w := mkWorld [] []
                 (db (postData constantRandom noFaults
                        [sampleAnimation "a" [uniformFrame 768 7; uniformFrame 768 9]]
                        emptyWorld).2) in
      let r := connectToDbAndInitCache noFaults noTestData w in
      r.1 = Normal tt
      /\ metadataCache r.2 = metadataArray (db w)
      /\ frameID <$> animationCache r.2
         = slotFrameID <$> frameSlots (metadataArray (db w))).
Proof.
  split; [|split].
  - apply (proj1 cached_frameIDs_unique_iff_sources_unique).
    + simpl. lia.
    + vm_compute. reflexivity.
  - apply (proj1 (proj2 cached_frameIDs_unique_iff_sources_unique)).
    + vm_compute. reflexivity.
    + reflexivity.
  - apply (proj2 (proj2 cached_frameIDs_unique_iff_sources_unique)).
    + vm_compute. lia.
    + reflexivity.
    + reflexivity.
    + reflexivity.
    + vm_compute. reflexivity.
    + reflexivity.
Defined.

(** * Further properties *)

(** ** Reordering *)

Section ReorderFacts.
Context {V : Type} (undef : V).
Implicit Types items : list V.

Lemma Reorder_in_range items s e x :
  items !! s = Some x ->
  Reorder undef items s e
  = take e (delete s items) ++ x :: drop e (delete s items).
Proof. intros Hx. unfold Reorder, arrayGet. rewrite Hx. reflexivity. Qed.

(** X1: moving an entry that exists only rearranges the array: the result
    is a permutation of the same length, the moved entry sits at
    [endIndex], or at the last position when [endIndex] is beyond it, and
    the other entries keep their order. *)
Theorem Reorder_moves_entry items (s e : nat) :
  s < length items ->
  Reorder undef items s e ≡ₚ items
  /\ length (Reorder undef items s e) = length items
  /\ Reorder undef items s e !! (e `min` (length items - 1)) = items !! s
  /\ delete (e `min` (length items - 1)) (Reorder undef items s e) = delete s items.
Proof.
  intros Hs. destruct (lookup_lt_is_Some_2 items s Hs) as [x Hx].
  rewrite (Reorder_in_range _ _ _ _ Hx).
  assert (Hperm : take e (delete s items) ++ x :: drop e (delete s items) ≡ₚ items).
  { etrans; [symmetry; apply Permutation_middle|].
    rewrite take_drop, delete_take_drop.
    etrans; [apply Permutation_middle|].
    rewrite (take_drop_middle items s x Hx). reflexivity. }
  split; [exact Hperm|]. split; [rewrite Hperm; reflexivity|].
  assert (Hlen : length (take e (delete s items)) = e `min` (length items - 1)).
  { rewrite length_take, length_delete by eauto. reflexivity. }
  split.
  - rewrite lookup_app_r by lia. rewrite Hlen, Nat.sub_diag, Hx. reflexivity.
  - rewrite <- Hlen. rewrite delete_middle, take_drop. reflexivity.
Qed.

(** X2: moving an entry from [startIndex] to [endIndex] and then back from
    [endIndex] to [startIndex] restores the array. *)
Theorem Reorder_there_and_back items (s e : nat) :
  s < length items -> e < length items ->
  Reorder undef (Reorder undef items s e) e s = items.
Proof.
  intros Hs He. destruct (lookup_lt_is_Some_2 items s Hs) as [x Hx].
  rewrite (Reorder_in_range _ _ _ _ Hx).
  assert (Hlen : length (take e (delete s items)) = e).
  { rewrite length_take, length_delete by eauto. lia. }
  unfold Reorder at 1. unfold arrayGet.
  rewrite lookup_app_r by lia. rewrite Hlen, Nat.sub_diag.
  cbn [lookup list_lookup default].
  replace (delete e (take e (delete s items) ++ x :: drop e (delete s items)))
    with (delete s items).
  2:{ rewrite <- Hlen at 1. rewrite delete_middle, take_drop. reflexivity. }
  rewrite delete_take_drop.
  rewrite take_app_length' by (rewrite length_take; lia).
  rewrite drop_app_length' by (rewrite length_take; lia).
  apply take_drop_middle. exact Hx.
Qed.

(** X3: when [startIndex] is beyond the array nothing is taken out and
    [undefined] is put in at [endIndex]: the array grows by one entry. *)
Theorem Reorder_start_out_of_range items (s e : nat) :
  length items <= s ->
  Reorder undef items s e = take e items ++ undef :: drop e items
  /\ length (Reorder undef items s e) = S (length items).
Proof.
  intros Hs.
  assert (H : Reorder undef items s e = take e items ++ undef :: drop e items).
  { unfold Reorder, arrayGet. rewrite (lookup_ge_None_2 items s Hs).
    rewrite delete_take_drop, (take_ge items s), (drop_ge items (S s)), app_nil_r
      by lia.
    reflexivity. }
  split; [exact H|].
  rewrite H, length_app, length_take. cbn. rewrite length_drop. lia.
Qed.

End ReorderFacts.

Lemma Reorder_moves_entry_witness :
  Reorder 0 [10; 20; 30; 40] 1 3 ≡ₚ [10; 20; 30; 40]
  /\ length (Reorder 0 [10; 20; 30; 40] 1 3) = length [10; 20; 30; 40]
  /\ Reorder 0 [10; 20; 30; 40] 1 3 !! (3 `min` (length [10; 20; 30; 40] - 1))
     = [10; 20; 30; 40] !! 1
  /\ delete (3 `min` (length [10; 20; 30; 40] - 1)) (Reorder 0 [10; 20; 30; 40] 1 3)
     = delete 1 [10; 20; 30; 40].
Proof. apply (Reorder_moves_entry 0 [10; 20; 30; 40] 1 3). simpl. lia. Defined.

Lemma Reorder_there_and_back_witness :
  Reorder 0 (Reorder 0 [10; 20; 30; 40] 3 0) 0 3 = [10; 20; 30; 40].
Proof. apply (Reorder_there_and_back 0 [10; 20; 30; 40] 3 0); simpl; lia. Defined.

Lemma Reorder_start_out_of_range_witness :
  Reorder 0 [10; 20; 30] 7 1 = take 1 [10; 20; 30] ++ 0 :: drop 1 [10; 20; 30]
  /\ length (Reorder 0 [10; 20; 30] 7 1) = S (length [10; 20; 30]).
Proof. apply (Reorder_start_out_of_range 0 [10; 20; 30] 7 1). simpl. lia. Defined.

(** ** Comparing arrays *)



(** ** Reversing every other column *)

Section MatrixFacts.
Context {V : Type} (undef : V).
Implicit Types (heap : Heap (V:=V)) (matrix : list nat) (rows : list (list V)).

Lemma arrayGet_arraySet (r : list V) i j v :
  i < length r ->
  length (arraySet undef r i v) = length r
  /\ arrayGet undef (arraySet undef r i v) j
     = if decide (j = i) then v else arrayGet undef r j.
Proof.
  intros Hi. unfold arraySet, arrayGet.
  replace (i <? length r) with true by (symmetry; apply Nat.ltb_lt; exact Hi).
  split; [apply length_insert|].
  case_decide as Hj.
  - subst j. rewrite list_lookup_insert_eq by exact Hi. reflexivity.
  - rewrite list_lookup_insert_ne by congruence. reflexivity.
Qed.

Lemma Rect_row n w rows row :
  Rect n w rows -> row < n -> exists r, rows !! row = Some r /\ length r = w.
Proof.
  intros [Hn Hw] Hrow. destruct (lookup_lt_is_Some_2 rows row) as [r Hr]; [lia|].
  exists r. split; [exact Hr|]. eapply (proj1 (Forall_lookup _ _) Hw); eauto.
Qed.

Lemma Rect_ref n w heap matrix row :
  Rect n w (rowsOf heap matrix) -> row < n ->
  exists ref, matrix !! row = Some ref /\ length (heap ref) = w.
Proof.
  intros HR Hrow. destruct (Rect_row _ _ _ _ HR Hrow) as (r & Hr & Hlen).
  unfold rowsOf in Hr. rewrite list_lookup_fmap in Hr.
  destruct (matrix !! row) as [ref|]; [|discriminate].
  cbn in Hr. injection Hr as <-. eauto.
Qed.

Lemma heapSet_lookup heap ref arr r :
  heapSet heap ref arr r = if decide (r = ref) then arr else heap r.
Proof.
  unfold heapSet. case_decide as Hr.
  - subst r. rewrite Nat.eqb_refl. reflexivity.
  - replace (r =? ref) with false by (symmetry; apply Nat.eqb_neq; exact Hr).
    reflexivity.
Qed.

Lemma writeCell_cell n w heap matrix row col v :
  NoDup matrix -> Rect n w (rowsOf heap matrix) -> row < n -> col < w ->
  exists heap',
    writeCell undef matrix row col v heap = (Normal tt, heap')
    /\ Rect n w (rowsOf heap' matrix)
    /\ (forall row' col',
          cell undef (rowsOf heap' matrix) row' col'
          = if decide (row' = row /\ col' = col) then v
            else cell undef (rowsOf heap matrix) row' col')
    /\ forall ref, ref ∉ matrix -> heap' ref = heap ref.
Proof.
  intros Hnodup HR Hrow Hcol.
  destruct (Rect_ref _ _ _ _ _ HR Hrow) as (ref & Href & Hlen).
  destruct HR as [Hn Hw]. unfold writeCell. rewrite Href.
  eexists. split; [reflexivity|]. split; [|split].
  - split; [unfold rowsOf in *; rewrite length_fmap in *; exact Hn|].
    unfold rowsOf in *. apply Forall_fmap, Forall_forall. intros r Hr. cbn.
    rewrite heapSet_lookup. case_decide as Heq.
    + rewrite (proj1 (arrayGet_arraySet (heap ref) col 0 v ltac:(lia))). exact Hlen.
    + apply Forall_fmap in Hw. exact (proj1 (Forall_forall _ _) Hw r Hr).
  - intros row' col'. unfold cell, rowsOf. rewrite !list_lookup_fmap.
    destruct (matrix !! row') as [ref'|] eqn:Href'; cbn [fmap option_fmap option_map default from_option id].
    + rewrite heapSet_lookup.
      case_decide as Hne; [subst ref'|].
      * pose proof (NoDup_lookup _ _ _ _ Hnodup Href' Href) as ->.
        rewrite (proj2 (arrayGet_arraySet (heap ref) col col' v ltac:(lia))).
        repeat case_decide; try reflexivity; exfalso; intuition.
      * case_decide as Hd; [|reflexivity].
        destruct Hd as [-> _]. congruence.
    + case_decide as Hd; [|reflexivity].
      destruct Hd as [-> _]. congruence.
  - intros r Hr. rewrite heapSet_lookup. case_decide as Heq; [|reflexivity].
    subst r. exfalso. apply Hr. apply list_elem_of_lookup. eauto.
Qed.

Lemma readCell_cell n w heap matrix row col :
  Rect n w (rowsOf heap matrix) -> row < n ->
  readCell undef matrix row col heap
  = (Normal (cell undef (rowsOf heap matrix) row col), heap).
Proof.
  intros HR Hrow. destruct (Rect_ref _ _ _ _ _ HR Hrow) as (ref & Href & _).
  unfold readCell, cell, rowsOf. rewrite list_lookup_fmap, Href. reflexivity.
Qed.

Lemma swapInCol_cell n w heap matrix col row :
  NoDup matrix -> Rect n w (rowsOf heap matrix) -> row < n -> col < w ->
  exists heap',
    swapInCol undef matrix col row heap = (Normal tt, heap')
    /\ Rect n w (rowsOf heap' matrix)
    /\ (forall row' col',
          cell undef (rowsOf heap' matrix) row' col'
          = if decide (col' = col /\ row' = n - row - 1)
            then cell undef (rowsOf heap matrix) row col
            else if decide (col' = col /\ row' = row)
                 then cell undef (rowsOf heap matrix) (n - row - 1) col
                 else cell undef (rowsOf heap matrix) row' col')
    /\ forall ref, ref ∉ matrix -> heap' ref = heap ref.
Proof.
  intros Hnodup HR Hrow Hcol.
  assert (Hn : length matrix = n).
  { destruct HR as [Hn _]. unfold rowsOf in Hn. rewrite length_fmap in Hn. exact Hn. }
  unfold swapInCol, bindH. rewrite Hn.
  rewrite (readCell_cell n w) by (assumption || lia).
  rewrite (readCell_cell n w) by (assumption || lia).
  destruct (writeCell_cell n w heap matrix row col
              (cell undef (rowsOf heap matrix) (n - row - 1) col)
              Hnodup HR Hrow Hcol) as (heap1 & -> & HR1 & Hc1 & Hf1).
  destruct (writeCell_cell n w heap1 matrix (n - row - 1) col
              (cell undef (rowsOf heap matrix) row col)
              Hnodup HR1 ltac:(lia) Hcol) as (heap2 & -> & HR2 & Hc2 & Hf2).
  exists heap2. split; [reflexivity|]. split; [exact HR2|]. split.
  - intros row' col'. rewrite Hc2, Hc1.
    repeat case_decide; try reflexivity; exfalso; intuition lia.
  - intros ref Href. rewrite Hf2, Hf1 by exact Href. reflexivity.
Qed.

Lemma forEachH_app {A} (body : A -> HeapM unit) (l1 l2 : list A) : forall heap,
  forEachH body (l1 ++ l2) heap
  = match forEachH body l1 heap with
    | (Normal _, heap') => forEachH body l2 heap'
    | (Throw e, heap') => (Throw e, heap')
    end.
Proof.
  induction l1 as [|x l1 IH]; intros heap; [reflexivity|].
  cbn [app forEachH]. unfold bindH.
  destruct (body x heap) as [[[]|e] heap']; [apply IH|reflexivity].
Qed.

Lemma reverse_rows_cell n w heap matrix col (k : nat) :
  NoDup matrix -> Rect n w (rowsOf heap matrix) -> col < w -> k <= (n + 1) / 2 ->
  exists heap',
    forEachH (swapInCol undef matrix col) (seq 0 k) heap = (Normal tt, heap')
    /\ Rect n w (rowsOf heap' matrix)
    /\ (forall row' col', row' < n ->
          cell undef (rowsOf heap' matrix) row' col'
          = if decide (col' = col /\ (row' < k \/ n - k <= row'))
            then cell undef (rowsOf heap matrix) (n - 1 - row') col
            else cell undef (rowsOf heap matrix) row' col')
    /\ forall ref, ref ∉ matrix -> heap' ref = heap ref.
Proof.
  intros Hnodup HR Hcol. induction k as [|k IH]; intros Hk.
  - exists heap. split; [reflexivity|]. split; [exact HR|]. split; [|reflexivity].
    intros row' col' Hrow'. case_decide; [exfalso; intuition lia|reflexivity].
  - rewrite seq_S, forEachH_app. cbn [Nat.add].
    destruct (IH ltac:(lia)) as (heapk & -> & HRk & Hck & Hfk).
    assert (Hdiv : 2 * ((n + 1) / 2) <= n + 1)
      by (apply Nat.Div0.mul_div_le).
    assert (Hkn : k < n) by lia.
    destruct (swapInCol_cell n w heapk matrix col k Hnodup HRk Hkn Hcol)
      as (heap' & Hswap & HR' & Hc' & Hf').
    cbn [forEachH]. unfold bindH. rewrite Hswap.
    exists heap'. split; [reflexivity|]. split; [exact HR'|]. split.
    + intros row' col' Hrow'. rewrite Hc'.
      rewrite !Hck by lia.
      repeat case_decide; try reflexivity; try (exfalso; intuition lia);
        f_equal; intuition lia.
    + intros ref Href. rewrite Hf', Hfk by exact Href. reflexivity.
Qed.

Lemma reverse_cols_cell n w heap matrix (j : nat) :
  NoDup matrix -> Rect n w (rowsOf heap matrix) -> j <= w ->
  exists heap',
    forEachH (fun col =>
                if col mod 2 =? 1
                then forEachH (swapInCol undef matrix col)
                              (seq 0 ((length matrix + 1) / 2))
                else fun heap => (Normal tt, heap))
             (seq 0 j) heap
    = (Normal tt, heap')
    /\ Rect n w (rowsOf heap' matrix)
    /\ (forall row' col', row' < n ->
          cell undef (rowsOf heap' matrix) row' col'
          = if decide (col' < j /\ col' mod 2 = 1)
            then cell undef (rowsOf heap matrix) (n - 1 - row') col'
            else cell undef (rowsOf heap matrix) row' col')
    /\ forall ref, ref ∉ matrix -> heap' ref = heap ref.
Proof.
  intros Hnodup HR.
  assert (Hn : length matrix = n).
  { destruct HR as [Hn _]. unfold rowsOf in Hn. rewrite length_fmap in Hn. exact Hn. }
  rewrite Hn. induction j as [|j IH]; intros Hj.
  - exists heap. split; [reflexivity|]. split; [exact HR|]. split; [|reflexivity].
    intros row' col' Hrow'. case_decide; [exfalso; intuition lia|reflexivity].
  - rewrite seq_S, forEachH_app. cbn [Nat.add].
    destruct (IH ltac:(lia)) as (heapj & -> & HRj & Hcj & Hfj).
    cbn [forEachH]. unfold bindH.
    destruct (j mod 2 =? 1) eqn:Hodd.
    + apply Nat.eqb_eq in Hodd.
      assert (Hjw : j < w) by lia.
      destruct (reverse_rows_cell n w heapj matrix j ((n + 1) / 2)
                  Hnodup HRj Hjw (le_n _)) as (heap' & -> & HR' & Hc' & Hf').
      exists heap'. split; [reflexivity|]. split; [exact HR'|]. split.
      * intros row' col' Hrow'. rewrite Hc' by exact Hrow'.
        assert (Hdiv : n < 2 * ((n + 1) / 2) + 1).
        { pose proof (Nat.div_mod_eq (n + 1) 2).
          pose proof (Nat.mod_upper_bound (n + 1) 2). lia. }
        rewrite !Hcj by lia.
        repeat case_decide; try reflexivity;
          try solve [exfalso; intuition (subst; lia)];
          destruct_and?; subst; reflexivity.
      * intros ref Href. rewrite Hf', Hfj by exact Href. reflexivity.
    + apply Nat.eqb_neq in Hodd.
      exists heapj. split; [reflexivity|]. split; [exact HRj|]. split; [|exact Hfj].
      intros row' col' Hrow'. rewrite Hcj by exact Hrow'.
      repeat case_decide; try reflexivity; exfalso;
        destruct (decide (col' = j)); subst; intuition lia.
Qed.

Lemma Rect_ext n w rows1 rows2 :
  Rect n w rows1 -> Rect n w rows2 ->
  (forall row col, row < n -> col < w ->
     cell undef rows1 row col = cell undef rows2 row col) ->
  rows1 = rows2.
Proof.
  intros HR1 HR2 Hcells. apply list_eq. intros row.
  destruct (decide (row < n)) as [Hrow|Hrow].
  - destruct (Rect_row _ _ _ _ HR1 Hrow) as (r1 & Hr1 & Hl1).
    destruct (Rect_row _ _ _ _ HR2 Hrow) as (r2 & Hr2 & Hl2).
    rewrite Hr1, Hr2. f_equal. apply list_eq. intros col.
    destruct (decide (col < w)) as [Hcol|Hcol].
    + specialize (Hcells row col Hrow Hcol). unfold cell, arrayGet in Hcells.
      rewrite Hr1, Hr2 in Hcells. cbn in Hcells.
      destruct (lookup_lt_is_Some_2 r1 col ltac:(lia)) as [x1 Hx1].
      destruct (lookup_lt_is_Some_2 r2 col ltac:(lia)) as [x2 Hx2].
      rewrite Hx1, Hx2 in *. cbn in Hcells. congruence.
    + rewrite !lookup_ge_None_2 by lia. reflexivity.
  - destruct HR1 as [Hn1 _], HR2 as [Hn2 _].
    rewrite !lookup_ge_None_2 by lia. reflexivity.
Qed.

Lemma reverseEveryOtherCol_cells_aux (n w : nat) heap matrix :
  NoDup matrix -> Rect n w (rowsOf heap matrix) ->
  (n = 0 -> reverseEveryOtherCol undef matrix heap = (Throw TypeError, heap))
  /\ (0 < n ->
      exists heap',
        reverseEveryOtherCol undef matrix heap = (Normal matrix, heap')
        /\ Rect n w (rowsOf heap' matrix)
        /\ (forall row col, row < n -> col < w ->
              cell undef (rowsOf heap' matrix) row col
              = if decide (col mod 2 = 1)
                then cell undef (rowsOf heap matrix) (n - 1 - row) col
                else cell undef (rowsOf heap matrix) row col)
        /\ forall ref, ref ∉ matrix -> heap' ref = heap ref).
Proof.
  intros Hnodup HR. split.
  - intros ->. destruct HR as [Hn _]. destruct matrix; [reflexivity|discriminate].
  - intros Hn. unfold reverseEveryOtherCol.
    destruct (Rect_ref _ _ _ _ _ HR Hn) as (row0 & -> & Hw).
    rewrite Hw. unfold bindH.
    destruct (reverse_cols_cell n w heap matrix w Hnodup HR (le_n _))
      as (heap' & -> & HR' & Hc & Hf).
    exists heap'. split; [reflexivity|]. split; [exact HR'|]. split; [|exact Hf].
    intros row col Hrow Hcol. rewrite Hc by exact Hrow.
    repeat case_decide; try reflexivity; exfalso; intuition lia.
Qed.

(** X5: [reverseEveryOtherCol] works in place on the arrays of the rows.
    On a matrix of [n] rows of [w] entries whose rows are distinct arrays
    it returns the matrix itself, keeps the dimensions, leaves every even
    column as it is and turns every odd column upside down: the entry of
    row [r] comes from row [n - 1 - r]; no other array of the heap is
    touched.  On a matrix without rows it throws a [TypeError]. *)
Theorem reverseEveryOtherCol_cells (n w : nat) heap matrix :
  NoDup matrix -> Rect n w (rowsOf heap matrix) ->
  (n = 0 -> reverseEveryOtherCol undef matrix heap = (Throw TypeError, heap))
  /\ (0 < n ->
      exists heap',
        reverseEveryOtherCol undef matrix heap = (Normal matrix, heap')
        /\ Rect n w (rowsOf heap' matrix)
        /\ (forall row col, row < n -> col < w ->
              cell undef (rowsOf heap' matrix) row col
              = if decide (col mod 2 = 1)
                then cell undef (rowsOf heap matrix) (n - 1 - row) col
                else cell undef (rowsOf heap matrix) row col)
        /\ forall ref, ref ∉ matrix -> heap' ref = heap ref).
Proof. exact (reverseEveryOtherCol_cells_aux n w heap matrix). Qed.

(** X6: on such a matrix, its rows distinct arrays and at least one of
    them, reversing every other column twice puts every array of the heap
    back as it was. *)
Theorem reverseEveryOtherCol_twice (n w : nat) heap matrix :
  NoDup matrix -> Rect n w (rowsOf heap matrix) -> 0 < n ->
  exists heap' heap'',
    reverseEveryOtherCol undef matrix heap = (Normal matrix, heap')
    /\ reverseEveryOtherCol undef matrix heap' = (Normal matrix, heap'')
    /\ forall ref, heap'' ref = heap ref.
Proof.
  intros Hnodup HR Hn.
  destruct (proj2 (reverseEveryOtherCol_cells_aux n w heap matrix Hnodup HR) Hn)
    as (heap' & Hrev & HR' & Hc & Hf).
  destruct (proj2 (reverseEveryOtherCol_cells_aux n w heap' matrix Hnodup HR') Hn)
    as (heap'' & Hback & HR'' & Hc' & Hf').
  exists heap', heap''. split; [exact Hrev|]. split; [exact Hback|].
  assert (Hrows : rowsOf heap'' matrix = rowsOf heap matrix).
  { apply (Rect_ext n w); [exact HR''|exact HR|].
    intros row col Hrow Hcol. rewrite Hc' by assumption.
    case_decide as Hodd.
    - rewrite Hc by lia. case_decide; [|contradiction]. f_equal. lia.
    - rewrite Hc by assumption. case_decide; [contradiction|reflexivity]. }
  intros ref. destruct (decide (ref ∈ matrix)) as [Hin|Hout].
  - apply list_elem_of_lookup in Hin as [row Hrow].
    apply (f_equal (fun rows => rows !! row)) in Hrows.
    unfold rowsOf in Hrows. rewrite !list_lookup_fmap, Hrow in Hrows.
    cbn in Hrows. congruence.
  - rewrite Hf', Hf by exact Hout. reflexivity.
Qed.

End MatrixFacts.

(** Two rows that are one array: the swaps interfere, the first row does
    not get the entry of the last one, and a second call does not undo the
    first. *)
Example reverseEveryOtherCol_shared_row :
  let heap := sampleHeap in
  let once := reverseEveryOtherCol 0 [0; 0; 1; 2] heap in
  let twice := reverseEveryOtherCol 0 [0; 0; 1; 2] once.2 in
  rowsOf heap [0; 0; 1; 2] = [[1; 2]; [1; 2]; [3; 4]; [5; 6]]
  /\ once.1 = Normal [0; 0; 1; 2]
  /\ rowsOf once.2 [0; 0; 1; 2] = [[1; 4]; [1; 4]; [3; 6]; [5; 2]]
  /\ rowsOf twice.2 [0; 0; 1; 2] = [[1; 6]; [1; 6]; [3; 2]; [5; 4]].
Proof. vm_compute. repeat split; reflexivity. Qed.

Lemma reverseEveryOtherCol_cells_witness :
  exists heap',
    reverseEveryOtherCol 0 [2; 0; 1] sampleHeap = (Normal [2; 0; 1], heap')
    /\ Rect 3 2 (rowsOf heap' [2; 0; 1])
    /\ (forall row col, row < 3 -> col < 2 ->
          cell 0 (rowsOf heap' [2; 0; 1]) row col
          = if decide (col mod 2 = 1)
            then cell 0 (rowsOf sampleHeap [2; 0; 1]) (3 - 1 - row) col
            else cell 0 (rowsOf sampleHeap [2; 0; 1]) row col)
    /\ forall ref, ref ∉ [2; 0; 1] -> heap' ref = sampleHeap ref.
Proof.
  apply (proj2 (reverseEveryOtherCol_cells 0 3 2 sampleHeap [2; 0; 1]
                  ltac:(apply (bool_decide_unpack _); vm_compute; reflexivity)
                  ltac:(split; [reflexivity|repeat constructor]))).
  lia.
Defined.

Lemma reverseEveryOtherCol_twice_witness :
  exists heap' heap'',
    reverseEveryOtherCol 0 [2; 0; 1] sampleHeap = (Normal [2; 0; 1], heap')
    /\ reverseEveryOtherCol 0 [2; 0; 1] heap' = (Normal [2; 0; 1], heap'')
    /\ forall ref, heap'' ref = sampleHeap ref.
Proof.
  apply (reverseEveryOtherCol_twice 0 3 2 sampleHeap [2; 0; 1]).
  - apply (bool_decide_unpack _). vm_compute. reflexivity.
  - split; [reflexivity|]. repeat constructor.
  - lia.
Defined.

(** ** Pixels of a buffer *)

(** X7: the pixels [parseFrameData] cuts a buffer into, laid end to end,
    are the buffer itself, followed by one or two [undefined] when its
    length is not a multiple of 3; there is one pixel for every three
    entries, a last incomplete one included. *)
Theorem parseFrameData_flatten {A} (frameData : list A) :
  length (parseFrameData frameData) = (length frameData + 2) / 3
  /\ concat (flattenPixel <$> parseFrameData frameData)
     = (Some <$> frameData) ++ replicate ((3 - length frameData mod 3) mod 3) None.
Proof.
  unfold parseFrameData. split; [rewrite length_fmap, length_seq; reflexivity|].
  pose proof (Nat.div_mod_eq (length frameData) 3) as Hdm.
  pose proof (Nat.mod_upper_bound (length frameData) 3 ltac:(lia)) as Hr.
  set (n := length frameData / 3) in *. set (r := length frameData mod 3) in *.
  clearbody n r.
  rewrite <- list_fmap_compose.
  change (concat ((flattenPixel ∘ (fun k => pixelAt frameData (3 * k))) <$> ?l))
    with (concat (map (fun k => flattenPixel (pixelAt frameData (3 * k))) l)).
  destruct (decide (r = 0)) as [Hr0|Hr0].
  - replace ((length frameData + 2) / 3) with n
      by (apply (Nat.div_unique _ 3 n 2); lia).
    rewrite (pixels_from frameData n 0) by lia.
    rewrite Hr0. cbn [replicate Nat.sub Nat.modulo Nat.divmod snd]. rewrite app_nil_r.
    change (3 * 0) with 0. rewrite drop_0, take_ge by lia. reflexivity.
  - replace ((length frameData + 2) / 3) with (S n)
      by (apply (Nat.div_unique _ 3 (S n) (r - 1)); lia).
    rewrite seq_S, map_app, concat_app, (pixels_from frameData n 0) by lia.
    change (3 * 0) with 0. rewrite drop_0. cbn [map concat Nat.add].
    rewrite app_nil_r.
    replace (Some <$> frameData)
      with (Some <$> (take (3 * n) frameData ++ drop (3 * n) frameData))
      by (rewrite take_drop; reflexivity).
    rewrite fmap_app, <- app_assoc. f_equal.
    unfold pixelAt, flattenPixel.
    assert (Hlen : length (drop (3 * n) frameData) = r) by (rewrite length_drop; lia).
    assert (H0 : frameData !! (3 * n) = drop (3 * n) frameData !! 0)
      by (rewrite lookup_drop; f_equal; lia).
    assert (H1 : frameData !! (3 * n + 1) = drop (3 * n) frameData !! 1)
      by (rewrite lookup_drop; reflexivity).
    assert (H2 : frameData !! (3 * n + 2) = drop (3 * n) frameData !! 2)
      by (rewrite lookup_drop; reflexivity).
    rewrite H0, H1, H2.
    destruct (drop (3 * n) frameData) as [|x [|y [|z rest]]]; cbn in Hlen;
      try lia; subst r; reflexivity.
Qed.

(** X8: on a buffer of 768 entries the rows of the grid of [get2Darray],
    one after the other, are the 256 pixels of [parseFrameData]. *)
Theorem get2Darray_rows_are_parsed_pixels {A} (arr : list A) :
  length arr = 768 ->
  exists grid, get2Darray arr = Normal grid /\ concat grid = parseFrameData arr.
Proof.
  intros Hlen. unfold get2Darray, parseFrameData. rewrite Hlen.
  eexists. split; [reflexivity|]. vm_compute. reflexivity.
Qed.

Lemma get2Darray_rows_are_parsed_pixels_witness :
  exists grid,
    get2Darray (replicate 768 0%Z) = Normal grid
    /\ concat grid = parseFrameData (replicate 768 0%Z).
Proof. apply (get2Darray_rows_are_parsed_pixels (replicate 768 0%Z)). reflexivity. Defined.

(** ** From canvas data to a frame *)

Lemma lookup_triples {B} (g0 g1 g2 : nat -> B) (n : nat) : forall s p c,
  p < n -> c < 3 ->
  (k ← seq s n; [g0 k; g1 k; g2 k]) !! (3 * p + c)
  = [g0 (s + p); g1 (s + p); g2 (s + p)] !! c.
Proof.
  induction n as [|n IH]; intros s p c Hp Hc; [lia|].
  cbn [seq mbind list_bind]. change (list_bind ?f ?l) with (l ≫= f).
  destruct p as [|p].
  - rewrite Nat.add_0_r. change (3 * 0 + c) with c.
    rewrite lookup_app_l; [reflexivity|]. cbn [length]. lia.
  - rewrite lookup_app_r; [|cbn [length]; lia]. cbn [length].
    replace (3 * S p + c - 3) with (3 * p + c) by lia.
    rewrite IH by lia. replace (S s + p) with (s + S p) by lia. reflexivity.
Qed.

Lemma length_triples {B} (g0 g1 g2 : nat -> B) (n : nat) : forall s,
  length (k ← seq s n; [g0 k; g1 k; g2 k]) = 3 * n.
Proof.
  induction n as [|n IH]; intros s; [reflexivity|].
  cbn [seq mbind list_bind]. change (list_bind ?f ?l) with (l ≫= f).
  rewrite length_app, IH. cbn. lia.
Qed.

Lemma getRGBArray_run (data : list Z) :
  (length data = 1024 ->
   exists rgb,
     getRGBArray data = Normal rgb
     /\ length rgb = 768
     /\ forall p c, p < 256 -> c < 3 ->
          rgb !! (3 * p + c) = (fun z => z mod 256)%Z <$> data !! (4 * p + c))
  /\ (length data <> 1024 ->
      getRGBArray data = Throw (Err "Unexpected data size in uploadImage")).
Proof.
  unfold getRGBArray. split.
  - intros Hlen. rewrite Hlen.
    change (1024 =? 4 * FRAME_PIXEL_COUNT) with true.
    change ((1024 + 3) / 4) with 256.
    cbn [assertTrue mbind Completion_bind].
    rewrite length_triples. change (3 * 256 =? FRAME_PIXEL_COUNT * 3) with true.
    cbn [assertTrue mbind Completion_bind].
    eexists. split; [reflexivity|].
    split; [rewrite length_fmap, length_triples; reflexivity|].
    intros p c Hp Hc. rewrite list_lookup_fmap, lookup_triples by assumption.
    change (0 + p) with p.
    assert (Hin : 4 * p + c < length data) by lia.
    destruct (lookup_lt_is_Some_2 data (4 * p + c) Hin) as [z Hz].
    destruct c as [|[|[|c]]]; [| | |lia].
    + rewrite Nat.add_0_r in *. cbn [lookup list_lookup fmap option_fmap option_map].
      rewrite Hz. reflexivity.
    + cbn [lookup list_lookup fmap option_fmap option_map].
      rewrite Hz. reflexivity.
    + cbn [lookup list_lookup fmap option_fmap option_map].
      rewrite Hz. reflexivity.
  - intros Hlen.
    replace (length data =? 4 * FRAME_PIXEL_COUNT) with false
      by (symmetry; apply Nat.eqb_neq; exact Hlen).
    reflexivity.
Qed.

(** X9: [getRGBArray] accepts the data of exactly 256 pixels, 1024 entries,
    and throws on any other length; what it returns has 768 entries, the
    first three channels of every pixel in order, the fourth left out. *)
Theorem getRGBArray_drops_alpha (data : list Z) :
  (length data = 1024 ->
   exists rgb,
     getRGBArray data = Normal rgb
     /\ length rgb = 768
     /\ forall p c, p < 256 -> c < 3 ->
          rgb !! (3 * p + c) = (fun z => z mod 256)%Z <$> data !! (4 * p + c))
  /\ (length data <> 1024 ->
      getRGBArray data = Throw (Err "Unexpected data size in uploadImage")).
Proof. exact (getRGBArray_run data). Qed.

Lemma getRGBArray_drops_alpha_witness :
  (exists rgb,
     getRGBArray (replicate 1024 9%Z) = Normal rgb
     /\ length rgb = 768
     /\ forall p c, p < 256 -> c < 3 ->
          rgb !! (3 * p + c)
          = (fun z => z mod 256)%Z <$> replicate 1024 9%Z !! (4 * p + c))
  /\ getRGBArray [1; 2; 3; 4]%Z = Throw (Err "Unexpected data size in uploadImage").
Proof.
  split.
  - apply (proj1 (getRGBArray_drops_alpha (replicate 1024 9%Z))). reflexivity.
  - apply (proj2 (getRGBArray_drops_alpha [1; 2; 3; 4]%Z)). simpl. lia.
Defined.

(** X10: the data of a 16 x 16 canvas, its entries bytes, always makes it
    through [getRGBArray] and [get2Darray]: the grid cell [row][col] holds
    the red, green and blue entries of pixel [row * 16 + col]. *)
Theorem canvas_to_grid (data : list Z) :
  length data = 1024 ->
  Forall isByte data ->
  exists rgb grid,
    getRGBArray data = Normal rgb
    /\ get2Darray rgb = Normal grid
    /\ forall row col, row < 16 -> col < 16 ->
         exists cells,
           grid !! row = Some cells
           /\ cells !! col
              = Some (data !! (4 * (row * 16 + col)),
                      data !! (4 * (row * 16 + col) + 1),
                      data !! (4 * (row * 16 + col) + 2)).
Proof.
  intros Hlen Hbytes.
  destruct (proj1 (getRGBArray_run data) Hlen) as (rgb & Hrgb & Hl & Hlook).
  exists rgb. unfold get2Darray. rewrite Hl.
  change (768 =? FRAME_PIXEL_COUNT * 3) with true.
  cbn [assertTrue mbind Completion_bind].
  eexists. split; [exact Hrgb|]. split; [reflexivity|].
  intros row col Hrow Hcol.
  destruct (get2Darray_cell rgb row col Hrow Hcol) as [Hr Hc].
  eexists. split; [exact Hr|]. refine (eq_trans Hc _).
  unfold pixelAt, IMAGE_PIXEL_LENGTH.
  assert (Hch : forall c, c < 3 ->
            rgb !! (3 * (row * 16 + col) + c) = data !! (4 * (row * 16 + col) + c)).
  { intros c Hlt. rewrite Hlook by (unfold IMAGE_PIXEL_LENGTH in *; lia).
    destruct (data !! (4 * (row * 16 + col) + c)) as [z|] eqn:Hz; [|reflexivity].
    cbn. f_equal. apply Z.mod_small.
    exact (proj1 (Forall_lookup _ _) Hbytes _ _ Hz). }
  rewrite (Hch 1), (Hch 2) by lia.
  pose proof (Hch 0 ltac:(lia)) as H0. rewrite !Nat.add_0_r in H0. rewrite H0.
  reflexivity.
Qed.

Lemma canvas_to_grid_witness :
  exists rgb grid,
    getRGBArray (replicate 1024 9%Z) = Normal rgb
    /\ get2Darray rgb = Normal grid
    /\ forall row col, row < 16 -> col < 16 ->
         exists cells,
           grid !! row = Some cells
           /\ cells !! col
              = Some (replicate 1024 9%Z !! (4 * (row * 16 + col)),
                      replicate 1024 9%Z !! (4 * (row * 16 + col) + 1),
                      replicate 1024 9%Z !! (4 * (row * 16 + col) + 2)).
Proof.
  apply (canvas_to_grid (replicate 1024 9%Z)).
  - reflexivity.
  - apply Forall_replicate. unfold isByte. lia.
Defined.

(** ** Hexadecimal colours *)

Lemma length_string_app (s t : string) :
  String.length (s +:+ t) = String.length s + String.length t.
Proof. induction s as [|c s IH]; simpl; [reflexivity|]. rewrite IH. reflexivity. Qed.

Lemma string_app_inj (s1 : string) : forall s2 t1 t2,
  String.length s1 = String.length s2 ->
  s1 +:+ t1 = s2 +:+ t2 -> s1 = s2 /\ t1 = t2.
Proof.
  induction s1 as [|c s1 IH]; intros [|d s2] t1 t2 Hlen Heq; simpl in *;
    try discriminate.
  - split; [reflexivity|exact Heq].
  - injection Heq as -> Heq. destruct (IH s2 t1 t2) as [-> ->]; [lia|exact Heq|].
    split; reflexivity.
Qed.

Lemma isHexString_app (s t : string) :
  isHexString (s +:+ t) = isHexString s && isHexString t.
Proof.
  unfold isHexString.
  generalize (fun c => existsb (Ascii.eqb c) (String.list_ascii_of_string characters)).
  intros p. induction s as [|c s IH]; simpl.
  - reflexivity.
  - rewrite IH. apply andb_assoc.
Qed.

(** The two digits of every byte, by enumeration. *)
Lemma hex_digits_table :
  forallb (fun n =>
             (String.length (padStart2 (toString16 (Z.of_nat n))) =? 2)
             && isHexString (padStart2 (toString16 (Z.of_nat n))))
          (seq 0 256) = true.
Proof. vm_compute. reflexivity. Qed.

Lemma hex_digits_distinct_table :
  forallb (fun i =>
             forallb (fun j =>
                        implb (String.eqb (padStart2 (toString16 (Z.of_nat i)))
                                          (padStart2 (toString16 (Z.of_nat j))))
                              (i =? j))
                     (seq 0 256))
          (seq 0 256) = true.
Proof. vm_compute. reflexivity. Qed.

Lemma isByte_nat (z : Z) : isByte z -> exists n, n < 256 /\ z = Z.of_nat n.
Proof. unfold isByte. intros H. exists (Z.to_nat z). split; lia. Qed.

Lemma hex_digits (z : Z) :
  isByte z ->
  String.length (padStart2 (toString16 z)) = 2
  /\ isHexString (padStart2 (toString16 z)) = true.
Proof.
  intros (n & Hn & ->)%isByte_nat.
  pose proof (proj1 (forallb_forall _ _) hex_digits_table n) as H.
  cbv beta in H. specialize (H ltac:(apply in_seq; lia)).
  apply andb_prop in H as [H1 H2].
  apply Nat.eqb_eq in H1. split; assumption.
Qed.

Lemma hex_digits_inj (x y : Z) :
  isByte x -> isByte y ->
  padStart2 (toString16 x) = padStart2 (toString16 y) -> x = y.
Proof.
  intros (i & Hi & ->)%isByte_nat (j & Hj & ->)%isByte_nat Heq.
  pose proof (proj1 (forallb_forall _ _) hex_digits_distinct_table i) as H.
  cbv beta in H.
  pose proof (proj1 (forallb_forall _ _) (H ltac:(apply in_seq; lia)) j) as H'.
  cbv beta in H'. specialize (H' ltac:(apply in_seq; lia)).
  rewrite Heq, String.eqb_refl in H'. cbn in H'. apply Nat.eqb_eq in H'.
  congruence.
Qed.

Lemma rgbToHex_inj r g b r' g' b' :
  isByte r -> isByte g -> isByte b -> isByte r' -> isByte g' -> isByte b' ->
  rgbToHex r g b = rgbToHex r' g' b' -> r = r' /\ g = g' /\ b = b'.
Proof.
  intros Hr Hg Hb Hr' Hg' Hb' Heq. unfold rgbToHex in Heq.
  destruct (hex_digits r Hr) as [Lr _]. destruct (hex_digits g Hg) as [Lg _].
  destruct (hex_digits r' Hr') as [Lr' _]. destruct (hex_digits g' Hg') as [Lg' _].
  apply (inj (String.append "#")) in Heq.
  apply string_app_inj in Heq as [H1 Heq]; [|congruence].
  apply string_app_inj in Heq as [H2 H3]; [|congruence].
  repeat split; apply hex_digits_inj; assumption.
Qed.

Lemma convertUint8ArrayToHexColorArray_run (uint8Array : list Z) :
  length uint8Array mod 3 = 0 ->
  convertUint8ArrayToHexColorArray uint8Array
  = Normal ((fun k => rgbToHex (default 0%Z (uint8Array !! (3 * k)))
                               (default 0%Z (uint8Array !! (3 * k + 1)))
                               (default 0%Z (uint8Array !! (3 * k + 2))))
              <$> seq 0 (length uint8Array / 3)).
Proof.
  intros Hmod. unfold convertUint8ArrayToHexColorArray. rewrite Hmod.
  cbn [Nat.eqb negb].
  pose proof (Nat.div_mod_eq (length uint8Array) 3) as Hdm.
  replace ((length uint8Array + 2) / 3) with (length uint8Array / 3)
    by (apply (Nat.div_unique _ 3 _ 2); lia).
  apply mapM_Normal. apply Forall_forall. intros k Hk%elem_of_seq.
  destruct (lookup_lt_is_Some_2 uint8Array (3 * k) ltac:(lia)) as [r ->].
  destruct (lookup_lt_is_Some_2 uint8Array (3 * k + 1) ltac:(lia)) as [g ->].
  destruct (lookup_lt_is_Some_2 uint8Array (3 * k + 2) ltac:(lia)) as [b ->].
  reflexivity.
Qed.

Lemma Normal_inj {A} (x y : A) : @Normal A x = Normal y -> x = y.
Proof. congruence. Qed.

(** X11: [convertUint8ArrayToHexColorArray] throws exactly when the length
    of the array is not a multiple of 3.  Otherwise there is one colour for
    every three bytes, the colour of the bytes [r], [g], [b] at [3k],
    [3k+1], [3k+2] being [rgbToHex r g b], which is "#" followed by six
    lowercase hexadecimal digits. *)
Theorem convertUint8ArrayToHexColorArray_colors (uint8Array : list Z) :
  Forall isByte uint8Array ->
  match convertUint8ArrayToHexColorArray uint8Array with
  | Throw e =>
      length uint8Array mod 3 <> 0
      /\ e = Err "The length of the Uint8Array should be a multiple of 3."
  | Normal colors =>
      length uint8Array = 3 * length colors
      /\ forall k color, colors !! k = Some color ->
           exists r g b digits,
             uint8Array !! (3 * k) = Some r
             /\ uint8Array !! (3 * k + 1) = Some g
             /\ uint8Array !! (3 * k + 2) = Some b
             /\ color = rgbToHex r g b
             /\ color = "#" +:+ digits
             /\ String.length digits = 6
             /\ isHexString digits = true
  end.
Proof.
  intros Hbytes.
  destruct (decide (length uint8Array mod 3 = 0)) as [Hmod|Hmod].
  - rewrite (convertUint8ArrayToHexColorArray_run _ Hmod).
    pose proof (Nat.div_mod_eq (length uint8Array) 3) as Hdm.
    rewrite length_fmap, length_seq. split; [lia|].
    intros k color Hk. rewrite list_lookup_fmap in Hk.
    destruct (seq 0 (length uint8Array / 3) !! k) as [k'|] eqn:Hseq; [|discriminate].
    apply lookup_seq in Hseq as [-> Hlt]. change (0 + k) with k in Hk.
    cbn [fmap option_fmap option_map] in Hk. apply (inj Some) in Hk. subst color.
    destruct (lookup_lt_is_Some_2 uint8Array (3 * k) ltac:(lia)) as [r Hr].
    destruct (lookup_lt_is_Some_2 uint8Array (3 * k + 1) ltac:(lia)) as [g Hg].
    destruct (lookup_lt_is_Some_2 uint8Array (3 * k + 2) ltac:(lia)) as [b Hb].
    rewrite Hr, Hg, Hb. cbn [default].
    destruct (hex_digits r (proj1 (Forall_lookup _ _) Hbytes _ _ Hr)) as [Lr Xr].
    destruct (hex_digits g (proj1 (Forall_lookup _ _) Hbytes _ _ Hg)) as [Lg Xg].
    destruct (hex_digits b (proj1 (Forall_lookup _ _) Hbytes _ _ Hb)) as [Lb Xb].
    exists r, g, b, (padStart2 (toString16 r) +:+ padStart2 (toString16 g)
                     +:+ padStart2 (toString16 b)).
    repeat (split; [reflexivity|]).
    rewrite !length_string_app, !isHexString_app, Lr, Lg, Lb, Xr, Xg, Xb.
    split; reflexivity.
  - unfold convertUint8ArrayToHexColorArray.
    replace (length uint8Array mod 3 =? 0) with false
      by (symmetry; apply Nat.eqb_neq; exact Hmod).
    split; [exact Hmod|reflexivity].
Qed.

Lemma convertUint8ArrayToHexColorArray_colors_witness :
  match convertUint8ArrayToHexColorArray [255; 0; 10; 1; 2; 3]%Z with
  | Throw e =>
      length [255; 0; 10; 1; 2; 3]%Z mod 3 <> 0
      /\ e = Err "The length of the Uint8Array should be a multiple of 3."
  | Normal colors =>
      length [255; 0; 10; 1; 2; 3]%Z = 3 * length colors
      /\ forall k color, colors !! k = Some color ->
           exists r g b digits,
             [255; 0; 10; 1; 2; 3]%Z !! (3 * k) = Some r
             /\ [255; 0; 10; 1; 2; 3]%Z !! (3 * k + 1) = Some g
             /\ [255; 0; 10; 1; 2; 3]%Z !! (3 * k + 2) = Some b
             /\ color = rgbToHex r g b
             /\ color = "#" +:+ digits
             /\ String.length digits = 6
             /\ isHexString digits = true
  end.
Proof.
  apply (convertUint8ArrayToHexColorArray_colors [255; 0; 10; 1; 2; 3]%Z).
  repeat constructor; unfold isByte; lia.
Defined.

(** X12: the colours determine the bytes: two byte arrays that
    [convertUint8ArrayToHexColorArray] turns into the same colours are
    equal. *)
Theorem convertUint8ArrayToHexColorArray_injective (a b : list Z) colors :
  Forall isByte a -> Forall isByte b ->
  convertUint8ArrayToHexColorArray a = Normal colors ->
  convertUint8ArrayToHexColorArray b = Normal colors ->
  a = b.
Proof.
  intros Ha Hb Hca Hcb.
  assert (Hma : length a mod 3 = 0).
  { destruct (decide (length a mod 3 = 0)) as [H|H]; [exact H|].
    unfold convertUint8ArrayToHexColorArray in Hca.
    replace (length a mod 3 =? 0) with false in Hca
      by (symmetry; apply Nat.eqb_neq; exact H). discriminate. }
  assert (Hmb : length b mod 3 = 0).
  { destruct (decide (length b mod 3 = 0)) as [H|H]; [exact H|].
    unfold convertUint8ArrayToHexColorArray in Hcb.
    replace (length b mod 3 =? 0) with false in Hcb
      by (symmetry; apply Nat.eqb_neq; exact H). discriminate. }
  rewrite (convertUint8ArrayToHexColorArray_run _ Hma) in Hca.
  rewrite (convertUint8ArrayToHexColorArray_run _ Hmb) in Hcb.
  apply Normal_inj in Hca, Hcb.
  pose proof (Nat.div_mod_eq (length a) 3) as Hda.
  pose proof (Nat.div_mod_eq (length b) 3) as Hdb.
  assert (Hlen : length a / 3 = length b / 3).
  { pose proof (f_equal length Hca) as La. pose proof (f_equal length Hcb) as Lb.
    rewrite length_fmap, length_seq in La, Lb. congruence. }
  assert (Hk : forall k, k < length a / 3 ->
             a !! (3 * k) = b !! (3 * k)
             /\ a !! (3 * k + 1) = b !! (3 * k + 1)
             /\ a !! (3 * k + 2) = b !! (3 * k + 2)).
  { intros k Hlt.
    apply (f_equal (fun l : list string => l !! k)) in Hca, Hcb.
    rewrite list_lookup_fmap, lookup_seq_lt in Hca, Hcb by lia.
    change (0 + k) with k in Hca, Hcb.
    cbn [fmap option_fmap option_map] in Hca, Hcb.
    rewrite <- Hcb in Hca. apply (inj Some) in Hca. clear Hcb.
    destruct (lookup_lt_is_Some_2 a (3 * k) ltac:(lia)) as [r Hr].
    destruct (lookup_lt_is_Some_2 a (3 * k + 1) ltac:(lia)) as [g Hg].
    destruct (lookup_lt_is_Some_2 a (3 * k + 2) ltac:(lia)) as [c Hc].
    destruct (lookup_lt_is_Some_2 b (3 * k) ltac:(lia)) as [r' Hr'].
    destruct (lookup_lt_is_Some_2 b (3 * k + 1) ltac:(lia)) as [g' Hg'].
    destruct (lookup_lt_is_Some_2 b (3 * k + 2) ltac:(lia)) as [c' Hc'].
    rewrite Hr, Hg, Hc, Hr', Hg', Hc' in Hca |- *.
    cbn [default] in Hca.
    pose proof (proj1 (Forall_lookup _ _) Ha) as Ba.
    pose proof (proj1 (Forall_lookup _ _) Hb) as Bb.
    destruct (rgbToHex_inj r g c r' g' c') as (-> & -> & ->); eauto. }
  apply list_eq. intros i.
  destruct (decide (i < length a)) as [Hi|Hi].
  - pose proof (Nat.div_mod_eq i 3) as Hdi.
    pose proof (Nat.mod_upper_bound i 3 ltac:(lia)) as Hri.
    destruct (Hk (i / 3)) as (H0 & H1 & H2).
    { apply Nat.Div0.div_lt_upper_bound. lia. }
    destruct (i mod 3) as [|[|[|?]]] eqn:Hr; [| | |lia].
    + rewrite Nat.add_0_r in Hdi. rewrite Hdi. exact H0.
    + rewrite Hdi. exact H1.
    + rewrite Hdi. exact H2.
  - rewrite !lookup_ge_None_2 by lia. reflexivity.
Qed.

Lemma convertUint8ArrayToHexColorArray_injective_witness :
  convertUint8ArrayToHexColorArray [255; 0; 10]%Z = Normal ["#ff000a"]
  /\ [255; 0; 10]%Z = [255; 0; 10]%Z.
Proof.
  split; [reflexivity|].
  apply (convertUint8ArrayToHexColorArray_injective _ _ ["#ff000a"]).
  - repeat constructor; unfold isByte; lia.
  - repeat constructor; unfold isByte; lia.
  - reflexivity.
  - reflexivity.
Defined.

(** ** Frame identifiers *)

Lemma characterAt_table :
  forallb (fun i => (String.length (characterAt i) =? 1) && isHexString (characterAt i))
          (seq 0 16) = true.
Proof. vm_compute. reflexivity. Qed.

Lemma characterAt_digit (rnd : Random) (k : nat) :
  String.length (characterAt (rnd k mod String.length characters)) = 1
  /\ isHexString (characterAt (rnd k mod String.length characters)) = true.
Proof.
  pose proof (proj1 (forallb_forall _ _) characterAt_table
                (rnd k mod String.length characters)) as H.
  cbv beta in H.
  assert (Hlt : rnd k mod String.length characters < 16)
    by (apply Nat.mod_upper_bound; discriminate).
  specialize (H ltac:(apply in_seq; lia)).
  apply andb_prop in H as [H1 H2]. apply Nat.eqb_eq in H1. split; assumption.
Qed.

Lemma genFrameIDLoop_hex (rnd : Random) (n : nat) : forall k result,
  String.length (genFrameIDLoop rnd k n result) = String.length result + n
  /\ isHexString (genFrameIDLoop rnd k n result) = isHexString result.
Proof.
  induction n as [|n IH]; intros k result; cbn [genFrameIDLoop].
  - split; [lia|reflexivity].
  - destruct (IH (S k) (result +:+ characterAt (rnd k mod String.length characters)))
      as [-> ->].
    destruct (characterAt_digit rnd k) as [H1 H2].
    rewrite length_string_app, isHexString_app, H1, H2, andb_true_r.
    split; [lia|reflexivity].
Qed.

(** X13: asked for a length of at least 1, [genFrameID] returns, whatever
    the random draws are, a string of exactly that length made of the
    characters 0-9 and a-f; asked for length 0 it throws. *)
Theorem genFrameID_hex_string (rnd : Random) (k length : nat) :
  (1 <= length ->
   exists id,
     genFrameID rnd k length = Normal id
     /\ String.length id = length
     /\ isHexString id = true)
  /\ (length = 0 -> genFrameID rnd k length = Throw (Err "Length must be at least 1")).
Proof.
  unfold genFrameID. split.
  - intros Hlen. replace (length <? 1) with false by (symmetry; apply Nat.ltb_ge; lia).
    eexists. split; [reflexivity|].
    destruct (genFrameIDLoop_hex rnd length k "") as [-> ->]. split; reflexivity.
  - intros ->. reflexivity.
Qed.

Lemma genFrameID_hex_string_witness :
  (exists id,
     genFrameID (countingRandom 7) 0 FRAME_ID_LENGTH = Normal id
     /\ String.length id = FRAME_ID_LENGTH
     /\ isHexString id = true)
  /\ genFrameID (countingRandom 7) 0 0 = Throw (Err "Length must be at least 1").
Proof.
  split.
  - apply (proj1 (genFrameID_hex_string (countingRandom 7) 0 FRAME_ID_LENGTH)).
    unfold FRAME_ID_LENGTH. lia.
  - apply (proj2 (genFrameID_hex_string (countingRandom 7) 0 0)). reflexivity.
Defined.

(** ** The bytes of an accepted frame *)

Lemma toUint8_floor (q : Q) :
  Qle_bool 0 q = true -> Qle_bool q 255 = true ->
  toUint8 q = Qfloor q /\ isByte (Qfloor q).
Proof.
  intros H0%Qle_bool_iff H255%Qle_bool_iff.
  unfold toUint8, isByte. destruct q as [n d]. unfold Qle in *. cbn in *.
  assert (Hn : (0 <= n)%Z) by lia.
  assert (Hd : (0 <= n / Z.pos d < 256)%Z).
  { split; [apply Z.div_pos; lia|]. apply Z.div_lt_upper_bound; lia. }
  rewrite Z.quot_div_nonneg by lia.
  rewrite Z.mod_small by exact Hd. split; [reflexivity|exact Hd].
Qed.

Lemma objectToArray_Normal frameObject bytes :
  objectToArray frameObject = Normal bytes ->
  frameAccepted frameObject = true /\ bytes = frameBytes frameObject.
Proof.
  intros H. destruct (frameAccepted frameObject) eqn:Hacc.
  - rewrite (objectToArray_accepted _ Hacc) in H. split; congruence.
  - destruct (objectToArray_rejected _ Hacc) as [e He]. congruence.
Qed.

(** X14: whenever [objectToArray] returns, the frame object has exactly
    768 keys and the result exactly 768 bytes; the value under every key is
    a number between 0 and 255, and the byte at the position of the key is
    that number with its fraction dropped. *)
Theorem objectToArray_bytes (frameObject : FrameObject) (bytes : list Z) :
  objectToArray frameObject = Normal bytes ->
  length (keys frameObject) = 768
  /\ length bytes = 768
  /\ Forall isByte bytes
  /\ forall i key, keys frameObject !! i = Some key ->
       exists q,
         getProperty frameObject key = Some (JNum q)
         /\ (0 <= q)%Q /\ (q <= 255)%Q
         /\ bytes !! i = Some (Qfloor q).
Proof.
  intros [Hacc ->]%objectToArray_Normal.
  unfold frameAccepted in Hacc. apply andb_prop in Hacc as [Hlen Hall].
  apply Nat.eqb_eq in Hlen. change (256 * 3) with 768 in Hlen.
  assert (Hkey : forall i key, keys frameObject !! i = Some key ->
            exists q, getProperty frameObject key = Some (JNum q)
                      /\ Qle_bool 0 q = true /\ Qle_bool q 255 = true).
  { intros i key Hi. pose proof (forallb_lookup _ _ _ _ Hall Hi) as H.
    cbv beta in H. unfold invalidChannel in H.
    destruct (getProperty frameObject key) as [[q| | | |]|]; try discriminate.
    exists q. split; [reflexivity|].
    destruct (Qle_bool 0 q), (Qle_bool q 255); try discriminate. split; reflexivity. }
  split; [exact Hlen|]. split; [rewrite length_frameBytes; exact Hlen|]. split.
  - apply Forall_lookup. intros i z Hz. unfold frameBytes in Hz.
    rewrite list_lookup_fmap in Hz.
    destruct (keys frameObject !! i) as [key|] eqn:Hi; [|discriminate].
    destruct (Hkey i key Hi) as (q & Hq & H0 & H255). cbn in Hz. rewrite Hq in Hz.
    cbn in Hz. injection Hz as <-.
    destruct (toUint8_floor q H0 H255) as [-> Hb]. exact Hb.
  - intros i key Hi. destruct (Hkey i key Hi) as (q & Hq & H0 & H255).
    exists q. split; [exact Hq|].
    split; [apply Qle_bool_iff; exact H0|]. split; [apply Qle_bool_iff; exact H255|].
    unfold frameBytes. rewrite list_lookup_fmap, Hi. cbn. rewrite Hq. cbn.
    f_equal. apply toUint8_floor; assumption.
Qed.

Lemma objectToArray_bytes_witness :
  length (keys (uniformFrame 768 (509 # 2))) = 768
  /\ length (replicate 768 254%Z) = 768
  /\ Forall isByte (replicate 768 254%Z)
  /\ forall i key, keys (uniformFrame 768 (509 # 2)) !! i = Some key ->
       exists q,
         getProperty (uniformFrame 768 (509 # 2)) key = Some (JNum q)
         /\ (0 <= q)%Q /\ (q <= 255)%Q
         /\ replicate 768 254%Z !! i = Some (Qfloor q).
Proof.
  apply (objectToArray_bytes (uniformFrame 768 (509 # 2)) (replicate 768 254%Z)).
  vm_compute. reflexivity.
Defined.

(** ** The payload check against the conversion *)

Lemma getProperty_Some_key {V} (props : list (string * V)) key v :
  getProperty props key = Some v -> key ∈ props.*1.
Proof.
  induction props as [|[k x] props IH]; cbn; [discriminate|].
  destruct (String.eqb k key) eqn:Hk.
  - apply String.eqb_eq in Hk as ->. intros _. apply list_elem_of_here.
  - intros H. apply list_elem_of_further. exact (IH H).
Qed.

Lemma length_256_refused (frame : FrameObject) :
  strictEquals256 (getProperty frame "length") = true ->
  frameAccepted frame = false.
Proof.
  intros H. unfold strictEquals256 in H.
  destruct (getProperty frame "length") as [[q| | | |]|] eqn:Hget; try discriminate.
  apply Qeq_bool_iff in H.
  unfold frameAccepted. apply andb_false_iff. right.
  destruct (forallb _ (keys frame)) eqn:Hall; [|reflexivity].
  rewrite forallb_forall in Hall.
  specialize (Hall "length"
                (proj1 (list_elem_of_In _ _) (getProperty_Some_key _ _ _ Hget))).
  rewrite Hget in Hall. cbn in Hall.
  assert (Hle : Qle_bool q 255 = false).
  { destruct (Qle_bool q 255) eqn:Hq; [|reflexivity].
    apply Qle_bool_iff in Hq. rewrite H in Hq. exfalso. revert Hq.
    unfold Qle. cbn. lia. }
  rewrite Hle, orb_true_r in Hall. discriminate.
Qed.

Lemma verifyAnimationChecks_refused (animation : option AnimationState) :
  verifyAnimationChecks animation = Normal tt ->
  animationAccepted animation = false.
Proof.
  unfold verifyAnimationChecks, property, deref, forUpTo.
  destruct animation as [a|]; cbn; [|discriminate].
  destruct (as_animationID a); cbn; [|discriminate].
  destruct (as_frameDuration a); cbn; [|discriminate].
  destruct (as_repeatCount a); cbn; [|discriminate].
  destruct (as_frames a) as [[|frame frames]|]; cbn; try discriminate.
  destruct (strictEquals256 (getProperty frame "length")) eqn:H256;
    cbn; [|discriminate].
  intros _. rewrite (length_256_refused frame H256). reflexivity.
Qed.

Lemma forallb_false_lookup {A} (p : A -> bool) (l : list A) i x :
  l !! i = Some x -> p x = false -> forallb p l = false.
Proof.
  revert i. induction l as [|y l IH]; intros [|i] Hi Hp; cbn in *; try discriminate.
  - injection Hi as ->. rewrite Hp. reflexivity.
  - rewrite (IH i Hi Hp). apply andb_false_r.
Qed.

(** X15: the checks written in [verifyAnimationJson] and the conversion of
    the POST handler exclude each other.  An animation that passes every
    one of those checks has frames whose [length] property is 256, and
    [objectToArray] refuses such a frame object; so a POST whose payload
    holds such an animation, at any position, ends in an exception and
    changes nothing. *)
Theorem postData_refuses_what_the_checks_approve
    (rnd : Random) (faults : Faults) (payload : Payload) (w : World)
    (i : nat) (animation : option AnimationState) :
  payload !! i = Some animation ->
  verifyAnimationChecks animation = Normal tt ->
  animationAccepted animation = false
  /\ exists e, postData rnd faults payload w = (Throw e, w).
Proof.
  intros Hi Hchecks.
  pose proof (verifyAnimationChecks_refused animation Hchecks) as Hrefused.
  split; [exact Hrefused|].
  apply postData_rejected. exact (forallb_false_lookup _ _ _ _ Hi Hrefused).
Qed.

Lemma postData_refuses_what_the_checks_approve_witness :
  animationAccepted (sampleAnimation "a" [[("length", JNum 256)]]) = false
  /\ exists e,
       postData constantRandom noFaults
         [sampleAnimation "a" [[("length", JNum 256)]]] emptyWorld
       = (Throw e, emptyWorld).
Proof.
  apply (postData_refuses_what_the_checks_approve constantRandom noFaults
           [sampleAnimation "a" [[("length", JNum 256)]]] emptyWorld 0
           (sampleAnimation "a" [[("length", JNum 256)]])).
  - reflexivity.
  - reflexivity.
Defined.

(** ** The metadata read *)

Lemma forEach_concat {A B} (f : B -> Completion unit) (g : A -> list B) (l : list A) :
  forEach (fun x => forEach f (g x)) l = forEach f (concat (g <$> l)).
Proof.
  induction l as [|x l IH]; [reflexivity|].
  cbn [forEach fmap list_fmap concat]. rewrite IH.
  induction (g x) as [|y ys IHy]; [reflexivity|].
  cbn [forEach app]. destruct (f y) as [[]|e]; [exact IHy|reflexivity].
Qed.

Lemma forEach_assert_ok {B} (cond : B -> bool) (msg : B -> string) (l : list B) :
  Forall (fun x => cond x = true) l ->
  forEach (fun x => assertTrue (cond x) (msg x)) l = Normal tt.
Proof.
  induction 1 as [|x l Hx _ IH]; [reflexivity|].
  cbn [forEach]. rewrite Hx. exact IH.
Qed.

Lemma forEach_assert_fails {B} (cond : B -> bool) (msg : B -> string)
    (good : list B) (x : B) (rest : list B) :
  Forall (fun x => cond x = true) good -> cond x = false ->
  forEach (fun x => assertTrue (cond x) (msg x)) (good ++ x :: rest)
  = assertTrue false (msg x).
Proof.
  induction 1 as [|y l Hy _ IH]; intros Hx.
  - cbn [app forEach]. rewrite Hx. reflexivity.
  - cbn [app forEach]. rewrite Hy. exact (IH Hx).
Qed.

Lemma getMetadata_run (w : World) :
  getMetadata w
  = match forEach (fun frameID =>
                     assertTrue (String.length frameID =? FRAME_ID_LENGTH)
                       ("Frame ID " +:+ frameID +:+ " is not the correct length"))
                  (concat (frameOrder <$> metadataCache w)) with
    | Normal _ => (Normal (sendJson (JsonMetadataArray (metadataCache w))), w)
    | Throw e => (Throw e, w)
    end.
Proof.
  unfold getMetadata, getMetadataCache, lift. unfold mbind, M_bind.
  rewrite (forEach_concat _ frameOrder).
  match goal with |- context [forEach ?f ?l] => destruct (forEach f l) end;
    reflexivity.
Qed.

(** X16: the metadata read changes nothing.  It answers with the cached
    metadata array exactly when every frameID of every [frameOrder] in the
    cache, those beyond [totalFrames] included, has the configured length;
    otherwise it throws, naming the first frameID that has not. *)
Theorem getMetadata_checks_every_frameID (w : World) :
  (Forall (fun fid => String.length fid = FRAME_ID_LENGTH)
          (concat (frameOrder <$> metadataCache w)) ->
   getMetadata w = (Normal (sendJson (JsonMetadataArray (metadataCache w))), w))
  /\ (forall good fid rest,
        concat (frameOrder <$> metadataCache w) = good ++ fid :: rest ->
        Forall (fun fid => String.length fid = FRAME_ID_LENGTH) good ->
        String.length fid <> FRAME_ID_LENGTH ->
        getMetadata w
        = (Throw (Err ("Frame ID " +:+ fid +:+ " is not the correct length")), w)).
Proof.
  split.
  - intros Hall. rewrite getMetadata_run, forEach_assert_ok; [reflexivity|].
    eapply Forall_impl; [exact Hall|]. intros fid H. apply Nat.eqb_eq. exact H.
  - intros good fid rest Hids Hgood Hbad. rewrite getMetadata_run, Hids.
    rewrite (forEach_assert_fails (fun fid => String.length fid =? FRAME_ID_LENGTH)
               (fun fid => "Frame ID " +:+ fid +:+ " is not the correct length"));
      [reflexivity| |apply Nat.eqb_neq; exact Hbad].
    eapply Forall_impl; [exact Hgood|]. intros x H. apply Nat.eqb_eq. exact H.
Qed.

Lemma getMetadata_checks_every_frameID_witness :
  let w := mkWorld [] [mkMetadata (Some "a") (Some 100%Q) (Some 1%Q) 1
                         ["aaaaaa"; "bbb"; "c"]] (mkStore [] ∅) in
  getMetadata w = (Throw (Err "Frame ID bbb is not the correct length"), w).
Proof.
  cbn zeta.
  apply (proj2 (getMetadata_checks_every_frameID
                  (mkWorld [] [mkMetadata (Some "a") (Some 100%Q) (Some 1%Q) 1
                                 ["aaaaaa"; "bbb"; "c"]] (mkStore [] ∅)))
               ["aaaaaa"] "bbb" ["c"]).
  - reflexivity.
  - repeat constructor.
  - simpl. unfold FRAME_ID_LENGTH. lia.
Defined.

(** ** The store after a POST *)

Lemma sweptDocs_cons faults frame frames docs :
  sweptDocs faults (frame :: frames) docs
  = sweptDocs faults frames
      (if faults (OpInsertFrame (frameID frame)) then docs
       else <[frameID frame := (fr_animationID frame, data frame)]> docs).
Proof. reflexivity. Qed.

Lemma forEachM_insert_frames_docs faults (frames : list Frame) : forall w,
  forEachM (fun frame =>
              tryCatch (insertFrame faults (fr_animationID frame) (frameID frame)
                          (data frame))
                       (fun _ => mret tt))
           frames w
  = (Normal tt,
     mkWorld (animationCache w) (metadataCache w)
             (mkStore (metadataArray (db w))
                      (sweptDocs faults frames (frameDocs (db w))))).
Proof.
  induction frames as [|frame frames IH]; intros w.
  - cbn. unfold mret, M_ret. rewrite store_eta, world_eta. reflexivity.
  - cbn [forEachM]. unfold mbind at 1, M_bind at 1.
    rewrite tryCatch_insertFrame, sweptDocs_cons.
    destruct (faults (OpInsertFrame (frameID frame))); [apply IH|].
    rewrite IH. reflexivity.
Qed.

Lemma postData_world rnd faults payload w :
  postData rnd faults payload w
  = match logFirstAnimation payload with
    | Throw e => (Throw e, w)
    | Normal _ =>
        match buildCaches rnd payload 0 with
        | Throw e => (Throw e, w)
        | Normal (metadata, frames) =>
            (Normal (sendStatus (if faults OpReplaceMetadataArray then 501 else 200)),
             mkWorld frames metadata
               (mkStore (if faults OpReplaceMetadataArray then metadataArray (db w)
                         else metadata)
                        (sweptDocs faults frames (frameDocs (db w)))))
        end
    end.
Proof.
  rewrite postData_run.
  destruct (logFirstAnimation payload) as [[]|e]; [|reflexivity].
  destruct (buildCaches rnd payload 0) as [[metadata frames]|e]; [|reflexivity].
  unfold pushAnimationCacheToMongo, getAnimationCache. unfold mbind, M_bind.
  rewrite forEachM_insert_frames_docs.
  destruct (faults OpReplaceMetadataArray); reflexivity.
Qed.

Lemma sweptDocs_app faults frames1 frames2 docs :
  sweptDocs faults (frames1 ++ frames2) docs
  = sweptDocs faults frames2 (sweptDocs faults frames1 docs).
Proof. unfold sweptDocs. apply foldl_app. Qed.

Lemma sweptDocs_is_Some faults frames : forall docs key,
  is_Some (docs !! key) -> is_Some (sweptDocs faults frames docs !! key).
Proof.
  induction frames as [|frame frames IH]; intros docs key Hkey; [exact Hkey|].
  rewrite sweptDocs_cons. apply IH.
  destruct (faults (OpInsertFrame (frameID frame))); [exact Hkey|].
  destruct (decide (frameID frame = key)) as [->|Hne].
  - rewrite lookup_insert_eq. eauto.
  - rewrite lookup_insert_ne by exact Hne. exact Hkey.
Qed.

Lemma sweptDocs_other faults frames : forall docs key,
  key ∉ frameID <$> frames -> sweptDocs faults frames docs !! key = docs !! key.
Proof.
  induction frames as [|frame frames IH]; intros docs key Hkey; [reflexivity|].
  rewrite sweptDocs_cons. cbn in Hkey. apply not_elem_of_cons in Hkey as [Hne Hkey].
  rewrite (IH _ _ Hkey).
  destruct (faults (OpInsertFrame (frameID frame))); [reflexivity|].
  apply lookup_insert_ne. congruence.
Qed.

Lemma sweptDocs_stored faults frames : forall docs i frame,
  (forall fid, faults (OpInsertFrame fid) = false) ->
  NoDup (frameID <$> frames) ->
  frames !! i = Some frame ->
  sweptDocs faults frames docs !! frameID frame
  = Some (fr_animationID frame, data frame).
Proof.
  induction frames as [|f frames IH]; intros docs i frame Hfaults Hnodup Hi;
    [discriminate|].
  rewrite sweptDocs_cons. rewrite Hfaults.
  cbn in Hnodup. apply NoDup_cons in Hnodup as [Hnotin Hnodup].
  destruct i as [|i]; cbn in Hi.
  - injection Hi as ->. rewrite (sweptDocs_other _ _ _ _ Hnotin).
    apply lookup_insert_eq.
  - exact (IH _ i frame Hfaults Hnodup Hi).
Qed.

(** X17: a POST never removes a frame document from the store, whatever it
    is sent and whichever store operations fail: every frameID stored
    before is still stored afterwards, and the document under a frameID
    that no frame of the cache carries afterwards is what it was.  The
    stored metadata array is left as it was or is the new metadata cache. *)
Theorem postData_keeps_stored_frames
    (rnd : Random) (faults : Faults) (payload : Payload) (w : World) :
  let w' := (postData rnd faults payload w).2 in
  (forall key, is_Some (frameDocs (db w) !! key) -> is_Some (frameDocs (db w') !! key))
  /\ (forall key, key ∉ frameID <$> animationCache w' ->
        frameDocs (db w') !! key = frameDocs (db w) !! key)
  /\ (metadataArray (db w') = metadataArray (db w)
      \/ metadataArray (db w') = metadataCache w').
Proof.
  cbn zeta. rewrite postData_world.
  destruct (logFirstAnimation payload) as [[]|e];
    [|cbn; split; [auto|split; [reflexivity|left; reflexivity]]].
  destruct (buildCaches rnd payload 0) as [[metadata frames]|e];
    [|cbn; split; [auto|split; [reflexivity|left; reflexivity]]].
  cbn [snd db frameDocs metadataArray animationCache metadataCache].
  split; [intros key; apply sweptDocs_is_Some|].
  split; [intros key; apply sweptDocs_other|].
  destruct (faults OpReplaceMetadataArray); [left|right]; reflexivity.
Qed.

Lemma postData_keeps_stored_frames_witness :
  let w := (postData (countingRandom 0) noFaults
              [sampleAnimation "a" [uniformFrame 768 7]] emptyWorld).2 in
  let w' := (postData (countingRandom 6) noFaults
               [sampleAnimation "b" [uniformFrame 768 9]] w).2 in
  is_Some (frameDocs (db w') !! Some "012345").
Proof.
  cbn zeta.
  apply (proj1 (postData_keeps_stored_frames (countingRandom 6) noFaults
                  [sampleAnimation "b" [uniformFrame 768 9]]
                  (postData (countingRandom 0) noFaults
                     [sampleAnimation "a" [uniformFrame 768 7]] emptyWorld).2)).
  vm_compute. eauto.
Defined.

(** ** A POST followed by reads *)

Lemma generatedIDs_hex rnd n : forall k,
  Forall (fun fid => String.length fid = FRAME_ID_LENGTH /\ isHexString fid = true)
         (generatedIDs rnd k n).
Proof.
  induction n as [|n IH]; intros k; cbn [generatedIDs]; constructor; [|apply IH].
  destruct (genFrameIDLoop_hex rnd FRAME_ID_LENGTH k "") as [-> ->].
  split; reflexivity.
Qed.

Lemma buildCaches_Normal rnd payload k metadata frames :
  buildCaches rnd payload k = Normal (metadata, frames) ->
  forallb animationAccepted payload = true
  /\ BuiltFrom rnd k payload metadata frames.
Proof.
  intros Hbuild. destruct (forallb animationAccepted payload) eqn:Hall.
  - destruct (buildCaches_accepted rnd payload k Hall) as (md & fr & Hb & Hbuilt).
    rewrite Hbuild in Hb. injection Hb as <- <-. split; [reflexivity|exact Hbuilt].
  - destruct (buildCaches_rejected rnd payload k Hall) as [e He]. congruence.
Qed.

(** The world after a POST that was answered. *)
Lemma postData_answered rnd faults payload w response :
  (postData rnd faults payload w).1 = Normal response ->
  exists metadata frames,
    buildCaches rnd payload 0 = Normal (metadata, frames)
    /\ BuiltFrom rnd 0 payload metadata frames
    /\ 0 < length payload
    /\ postData rnd faults payload w
       = (Normal (sendStatus (if faults OpReplaceMetadataArray then 501 else 200)),
          mkWorld frames metadata
            (mkStore (if faults OpReplaceMetadataArray then metadataArray (db w)
                      else metadata)
                     (sweptDocs faults frames (frameDocs (db w))))).
Proof.
  rewrite postData_world. unfold logFirstAnimation.
  destruct payload as [|first rest]; [discriminate|].
  fold (logFirstAnimation (first :: rest)).
  destruct (logFirstAnimation (first :: rest)) as [[]|e]; [|discriminate].
  destruct (buildCaches rnd (first :: rest) 0) as [[metadata frames]|e] eqn:Hbuild;
    [|discriminate].
  intros _. exists metadata, frames. split; [reflexivity|].
  split; [exact (proj2 (buildCaches_Normal _ _ _ _ _ Hbuild))|].
  split; [cbn; lia|reflexivity].
Qed.

(** X18: after every POST that was answered, with 200 or with 501, the
    metadata read succeeds: the new cache has one entry per animation of the
    payload, and every frameID in it is a string of six characters 0-9,
    a-f. *)
Theorem getMetadata_after_postData
    (rnd : Random) (faults : Faults) (payload : Payload) (w : World)
    (response : Response) :
  (postData rnd faults payload w).1 = Normal response ->
  let w' := (postData rnd faults payload w).2 in
  getMetadata w' = (Normal (sendJson (JsonMetadataArray (metadataCache w'))), w')
  /\ length (metadataCache w') = length payload
  /\ Forall (fun fid => String.length fid = FRAME_ID_LENGTH /\ isHexString fid = true)
            (concat (frameOrder <$> metadataCache w')).
Proof.
  intros Hanswered.
  destruct (postData_answered _ _ _ _ _ Hanswered)
    as (metadata & frames & _ & (Hlen & _ & Hids & _) & _ & ->).
  cbn zeta. cbn [snd metadataCache].
  assert (Hhex : Forall (fun fid => String.length fid = FRAME_ID_LENGTH
                                    /\ isHexString fid = true)
                        (concat (frameOrder <$> metadata))).
  { rewrite Hids. apply generatedIDs_hex. }
  split; [|split; [exact Hlen|exact Hhex]].
  rewrite getMetadata_run. cbn [metadataCache].
  rewrite forEach_assert_ok; [reflexivity|].
  eapply Forall_impl; [exact Hhex|]. intros fid [H _]. apply Nat.eqb_eq. exact H.
Qed.

Lemma getMetadata_after_postData_witness :
  let w' := (postData (countingRandom 0) noFaults
               [sampleAnimation "a" [uniformFrame 768 7; uniformFrame 768 9]]
               emptyWorld).2 in
  getMetadata w' = (Normal (sendJson (JsonMetadataArray (metadataCache w'))), w')
  /\ length (metadataCache w') = 1
  /\ Forall (fun fid => String.length fid = FRAME_ID_LENGTH /\ isHexString fid = true)
            (concat (frameOrder <$> metadataCache w')).
Proof.
  apply (getMetadata_after_postData (countingRandom 0) noFaults
           [sampleAnimation "a" [uniformFrame 768 7; uniformFrame 768 9]]
           emptyWorld (sendStatus 200)).
  vm_compute. reflexivity.
Defined.

Lemma getFrameData_run (faults : Faults) (frameId : string) (w : World) :
  getFrameData faults frameId w
  = (Normal
       (if String.eqb frameId "" then mkResponse 400 (Text "Frame ID is required.")
        else if faults (OpFetchFrame (Some frameId))
             then mkResponse 500 (Text "Internal Server Error")
             else match frameDocs (db w) !! Some frameId with
                  | Some (_, bytes) => mkResponse 200 (Octets bytes)
                  | None => mkResponse 404 (Text "Frame not found.")
                  end),
     w).
Proof.
  unfold getFrameData.
  destruct (String.eqb frameId ""); [reflexivity|].
  unfold fetchFrame, dbOperation. run_M.
  destruct (faults (OpFetchFrame (Some frameId))); [reflexivity|].
  cbn. rewrite world_eta.
  destruct (frameDocs (db w) !! Some frameId) as [[a bytes]|]; reflexivity.
Qed.

Lemma framesOf_768 animationID frames : forall ids frame,
  forallb frameAccepted frames = true ->
  frame ∈ framesOf animationID ids frames -> length (data frame) = 768.
Proof.
  unfold framesOf. induction frames as [|f frames IH]; intros [|fid ids] frame Hall Hin;
    cbn in *; try (apply elem_of_nil in Hin; contradiction).
  apply andb_prop in Hall as [Hf Hall].
  apply elem_of_cons in Hin as [->|Hin]; [|exact (IH _ _ Hall Hin)].
  cbn. rewrite length_frameBytes.
  apply andb_prop in Hf as [Hlen _]. apply Nat.eqb_eq in Hlen. exact Hlen.
Qed.

Lemma buildCaches_768 rnd payload : forall k metadata frames,
  buildCaches rnd payload k = Normal (metadata, frames) ->
  Forall (fun frame => length (data frame) = 768) frames.
Proof.
  induction payload as [|entry payload IH]; intros k metadata frames Hbuild.
  - cbn in Hbuild. injection Hbuild as <- <-. constructor.
  - destruct (buildCaches_Normal _ _ _ _ _ Hbuild) as [Hall _].
    cbn in Hall. apply andb_prop in Hall as [Hentry Hall].
    destruct entry as [a|]; [|discriminate]. cbn in Hentry.
    destruct (as_frames a) as [clientFrames|] eqn:Hfs; [|discriminate].
    rewrite (buildCaches_cons _ _ _ _ _ Hfs Hentry) in Hbuild.
    destruct (buildCaches rnd payload (k + FRAME_ID_LENGTH * length clientFrames))
      as [[md fr]|e] eqn:Hrest; [|discriminate].
    cbn in Hbuild. injection Hbuild as <- <-.
    apply Forall_app. split; [|exact (IH _ _ _ Hrest)].
    apply Forall_forall. intros frame Hin. exact (framesOf_768 _ _ _ _ Hentry Hin).
Qed.



(** ** Start-up on a store that holds metadata *)

Lemma load_loop_complete faults (slots : list (Metadata * nat)) : forall w,
  (forall fid, faults (OpFetchFrame fid) = false) ->
  Forall (fun slot => exists a bytes,
            frameDocs (db w) !! slotFrameID slot = Some (a, bytes)
            /\ length bytes = 768) slots ->
  forEachM (fun slot => loadFrameSlot faults slot.1 slot.2) slots w
  = (Normal tt,
     mkWorld (animationCache w ++ (loadedFrame (db w) <$> slots))
             (metadataCache w) (db w)).
Proof.
  induction slots as [|[m j] slots IH]; intros w Hfaults Hall.
  - cbn. unfold mret, M_ret. rewrite app_nil_r, world_eta. reflexivity.
  - apply Forall_cons in Hall as [(a & bytes & Hdoc & Hlen) Hall].
    cbn [forEachM fst snd]. unfold mbind, M_bind.
    rewrite loadFrameSlot_run, Hfaults.
    unfold slotFrameID in Hdoc. cbn [fst snd] in Hdoc. rewrite Hdoc, Hlen.
    change (768 =? FRAME_PIXEL_COUNT * 3) with true. cbn match.
    rewrite IH by assumption. cbn [animationCache metadataCache db].
    rewrite <- app_assoc. cbn [fmap list_fmap app].
    unfold loadedFrame at 2, slotFrameID. cbn [fst snd]. rewrite Hdoc.
    reflexivity.
Qed.

(** X20: start-up on a store that already holds metadata never writes to
    the store, whichever operations fail, and never touches the test data:
    the store afterwards is the store before, and [metadataCache] is what it
    was or the stored metadata array. *)
Theorem connectToDbAndInitCache_keeps_store
    (faults : Faults) (test : TestData) (w : World) :
  0 < length (metadataArray (db w)) ->
  let r := connectToDbAndInitCache faults test w in
  db r.2 = db w
  /\ (metadataCache r.2 = metadataCache w
      \/ metadataCache r.2 = metadataArray (db w)).
Proof.
  intros Hlen. cbn zeta. unfold connectToDbAndInitCache. unfold mbind, M_bind.
  rewrite (initMetadataCache_stored faults test w Hlen).
  destruct (faults OpConnect || faults OpFetchMetadataArray);
    [split; [reflexivity|left; reflexivity]|].
  rewrite forEachFrameSlot_run.
  match goal with |- context [forEachM _ ?slots ?w1] =>
    destruct (load_loop faults slots w1) as (loaded & Hmd & Hdb & _) end.
  cbn zeta in Hmd, Hdb. rewrite Hmd, Hdb. split; [reflexivity|right; reflexivity].
Qed.

Lemma connectToDbAndInitCache_keeps_store_witness :
  let w := mkWorld [] [] storeMissingSecondFrame in
  let r := connectToDbAndInitCache noFaults noTestData w in
  db r.2 = db w
  /\ (metadataCache r.2 = metadataCache w
      \/ metadataCache r.2 = metadataArray (db w)).
Proof.
  apply (connectToDbAndInitCache_keeps_store noFaults noTestData
           (mkWorld [] [] storeMissingSecondFrame)).
  simpl. lia.
Defined.

Lemma connectToDbAndInitCache_complete faults test w :
  0 < length (metadataArray (db w)) ->
  faults OpConnect = false ->
  faults OpFetchMetadataArray = false ->
  (forall fid, faults (OpFetchFrame fid) = false) ->
  Forall (fun slot => exists a bytes,
            frameDocs (db w) !! slotFrameID slot = Some (a, bytes)
            /\ length bytes = 768)
         (frameSlots (metadataArray (db w))) ->
  connectToDbAndInitCache faults test w
  = (Normal tt,
     mkWorld (animationCache w
              ++ (loadedFrame (db w) <$> frameSlots (metadataArray (db w))))
             (metadataArray (db w)) (db w)).
Proof.
  intros Hlen Hconnect Hfetch Hfaults Hall.
  unfold connectToDbAndInitCache. unfold mbind, M_bind.
  rewrite (initMetadataCache_stored faults test w Hlen), Hconnect, Hfetch.
  cbn [orb]. rewrite forEachFrameSlot_run. cbn [metadataCache].
  rewrite load_loop_complete by assumption. reflexivity.
Qed.

(** X21: start-up succeeds on a consistent store.  When the store holds
    metadata, no store operation fails and under the frameID of every slot
    (every position below [totalFrames] of every entry) a frame of 768 bytes
    is stored, start-up returns, [metadataCache] is the stored metadata
    array and [animationCache] has grown by one frame per slot, in order,
    with the frameID and the animationID of the slot and the stored
    bytes. *)
Theorem connectToDbAndInitCache_loads_store
    (faults : Faults) (test : TestData) (w : World) :
  0 < length (metadataArray (db w)) ->
  faults OpConnect = false ->
  faults OpFetchMetadataArray = false ->
  (forall fid, faults (OpFetchFrame fid) = false) ->
  Forall (fun slot => exists a bytes,
            frameDocs (db w) !! slotFrameID slot = Some (a, bytes)
            /\ length bytes = 768)
         (frameSlots (metadataArray (db w))) ->
  connectToDbAndInitCache faults test w
  = (Normal tt,
     mkWorld (animationCache w
              ++ (loadedFrame (db w) <$> frameSlots (metadataArray (db w))))
             (metadataArray (db w)) (db w)).
Proof. exact (connectToDbAndInitCache_complete faults test w). Qed.

Lemma connectToDbAndInitCache_loads_store_witness :
  let w := mkWorld [] [] storeShortTotalFrames in
  connectToDbAndInitCache noFaults noTestData w
  = (Normal tt,
     mkWorld (animationCache w
              ++ (loadedFrame (db w) <$> frameSlots (metadataArray (db w))))
             (metadataArray (db w)) (db w)).
Proof.
  apply (connectToDbAndInitCache_loads_store noFaults noTestData
           (mkWorld [] [] storeShortTotalFrames)).
  - simpl. lia.
  - reflexivity.
  - reflexivity.
  - reflexivity.
  - repeat constructor. exists (Some "a"), (replicate 768 5%Z).
    split; vm_compute; reflexivity.
Defined.

(** ** A POST followed by a restart *)

Lemma framesOf_lookup animationID ids frames j fid f :
  ids !! j = Some fid -> frames !! j = Some f ->
  framesOf animationID ids frames !! j
  = Some (mkFrame (Some fid) animationID (frameBytes f)).
Proof.
  intros Hid Hf. unfold framesOf. rewrite lookup_zip_with, Hid. cbn. rewrite Hf.
  reflexivity.
Qed.

Lemma frameSlots_cons m metadata :
  frameSlots (m :: metadata)
  = ((fun j => (m, j)) <$> seq 0 (totalFrames m)) ++ frameSlots metadata.
Proof. reflexivity. Qed.

Lemma buildCaches_loaded rnd payload : forall k metadata frames store,
  buildCaches rnd payload k = Normal (metadata, frames) ->
  (forall frame, frame ∈ frames ->
     frameDocs store !! frameID frame = Some (fr_animationID frame, data frame)) ->
  loadedFrame store <$> frameSlots metadata = frames.
Proof.
  induction payload as [|entry payload IH]; intros k metadata frames store Hbuild Hdocs.
  - cbn in Hbuild. injection Hbuild as <- <-. reflexivity.
  - destruct (buildCaches_Normal _ _ _ _ _ Hbuild) as [Hall _].
    cbn in Hall. apply andb_prop in Hall as [Hentry Hall].
    destruct entry as [a|]; [|discriminate]. cbn in Hentry.
    destruct (as_frames a) as [clientFrames|] eqn:Hfs; [|discriminate].
    rewrite (buildCaches_cons _ _ _ _ _ Hfs Hentry) in Hbuild.
    destruct (buildCaches rnd payload (k + FRAME_ID_LENGTH * length clientFrames))
      as [[md fr]|e] eqn:Hrest; [|discriminate].
    cbn [mbind Completion_bind fst snd] in Hbuild. injection Hbuild as <- <-.
    rewrite frameSlots_cons, fmap_app.
    rewrite (IH _ _ _ store Hrest)
      by (intros frame Hin; apply Hdocs, elem_of_app; right; exact Hin).
    f_equal. cbn [totalFrames].
    set (ids := generatedIDs rnd k (length clientFrames)) in *.
    set (m := mkMetadata _ _ _ _ _).
    assert (Hlids : length ids = length clientFrames) by apply length_generatedIDs.
    apply list_eq. intros j. rewrite <- list_fmap_compose, list_lookup_fmap.
    destruct (decide (j < length clientFrames)) as [Hj|Hj].
    + rewrite lookup_seq_lt by exact Hj. cbn [fmap option_fmap option_map Nat.add].
      destruct (lookup_lt_is_Some_2 ids j ltac:(lia)) as [fid Hfid].
      destruct (lookup_lt_is_Some_2 clientFrames j Hj) as [f Hf].
      rewrite (framesOf_lookup _ _ _ _ _ _ Hfid Hf). f_equal.
      unfold compose, loadedFrame, slotFrameID. cbn [fst snd frameOrder md_animationID m].
      rewrite Hfid.
      assert (Hdoc : frameDocs store !! Some fid
                     = Some (as_animationID a, frameBytes f)).
      { apply (Hdocs (mkFrame (Some fid) (as_animationID a) (frameBytes f))).
        apply elem_of_app. left. apply list_elem_of_lookup. exists j.
        apply framesOf_lookup; assumption. }
      rewrite Hdoc. reflexivity.
    + rewrite lookup_seq_ge by lia. cbn.
      symmetry. apply lookup_ge_None_2. rewrite length_framesOf by exact Hlids. lia.
Qed.

(** X22: a restart brings back what a POST left.  After a POST answered
    200, no frame insert having failed and the generated frameIDs being
    pairwise distinct, start-up on the resulting store, from empty caches
    and with no store failure, succeeds and rebuilds exactly the metadata
    cache and the animation cache the POST had installed; the test data
    play no part. *)
Theorem restart_restores_caches
    (rnd : Random) (faults : Faults) (payload : Payload) (w : World)
    (test : TestData) :
  (postData rnd faults payload w).1 = Normal (sendStatus 200) ->
  faults OpReplaceMetadataArray = false ->
  (forall fid, faults (OpInsertFrame fid) = false) ->
  let w' := (postData rnd faults payload w).2 in
  NoDup (frameID <$> animationCache w') ->
  connectToDbAndInitCache noFaults test (mkWorld [] [] (db w')) = (Normal tt, w').
Proof.
  intros Hanswered Hreplace Hfaults.
  destruct (postData_answered _ _ _ _ _ Hanswered)
    as (metadata & frames & Hbuild & (Hlen & _) & Hpos & ->).
  rewrite Hreplace. cbn zeta. cbn [snd animationCache db]. intros Hnodup.
  set (store := mkStore metadata (sweptDocs faults frames (frameDocs (db w)))).
  assert (Hdocs : forall frame, frame ∈ frames ->
            frameDocs store !! frameID frame = Some (fr_animationID frame, data frame)).
  { intros frame [i Hi]%list_elem_of_lookup.
    exact (sweptDocs_stored _ _ _ i frame Hfaults Hnodup Hi). }
  pose proof (buildCaches_loaded _ _ _ _ _ store Hbuild Hdocs) as Hloaded.
  rewrite connectToDbAndInitCache_complete.
  - cbn [animationCache db metadataArray store app].
    fold store. rewrite Hloaded. reflexivity.
  - cbn. lia.
  - reflexivity.
  - reflexivity.
  - reflexivity.
  - cbn [db metadataArray store]. fold store.
    apply Forall_lookup. intros i slot Hslot.
    assert (Hframe : frames !! i = Some (loadedFrame store slot)).
    { rewrite <- Hloaded, list_lookup_fmap, Hslot. reflexivity. }
    pose proof (Hdocs _ (proj2 (list_elem_of_lookup _ _) (ex_intro _ i Hframe))) as Hdoc.
    pose proof (proj1 (Forall_lookup _ _) (buildCaches_768 _ _ _ _ _ Hbuild) _ _ Hframe)
      as H768.
    cbn [loadedFrame frameID fr_animationID data] in Hdoc, H768.
    eexists _, _. split; [exact Hdoc|]. exact H768.
Qed.

Lemma restart_restores_caches_witness :
  let w' := (postData (countingRandom 0) noFaults
               [sampleAnimation "a" [uniformFrame 768 7; uniformFrame 768 9]]
               emptyWorld).2 in
  connectToDbAndInitCache noFaults noTestData (mkWorld [] [] (db w')) = (Normal tt, w').
Proof.
  apply (restart_restores_caches (countingRandom 0) noFaults
           [sampleAnimation "a" [uniformFrame 768 7; uniformFrame 768 9]]
           emptyWorld noTestData).
  - vm_compute. reflexivity.
  - reflexivity.
  - reflexivity.
  - apply (bool_decide_unpack _). vm_compute. reflexivity.
Defined.

(** ** Start-up on a store without metadata *)

Lemma seed_loop_run test (slots : list (Metadata * nat)) : forall w,
  forEachM (fun slot => seedFrameSlot noFaults test slot.1 slot.2) slots w
  = (Normal tt,
     mkWorld (animationCache w) (metadataCache w)
             (mkStore (metadataArray (db w))
                      (sweptDocs noFaults (seedFrame test <$> slots)
                                 (frameDocs (db w))))).
Proof.
  induction slots as [|[m j] slots IH]; intros w.
  - cbn. unfold mret, M_ret. rewrite store_eta, world_eta. reflexivity.
  - cbn [forEachM fst snd]. unfold mbind, M_bind.
    rewrite seedFrameSlot_run. cbn [noFaults]. rewrite IH. reflexivity.
Qed.

Lemma initMetadataCache_seeded test w :
  metadataArray (db w) = [] ->
  initMetadataCache noFaults test w
  = (Normal tt,
     mkWorld (animationCache w) (testMetadata test)
             (mkStore (testMetadata test)
                      (sweptDocs noFaults
                         (seedFrame test <$> frameSlots (testMetadata test))
                         (frameDocs (db w))))).
Proof.
  intros Hempty.
  unfold initMetadataCache, connectToMongo, fetchMetadataArray,
    replaceMetadataArray, dbOperation, setMetadataCache.
  unfold mbind at 1 2, M_bind at 1 2.
  cbn [noFaults fst snd db animationCache metadataCache metadataArray].
  rewrite Hempty. cbn [length Nat.eqb].
  unfold mbind at 1 2 3, M_bind at 1 2 3.
  cbn [noFaults fst snd db animationCache metadataCache metadataArray].
  rewrite forEachFrameSlot_run, seed_loop_run. reflexivity.
Qed.

(** X23: start-up on a store without metadata seeds it.  When no store
    operation fails, the test frame of every slot of the test metadata has
    768 bytes and no frameID is named by two slots, start-up returns: the
    test metadata are stored and become [metadataCache], the test frame of
    every slot is stored under the frameID of the slot, and [animationCache]
    has grown by exactly these frames, in order. *)
Theorem connectToDbAndInitCache_seeds_empty_store (test : TestData) (w : World) :
  metadataArray (db w) = [] ->
  Forall (fun slot => length (data (seedFrame test slot)) = 768)
         (frameSlots (testMetadata test)) ->
  NoDup (slotFrameID <$> frameSlots (testMetadata test)) ->
  connectToDbAndInitCache noFaults test w
  = (Normal tt,
     mkWorld (animationCache w ++ (seedFrame test <$> frameSlots (testMetadata test)))
             (testMetadata test)
             (mkStore (testMetadata test)
                      (sweptDocs noFaults
                         (seedFrame test <$> frameSlots (testMetadata test))
                         (frameDocs (db w))))).
Proof.
  intros Hempty H768 Hnodup.
  unfold connectToDbAndInitCache. unfold mbind, M_bind.
  rewrite (initMetadataCache_seeded test w Hempty).
  rewrite forEachFrameSlot_run. cbn [metadataCache].
  set (slots := frameSlots (testMetadata test)) in *.
  set (store := mkStore (testMetadata test)
                  (sweptDocs noFaults (seedFrame test <$> slots) (frameDocs (db w)))).
  assert (Hdocs : forall i slot, slots !! i = Some slot ->
            frameDocs store !! slotFrameID slot
            = Some (md_animationID slot.1, data (seedFrame test slot))).
  { intros i slot Hslot.
    apply (sweptDocs_stored noFaults (seedFrame test <$> slots) _ i (seedFrame test slot)).
    - reflexivity.
    - rewrite <- list_fmap_compose. exact Hnodup.
    - rewrite list_lookup_fmap, Hslot. reflexivity. }
  rewrite load_loop_complete.
  - cbn [animationCache metadataCache db]. f_equal. f_equal. f_equal.
    apply list_eq. intros i. rewrite !list_lookup_fmap.
    destruct (slots !! i) as [slot|] eqn:Hslot; [|reflexivity].
    cbn [fmap option_fmap option_map]. f_equal.
    unfold loadedFrame. rewrite (Hdocs i slot Hslot). reflexivity.
  - reflexivity.
  - cbn [db]. apply Forall_lookup. intros i slot Hslot.
    eexists _, _. split; [exact (Hdocs i slot Hslot)|].
    exact (proj1 (Forall_lookup _ _) H768 i slot Hslot).
Qed.

Lemma connectToDbAndInitCache_seeds_empty_store_witness :
  let test := mkTestData
                [mkMetadata (Some "a") (Some 100%Q) (Some 1%Q) 2 ["aaaaaa"; "bbbbbb"]]
                (fun _ j => replicate 768 (Z.of_nat j)) in
  connectToDbAndInitCache noFaults test emptyWorld
  = (Normal tt,
     mkWorld (animationCache emptyWorld
              ++ (seedFrame test <$> frameSlots (testMetadata test)))
             (testMetadata test)
             (mkStore (testMetadata test)
                      (sweptDocs noFaults
                         (seedFrame test <$> frameSlots (testMetadata test))
                         (frameDocs (db emptyWorld))))).
Proof.
  apply (connectToDbAndInitCache_seeds_empty_store
           (mkTestData
              [mkMetadata (Some "a") (Some 100%Q) (Some 1%Q) 2 ["aaaaaa"; "bbbbbb"]]
              (fun _ j => replicate 768 (Z.of_nat j)))
           emptyWorld).
  - reflexivity.
  - repeat constructor.
  - apply (bool_decide_unpack _). vm_compute. reflexivity.
Defined.

(** ** The client's frame read *)

(** X24: the client's [fetchFrameDataFromServer] against the frame read
    of the server, for a frameID that is not empty: it returns the stored
    bytes when the store holds the frameID, and throws an [Error] naming
    status 404 when it does not and status 500 when the store fails; it
    never meets an unexpected content type. *)
Theorem fetchFrameDataFromServer_after_getFrameData
    (faults : Faults) (frameId : string) (w : World) :
  frameId <> "" ->
  ((getFrameData faults frameId w).1 ≫= fetchFrameDataFromServer)
  = if faults (OpFetchFrame (Some frameId))
    then Throw (Err "HTTP error! status: 500")
    else match frameDocs (db w) !! Some frameId with
         | Some (_, bytes) => Normal bytes
         | None => Throw (Err "HTTP error! status: 404")
         end.
Proof.
  intros Hne. rewrite getFrameData_run.
  replace (String.eqb frameId "") with false
    by (symmetry; apply String.eqb_neq; exact Hne).
  cbn [fst]. destruct (faults (OpFetchFrame (Some frameId))); [reflexivity|].
  destruct (frameDocs (db w) !! Some frameId) as [[a bytes]|]; reflexivity.
Qed.

Lemma fetchFrameDataFromServer_after_getFrameData_witness :
  ((getFrameData noFaults "bbbbbb" (mkWorld [] [] storeMissingSecondFrame)).1
     ≫= fetchFrameDataFromServer)
  = if noFaults (OpFetchFrame (Some "bbbbbb"))
    then Throw (Err "HTTP error! status: 500")
    else match frameDocs storeMissingSecondFrame !! Some "bbbbbb" with
         | Some (_, bytes) => Normal bytes
         | None => Throw (Err "HTTP error! status: 404")
         end.
Proof.
  apply (fetchFrameDataFromServer_after_getFrameData noFaults "bbbbbb"
           (mkWorld [] [] storeMissingSecondFrame)).
  discriminate.
Defined.

(** ** The answers of the POST handler *)

(** X25: the POST handler never answers 500.  For a non-empty payload
    whose animations are objects with a list of frames that
    [objectToArray] accepts, it answers 200, or 501 when the replacement of
    the stored metadata fails; for every other payload it ends in an
    exception and leaves the caches and the store as they were. *)
Theorem postData_answers_200_or_501
    (rnd : Random) (faults : Faults) (payload : Payload) (w : World) :
  (forall response, (postData rnd faults payload w).1 = Normal response ->
     response <> sendStatus 500)
  /\ ((0 < length payload /\ forallb animationAccepted payload = true
       /\ (postData rnd faults payload w).1
          = Normal (sendStatus (if faults OpReplaceMetadataArray then 501 else 200)))
      \/ ((length payload = 0 \/ forallb animationAccepted payload = false)
          /\ exists e, postData rnd faults payload w = (Throw e, w))).
Proof.
  assert (Hcases :
    (0 < length payload /\ forallb animationAccepted payload = true
     /\ (postData rnd faults payload w).1
        = Normal (sendStatus (if faults OpReplaceMetadataArray then 501 else 200)))
    \/ ((length payload = 0 \/ forallb animationAccepted payload = false)
        /\ exists e, postData rnd faults payload w = (Throw e, w))).
  { destruct (forallb animationAccepted payload) eqn:Hall.
    - destruct payload as [|first rest].
      + right. split; [left; reflexivity|]. rewrite postData_world. cbn. eauto.
      + left. split; [cbn; lia|]. split; [reflexivity|].
        destruct (postData_accepted rnd faults (first :: rest) w ltac:(cbn; lia) Hall)
          as (md & fr & docs & _ & _ & ->). reflexivity.
    - right. split; [right; reflexivity|]. apply postData_rejected. exact Hall. }
  split; [|exact Hcases].
  intros response Hresponse.
  destruct Hcases as [(_ & _ & H)|(_ & e & H)].
  - rewrite H in Hresponse. injection Hresponse as <-.
    destruct (faults OpReplaceMetadataArray); discriminate.
  - rewrite H in Hresponse. discriminate.
Qed.
